(** * ETL Automated Tool: the session store and the reconciliation engine

    Two parts of the system are embedded here.

    - [ETLStore]: the zustand store of the React front end ([useETLStore]),
      the one piece of the repository that holds state and decides
      transitions: the step wizard, the activity log, the preview cache and
      the calls to the back end.  The store is a record, its synchronous
      actions are functions on it, and its asynchronous actions run in a
      small monad that threads the store, records the requests sent to the
      back end and completes normally or by throwing.  What the store holds
      under the type [any], and its step, which is a [number], are
      JavaScript values: [Any] and [Number] give them.
    - [Engine]: the cross-sheet lookup engine and its insights aggregator.
      Their code lives in the back-end service, which the repository only
      reaches over HTTP, so they are modelled from the specification.

    The properties follow in [ETLStoreSpec] and [EngineSpec]. *)

From Stdlib Require Import ZArith QArith Qabs Qround Ascii Lia Lqa.
From Stdlib Require SpecFloat.
From stdpp Require Import base gmap strings list pretty.

Local Open Scope string_scope.

(** ** JavaScript values *)

(** *** Numbers

    A JavaScript number is an IEEE 754 binary64 value.  The values, the
    arithmetic and the comparisons are those of the Standard Library's
    [SpecFloat] at precision 53 and maximal exponent 1024; the conversion to
    a string is that of ECMAScript's Number::toString. *)

Module Number.

Definition number : Type := SpecFloat.spec_float.

Definition prec : Z := 53.
Definition emax : Z := 1024.

(** The number that an integer literal denotes, rounded to the nearest
    binary64 value when it is not one. *)
Definition whole (k : Z) : number :=
  SpecFloat.binary_normalize prec emax k 0 false.

(** [x + y] and [x - y] *)
Definition add (x y : number) : number := SpecFloat.SFadd prec emax x y.
Definition sub (x y : number) : number := SpecFloat.SFsub prec emax x y.

(** [x < y], [x <= y], [x > y], [x >= y]: false when an operand is NaN. *)
Definition ltb (x y : number) : bool :=
  match SpecFloat.SFcompare x y with Some Lt => true | _ => false end.
Definition leb (x y : number) : bool :=
  match SpecFloat.SFcompare x y with Some (Lt | Eq) => true | _ => false end.
Definition gtb (x y : number) : bool :=
  match SpecFloat.SFcompare x y with Some Gt => true | _ => false end.
Definition geb (x y : number) : bool :=
  match SpecFloat.SFcompare x y with Some (Gt | Eq) => true | _ => false end.

(** Truthiness: zero and NaN are falsy. *)
Definition truthy (x : number) : bool :=
  match x with
  | SpecFloat.S754_zero _ | SpecFloat.S754_nan => false
  | _ => true
  end.

(** The rational [m * 2^e]. *)
Definition exact (m e : Z) : Q := inject_Z m * Qpower 2 e.

Definition Qltb (x y : Q) : bool := negb (Qle_bool y x).

(** Whether the rational [v] rounds to the binary64 value [m * 2^e]: it
    lies between the midpoints to the two neighbours of that value, the
    midpoints included when [m] is even. *)
Definition reads_back (m : positive) (e : Z) (v : Q) : bool :=
  let low :=
    if Pos.eqb m (2 ^ 52) && (-1074 <? e)%Z
    then exact (4 * Z.pos m - 1) (e - 2)
    else exact (2 * Z.pos m - 1) (e - 1) in
  let high := exact (2 * Z.pos m + 1) (e - 1) in
  if Z.even (Z.pos m)
  then Qle_bool low v && Qle_bool v high
  else Qltb low v && Qltb v high.

(** The least [n], from [n] on, with [x < 10^n]. *)
Fixpoint magnitude (fuel : nat) (n : Z) (x : Q) : Z :=
  match fuel with
  | O => n
  | S fuel' =>
      if Qltb x (Qpower 10 n) then n else magnitude fuel' (n + 1)%Z x
  end.

(** The rational [s * 10^(n-k)]. *)
Definition scaled (s n k : Z) : Q := inject_Z s * Qpower 10 (n - k).

(** The pairs [(s, n)] with [k] digits in [s] whose [s * 10^(n-k)] rounds
    to [m * 2^e]; [n0] is the magnitude of [m * 2^e]. *)
Definition candidates (m : positive) (e : Z) (n0 k : Z) : list (Z * Z) :=
  let x := exact (Z.pos m) e in
  n ← [n0; (n0 + 1)%Z];
  let low := Qfloor (x / Qpower 10 (n - k)) in
  s ← [low; (low + 1)%Z];
  if (10 ^ (k - 1) <=? s)%Z && (s <? 10 ^ k)%Z
     && reads_back m e (scaled s n k)
  then [(s, n)] else [].

(** Of two candidates the one closer to [x], the even one at a tie. *)
Definition closer (x : Q) (k : Z) (a b : Z * Z) : Z * Z :=
  let da := Qabs (scaled a.1 a.2 k - x) in
  let db := Qabs (scaled b.1 b.2 k - x) in
  if Qltb da db then a
  else if Qltb db da then b
  else if Z.even a.1 then a else b.

Definition closest (x : Q) (k : Z) (cs : list (Z * Z)) : option (Z * Z) :=
  match cs with
  | [] => None
  | c :: rest => Some (foldl (closer x k) c rest)
  end.

(** The digits [s], the decimal exponent [n] and the number of digits [k]
    of the shortest decimal that rounds to [m * 2^e]; seventeen digits
    always suffice. *)
Fixpoint shortest (fuel : nat) (m : positive) (e : Z) (n0 k : Z)
    : Z * Z * Z :=
  match closest (exact (Z.pos m) e) k (candidates m e n0 k) with
  | Some (s, n) => (s, n, k)
  | None =>
      match fuel with
      | O => (Z.pos m, n0, k)
      | S fuel' => shortest fuel' m e n0 (k + 1)%Z
      end
  end.

Fixpoint zeros (n : nat) : string :=
  match n with
  | O => String.EmptyString
  | S n' => "0" +:+ zeros n'
  end.

Definition take_string (n : nat) (s : string) : string :=
  String.substring 0 n s.

Definition drop_string (n : nat) (s : string) : string :=
  String.substring n (String.length s - n) s.

(** The digits laid out: plainly when the decimal exponent is between -5
    and 21, with an exponent part otherwise. *)
Definition layout (s n k : Z) : string :=
  let digits := pretty s in
  if (-5 <=? n)%Z && (n <=? 21)%Z then
    if (k <=? n)%Z then digits +:+ zeros (Z.to_nat (n - k))
    else if (0 <? n)%Z
    then take_string (Z.to_nat n) digits +:+ "."
         +:+ drop_string (Z.to_nat n) digits
    else "0." +:+ zeros (Z.to_nat (- n)) +:+ digits
  else
    let e := (n - 1)%Z in
    let exponent :=
      (if (e <? 0)%Z then "-" else "+") +:+ pretty (Z.abs e) in
    if (k =? 1)%Z then digits +:+ "e" +:+ exponent
    else take_string 1 digits +:+ "." +:+ drop_string 1 digits
         +:+ "e" +:+ exponent.

(** [`${x}`] on a number. *)
Definition toString (x : number) : string :=
  match x with
  | SpecFloat.S754_nan => "NaN"
  | SpecFloat.S754_zero _ => "0"
  | SpecFloat.S754_infinity s => if s then "-Infinity" else "Infinity"
  | SpecFloat.S754_finite s m e =>
      let n0 := magnitude 8 ((Z.log2 (Z.pos m) + e) * 30103 / 100000 - 1)
                  (exact (Z.pos m) e) in
      let '(digits, n, k) := shortest 17 m e n0 1 in
      (if s then "-" else String.EmptyString) +:+ layout digits n k
  end.

(** The number 0.5. *)
Definition half : number := SpecFloat.S754_finite false (2 ^ 52) (-53).

End Number.

(** *** Values of type [any]

    What [JSON.parse] builds, [undefined], and the objects of the runtime
    that a property read can reach through a prototype chain (the function
    [Object] under the name constructor), known by a name.  A string is a
    sequence of the model's characters, and its length their number. *)
#[local] Unset Elimination Schemes.
Inductive Any : Type :=
| JUndefined
| JNull
| JBool (b : bool)
| JNum (x : Number.number)
| JStr (s : string)
| JArr (items : list Any)
| JObj (fields : list (string * Any))
| JBuiltin (name : string).
#[local] Set Elimination Schemes.

(** What the store does not decide but the JavaScript runtime it runs on:
    what the prototype chains hold, and the text of a TypeError. *)
Record Runtime := {
  (** [v[key]] for a [key] that is no own property of [v]: what the
      prototype chain of [v] holds under [key], [undefined] if nothing. *)
  inherited : Any -> string -> Any;
  (** [b[key]] on an object of the runtime. *)
  builtinProperty : string -> string -> Any;
  (** [`${b}`] on an object of the runtime. *)
  builtinText : string -> string;
  (** The message of the TypeError that reading [key] of [undefined] or
      [null] throws. *)
  cannotRead : Any -> string -> string;
  (** The message of the TypeError that the conversion of an object to a
      string throws when none of its methods gives one. *)
  cannotConvert : string;
}.

(** Truthiness of a value: [undefined], [null], [false], zero, NaN and the
    empty string are falsy. *)
Definition truthy (v : Any) : bool :=
  match v with
  | JUndefined | JNull => false
  | JBool b => b
  | JNum x => Number.truthy x
  | JStr s => negb (String.eqb s String.EmptyString)
  | JArr _ | JObj _ | JBuiltin _ => true
  end.

(** [v === undefined || v === null] *)
Definition nullish (v : Any) : bool :=
  match v with
  | JUndefined | JNull => true
  | _ => false
  end.

(** The own property [key] of an object built from [fields]; of two fields
    of one name the later is the one a parsed object has. *)
Fixpoint own (fields : list (string * Any)) (key : string) : option Any :=
  match fields with
  | [] => None
  | (k, v) :: rest =>
      match own rest key with
      | Some w => Some w
      | None => if String.eqb k key then Some v else None
      end
  end.

(** The digits of a decimal numeral. *)
Fixpoint numeral (acc : N) (s : string) : option N :=
  match s with
  | String.EmptyString => Some acc
  | String.String c rest =>
      let code := Ascii.N_of_ascii c in
      if (48 <=? code)%N && (code <=? 57)%N
      then numeral (10 * acc + (code - 48))%N rest
      else None
  end.

(** The array index a property key denotes: the key is the canonical
    numeral of an integer below 2^32 - 1. *)
Definition arrayIndex (key : string) : option nat :=
  match key with
  | String.EmptyString => None
  | _ =>
      match numeral 0 key with
      | Some n =>
          if String.eqb (pretty n) key && (n <? 2 ^ 32 - 1)%N
          then Some (N.to_nat n) else None
      | None => None
      end
  end.

(** The character of [s] at index [i], as a string. *)
Definition charAt (s : string) (i : nat) : option string :=
  match String.get i s with
  | Some c => Some (String.String c String.EmptyString)
  | None => None
  end.

(** [xs.slice(-n)]: the last [n] elements, the whole array when it is
    shorter. *)
Definition slice_last {A} (n : nat) (xs : list A) : list A :=
  drop (length xs - n) xs.

(** JavaScript truthiness of a [string | null]: [null] and the empty string
    are falsy. *)
Definition truthy_string (v : option string) : bool :=
  match v with
  | None => false
  | Some s => negb (String.eqb s String.EmptyString)
  end.

(** Truthiness of an [object | null]: every object is truthy. *)
Definition truthy_object {A} (v : option A) : bool :=
  match v with
  | None => false
  | Some _ => true
  end.

(** [v || d] on an optional string. *)
Definition or_else (v : option string) (d : string) : string :=
  match v with
  | Some s => if String.eqb s String.EmptyString then d else s
  | None => d
  end.

Module ETLStore.

(** *** State *)

Inductive LogLevel := Info | Success | Warning | Error.

Record LogEntry := {
  timestamp : string;
  message : string;
  level : LogLevel;
}.

(** A reply object of the back end whose [success] flag was set: the store
    keeps such objects whole as stage outputs. *)
Abbreviation ApiObject := (list (string * Any)).

(** [SessionData].  [string | null] is an optional string, the empty string
    included; the fields declared [any | null] hold the reply objects the
    API actions store in them.  [previewData] and the values of the cache
    hold whatever the [previews] field of a reply was, which nothing checks
    against the declared [Record<string, any[]>]: any value, [null] at the
    start. *)
Record SessionData := {
  fileId : option string;
  filename : option string;
  sheetNames : list string;
  masterSheet : option string;
  targetSheet : option string;
  previewData : Any;
  cleanResult : option ApiObject;
  columnInsights : option ApiObject;
  availableColumns : list string;
  lookupResult : option ApiObject;
  lookupInsights : option ApiObject;
  updateResult : option ApiObject;
  sharepointConfig : option ApiObject;
  logs : list LogEntry;
  cache : gmap string Any;
}.

Record ETLState := {
  currentStep : Number.number;
  isLoading : bool;
  error : option string;
  sessionData : SessionData;
}.

Definition initialSessionData : SessionData := {|
  fileId := None;
  filename := None;
  sheetNames := [];
  masterSheet := None;
  targetSheet := None;
  previewData := JNull;
  cleanResult := None;
  columnInsights := None;
  availableColumns := [];
  lookupResult := None;
  lookupInsights := None;
  updateResult := None;
  sharepointConfig := None;
  logs := [];
  cache := ∅;
|}.

Definition initialState : ETLState := {|
  currentStep := Number.whole 0;
  isLoading := false;
  error := None;
  sessionData := initialSessionData;
|}.

(** [Partial<SessionData>]: [None] is an absent key. *)
Record SessionPatch := {
  p_fileId : option (option string);
  p_filename : option (option string);
  p_sheetNames : option (list string);
  p_masterSheet : option (option string);
  p_targetSheet : option (option string);
  p_previewData : option Any;
  p_cleanResult : option (option ApiObject);
  p_columnInsights : option (option ApiObject);
  p_availableColumns : option (list string);
  p_lookupResult : option (option ApiObject);
  p_lookupInsights : option (option ApiObject);
  p_updateResult : option (option ApiObject);
  p_sharepointConfig : option (option ApiObject);
  p_logs : option (list LogEntry);
  p_cache : option (gmap string Any);
}.

(** One key of the spread [{ ...old, ...data }]. *)
Definition spread {A} (old : A) (new : option A) : A :=
  match new with
  | Some v => v
  | None => old
  end.

(** [{ ...state.sessionData, ...data }] *)
Definition mergeSession (d : SessionData) (p : SessionPatch) : SessionData := {|
  fileId := spread (fileId d) (p_fileId p);
  filename := spread (filename d) (p_filename p);
  sheetNames := spread (sheetNames d) (p_sheetNames p);
  masterSheet := spread (masterSheet d) (p_masterSheet p);
  targetSheet := spread (targetSheet d) (p_targetSheet p);
  previewData := spread (previewData d) (p_previewData p);
  cleanResult := spread (cleanResult d) (p_cleanResult p);
  columnInsights := spread (columnInsights d) (p_columnInsights p);
  availableColumns := spread (availableColumns d) (p_availableColumns p);
  lookupResult := spread (lookupResult d) (p_lookupResult p);
  lookupInsights := spread (lookupInsights d) (p_lookupInsights p);
  updateResult := spread (updateResult d) (p_updateResult p);
  sharepointConfig := spread (sharepointConfig d) (p_sharepointConfig p);
  logs := spread (logs d) (p_logs p);
  cache := spread (cache d) (p_cache p);
|}.

(** *** Basic actions: each is one [set] on the store *)

Definition setCurrentStep (step : Number.number) (s : ETLState) : ETLState :=
  {| currentStep := step; isLoading := isLoading s;
     error := error s; sessionData := sessionData s |}.

Definition setLoading (loading : bool) (s : ETLState) : ETLState :=
  {| currentStep := currentStep s; isLoading := loading;
     error := error s; sessionData := sessionData s |}.

Definition setError (e : option string) (s : ETLState) : ETLState :=
  {| currentStep := currentStep s; isLoading := isLoading s;
     error := e; sessionData := sessionData s |}.

Definition updateSessionData (data : SessionPatch) (s : ETLState) : ETLState :=
  {| currentStep := currentStep s; isLoading := isLoading s;
     error := error s; sessionData := mergeSession (sessionData s) data |}.

(** [addLog(message, level = 'info')]; [now] is what
    [new Date().toLocaleTimeString()] reads at the call. *)
Definition addLog (now : string) (msg : string) (lvl : option LogLevel)
    (s : ETLState) : ETLState :=
  let entry := {| timestamp := now; message := msg;
                  level := default Info lvl |} in
  {| currentStep := currentStep s; isLoading := isLoading s;
     error := error s;
     sessionData :=
       mergeSession (sessionData s)
         {| p_fileId := None; p_filename := None; p_sheetNames := None;
            p_masterSheet := None; p_targetSheet := None;
            p_previewData := None; p_cleanResult := None;
            p_columnInsights := None; p_availableColumns := None;
            p_lookupResult := None; p_lookupInsights := None;
            p_updateResult := None; p_sharepointConfig := None;
            p_logs := Some (slice_last 50 (logs (sessionData s) ++ [entry])%list);
            p_cache := None |} |}.

Definition resetSession (s : ETLState) : ETLState :=
  {| currentStep := Number.whole 0; isLoading := false; error := None;
     sessionData := initialSessionData |}.

(** [getMaxAllowedStep].  Its results are the literals 0 to 7, kept as the
    integers they are; [Number.whole] gives the number a caller compares
    them as. *)
Definition getMaxAllowedStep (s : ETLState) : Z :=
  let d := sessionData s in
  if negb (truthy_string (fileId d)) then 0
  else if negb (truthy (previewData d)) then 1
  else if negb (truthy_object (cleanResult d)) then 2
  else if negb (truthy_object (columnInsights d)) then 3
  else if negb (truthy_object (lookupResult d)) then 4
  else if negb (truthy_object (lookupInsights d)) then 5
  else if negb (truthy_object (updateResult d)) then 6
  else 7.

(** [goToStep(step)]: [step] is any number, a fraction or NaN included. *)
Definition goToStep (now : string) (step : Number.number) (s : ETLState)
    : ETLState :=
  let maxStep := Number.whole (getMaxAllowedStep s) in
  if Number.geb step (Number.whole 0) && Number.leb step maxStep then
    addLog now
      ("Navigated to step "
       +:+ Number.toString (Number.add step (Number.whole 1)))
      (Some Info)
      (setCurrentStep step s)
  else s.

Definition nextStep (s : ETLState) : ETLState :=
  let maxStep := Number.whole (getMaxAllowedStep s) in
  if Number.ltb (currentStep s) maxStep
  then setCurrentStep (Number.add (currentStep s) (Number.whole 1)) s
  else s.

Definition previousStep (now : string) (s : ETLState) : ETLState :=
  if Number.gtb (currentStep s) (Number.whole 0) then
    addLog now ("Went back to step " +:+ Number.toString (currentStep s))
      (Some Info)
      (setCurrentStep (Number.sub (currentStep s) (Number.whole 1)) s)
  else s.

(** *** The world around the store

    The asynchronous actions talk to the back end and read the clock.  Both
    are taken as given: a [Backend] says what each endpoint answers, and
    the model records which requests were sent. *)

(** A thrown value; [error instanceof Error] holds of the first kind. *)
Inductive Thrown :=
| ErrorObject (msg : string)
| OtherValue.

(** [error instanceof Error ? error.message : fallback] *)
Definition messageOf (e : Thrown) (fallback : string) : string :=
  match e with
  | ErrorObject msg => msg
  | OtherValue => fallback
  end.

(** The parsed body of a response: [{ success: true, ... }] carrying the
    payload the action reads, or a body whose [success] is falsy, with its
    [error] field. *)
Inductive Reply (P : Type) :=
| Succeeded (payload : P)
| Failed (err : option string).
Arguments Succeeded {P} payload.
Arguments Failed {P} err.

(** [await response.json()], and the read of [result.success], may throw. *)
Inductive Body (P : Type) :=
| JsonThrows (e : Thrown)
| JsonValue (result : Reply P).
Arguments JsonThrows {P} e.
Arguments JsonValue {P} result.

Record Response (P : Type) := {
  ok : bool;
  status : Z;
  statusText : string;
  body : Body P;
}.
Arguments ok {P} _.
Arguments status {P} _.
Arguments statusText {P} _.
Arguments body {P} _.

(** [await fetch(...)]: the promise rejects or resolves to a response. *)
Inductive Fetched (P : Type) :=
| FetchThrows (e : Thrown)
| FetchResponse (r : Response P).
Arguments FetchThrows {P} e.
Arguments FetchResponse {P} r.

Inductive Request :=
| PostPreviewSession (master_sheet target_sheet : string)
| PostCleanSession
| PostColumnInsights
| PostGetLookupColumns
| PostLookupSession (lookup_column : string)
| PostLookupInsights.

(** The surroundings of the store: what each endpoint answers, what the
    clock reads, and the JavaScript runtime. *)
Record Backend := {
  preview_session : string -> string -> Fetched Any;
  clean_session : Fetched ApiObject;
  column_insights : Fetched ApiObject;
  get_lookup_columns : Fetched (list string);
  lookup_session : string -> Fetched ApiObject;
  lookup_insights : Fetched ApiObject;
  clock : nat -> string;
  runtime : Runtime;
}.

Record World := {
  store : ETLState;
  sent : list Request;
  ticks : nat;
}.

Inductive Completion (A : Type) :=
| Normal (a : A)
| Abrupt (e : Thrown).
Arguments Normal {A} a.
Arguments Abrupt {A} e.

(** The evaluation of an expression completes with a value or throws. *)
#[global] Instance Completion_ret : MRet Completion := λ A a, Normal a.

#[global] Instance Completion_bind : MBind Completion := λ A B k c,
  match c with
  | Normal a => k a
  | Abrupt e => Abrupt e
  end.

(** An action runs against a back end, changes the world and completes
    normally or by throwing. *)
Definition Act (A : Type) : Type := Backend -> World -> Completion A * World.

#[global] Instance Act_ret : MRet Act := λ A a, λ _ w, (Normal a, w).

#[global] Instance Act_bind : MBind Act := λ A B k m, λ be w,
  match m be w with
  | (Normal a, w') => k a be w'
  | (Abrupt e, w') => (Abrupt e, w')
  end.

Definition throw {A} (e : Thrown) : Act A := λ _ w, (Abrupt e, w).

(** [get()] *)
Definition get : Act ETLState := λ _ w, (Normal (store w), w).

(** [set(...)] *)
Definition set (f : ETLState -> ETLState) : Act unit := λ _ w,
  (Normal tt, {| store := f (store w); sent := sent w; ticks := ticks w |}).

(** [addLog] as an action: it reads the clock. *)
Definition log (msg : string) (lvl : option LogLevel) : Act unit := λ be w,
  (Normal tt,
   {| store := addLog (clock be (ticks w)) msg lvl (store w);
      sent := sent w; ticks := S (ticks w) |}).

(** An expression that reads nothing but its operands and the runtime. *)
Definition eval {A} (expression : Runtime -> Completion A) : Act A := λ be w,
  (expression (runtime be), w).

(** [await fetch(...)] *)
Definition fetch {P} (req : Request) (answer : Backend -> Fetched P)
    : Act (Response P) := λ be w,
  let w' := {| store := store w; sent := (sent w ++ [req])%list;
               ticks := ticks w |} in
  match answer be with
  | FetchThrows e => (Abrupt e, w')
  | FetchResponse r => (Normal r, w')
  end.

(** [await response.json()] *)
Definition json {P} (r : Response P) : Act (Reply P) :=
  match body r with
  | JsonThrows e => throw e
  | JsonValue result => mret result
  end.

(** [try { body } catch (error) { handler }] *)
Definition try_catch {A} (tryBlock : Act A) (handler : Thrown -> Act A)
    : Act A := λ be w,
  match tryBlock be w with
  | (Normal a, w') => (Normal a, w')
  | (Abrupt e, w') => handler e be w'
  end.

(** [try { body } finally { fin }] *)
Definition try_finally {A} (tryBlock : Act A) (fin : Act unit)
    : Act A := λ be w,
  match tryBlock be w with
  | (c, w') =>
      match fin be w' with
      | (Normal _, w'') => (c, w'')
      | (Abrupt e, w'') => (Abrupt e, w'')
      end
  end.

(** *** The patches the actions pass to [updateSessionData] *)

Definition patchPreview (m t : string) (pd : Any)
    (c : option (gmap string Any)) : SessionPatch := {|
  p_fileId := None; p_filename := None; p_sheetNames := None;
  p_masterSheet := Some (Some m); p_targetSheet := Some (Some t);
  p_previewData := Some pd;
  p_cleanResult := None; p_columnInsights := None;
  p_availableColumns := None; p_lookupResult := None;
  p_lookupInsights := None; p_updateResult := None;
  p_sharepointConfig := None; p_logs := None; p_cache := c;
|}.

Definition patchCleanResult (r : ApiObject) : SessionPatch := {|
  p_fileId := None; p_filename := None; p_sheetNames := None;
  p_masterSheet := None; p_targetSheet := None; p_previewData := None;
  p_cleanResult := Some (Some r); p_columnInsights := None;
  p_availableColumns := None; p_lookupResult := None;
  p_lookupInsights := None; p_updateResult := None;
  p_sharepointConfig := None; p_logs := None; p_cache := None;
|}.

Definition patchColumnInsights (r : ApiObject) : SessionPatch := {|
  p_fileId := None; p_filename := None; p_sheetNames := None;
  p_masterSheet := None; p_targetSheet := None; p_previewData := None;
  p_cleanResult := None; p_columnInsights := Some (Some r);
  p_availableColumns := None; p_lookupResult := None;
  p_lookupInsights := None; p_updateResult := None;
  p_sharepointConfig := None; p_logs := None; p_cache := None;
|}.

Definition patchAvailableColumns (cols : list string) : SessionPatch := {|
  p_fileId := None; p_filename := None; p_sheetNames := None;
  p_masterSheet := None; p_targetSheet := None; p_previewData := None;
  p_cleanResult := None; p_columnInsights := None;
  p_availableColumns := Some cols; p_lookupResult := None;
  p_lookupInsights := None; p_updateResult := None;
  p_sharepointConfig := None; p_logs := None; p_cache := None;
|}.

Definition patchLookupResult (r : ApiObject) : SessionPatch := {|
  p_fileId := None; p_filename := None; p_sheetNames := None;
  p_masterSheet := None; p_targetSheet := None; p_previewData := None;
  p_cleanResult := None; p_columnInsights := None;
  p_availableColumns := None; p_lookupResult := Some (Some r);
  p_lookupInsights := None; p_updateResult := None;
  p_sharepointConfig := None; p_logs := None; p_cache := None;
|}.

Definition patchLookupInsights (r : ApiObject) : SessionPatch := {|
  p_fileId := None; p_filename := None; p_sheetNames := None;
  p_masterSheet := None; p_targetSheet := None; p_previewData := None;
  p_cleanResult := None; p_columnInsights := None;
  p_availableColumns := None; p_lookupResult := None;
  p_lookupInsights := Some (Some r); p_updateResult := None;
  p_sharepointConfig := None; p_logs := None; p_cache := None;
|}.

(** *** API actions *)

(** The message of [`${label}: ${response.status} ${response.statusText}`]. *)
Definition httpFailure {P} (label : string) (r : Response P) : Thrown :=
  ErrorObject (label +:+ ": " +:+ pretty (status r) +:+ " " +:+ statusText r).

(** The [catch] block every API action shares, up to its fallback text. *)
Definition reportError (fallback : string) (e : Thrown) : Act unit :=
  let errorMessage := messageOf e fallback in
  set (setError (Some errorMessage));;
  log errorMessage (Some Error).

(** [loadLookupColumns]: failures are only printed to the console. *)
Definition loadLookupColumns : Act unit :=
  try_catch
    (response ← fetch PostGetLookupColumns get_lookup_columns;
     if ok response then
       result ← json response;
       match result with
       | Succeeded columns =>
           set (updateSessionData (patchAvailableColumns columns))
       | Failed _ => mret tt
       end
     else mret tt)
    (λ _, mret tt).

Definition generateColumnInsights : Act unit :=
  try_finally
    (try_catch
       (set (setLoading true);;
        set (setError None);;
        response ← fetch PostColumnInsights column_insights;
        if negb (ok response) then
          throw (httpFailure "Column insights failed" response)
        else
          result ← json response;
          match result with
          | Succeeded r =>
              set (updateSessionData (patchColumnInsights r));;
              set (setCurrentStep (Number.whole 4));;
              log "Column insights generated successfully!" (Some Success);;
              loadLookupColumns
          | Failed err =>
              throw (ErrorObject (or_else err "Column insights failed"))
          end)
       (reportError "Column insights failed"))
    (set (setLoading false)).

Definition generateLookupInsights : Act unit :=
  try_finally
    (try_catch
       (set (setLoading true);;
        set (setError None);;
        response ← fetch PostLookupInsights lookup_insights;
        if negb (ok response) then
          throw (httpFailure "Lookup insights failed" response)
        else
          result ← json response;
          match result with
          | Succeeded r =>
              set (updateSessionData (patchLookupInsights r));;
              set (setCurrentStep (Number.whole 6));;
              log "Lookup insights generated successfully!" (Some Success)
          | Failed err =>
              throw (ErrorObject (or_else err "Lookup insights failed"))
          end)
       (reportError "Lookup insights failed"))
    (set (setLoading false)).

Definition cleanData : Act unit :=
  try_finally
    (try_catch
       (set (setLoading true);;
        set (setError None);;
        response ← fetch PostCleanSession clean_session;
        if negb (ok response) then
          throw (httpFailure "Cleaning failed" response)
        else
          result ← json response;
          match result with
          | Succeeded r =>
              set (updateSessionData (patchCleanResult r));;
              set (setCurrentStep (Number.whole 3));;
              log "Data cleaning completed successfully!" (Some Success);;
              generateColumnInsights
          | Failed err =>
              throw (ErrorObject (or_else err "Cleaning failed"))
          end)
       (reportError "Cleaning failed"))
    (set (setLoading false)).

Definition performLookup (lookupColumn : string) : Act unit :=
  try_finally
    (try_catch
       (set (setLoading true);;
        set (setError None);;
        response ← fetch (PostLookupSession lookupColumn)
                      (λ be, lookup_session be lookupColumn);
        if negb (ok response) then
          throw (httpFailure "Lookup failed" response)
        else
          result ← json response;
          match result with
          | Succeeded r =>
              set (updateSessionData (patchLookupResult r));;
              set (setCurrentStep (Number.whole 5));;
              log ("Lookup completed using column: " +:+ lookupColumn)
                (Some Success);;
              generateLookupInsights
          | Failed err =>
              throw (ErrorObject (or_else err "Lookup failed"))
          end)
       (reportError "Lookup failed"))
    (set (setLoading false)).

(** [`preview_${masterSheet}_${targetSheet}`] *)
Definition cacheKey (masterSheet targetSheet : string) : string :=
  "preview_" +:+ masterSheet +:+ "_" +:+ targetSheet.

(** [cache[key]]: the keys of the cache begin with preview_, a name under
    which the prototype of a plain object holds nothing, so the read finds
    an entry of the cache or [undefined]. *)
Definition cacheRead (c : gmap string Any) (key : string) : Any :=
  default JUndefined (c !! key).

(** [v[key]]: a TypeError on [undefined] and [null]; an own property of
    an object, an element or the length of an array, a character or the
    length of a string; otherwise what the prototype chain holds. *)
Definition getProperty (rt : Runtime) (v : Any) (key : string)
    : Completion Any :=
  match v with
  | JUndefined | JNull => Abrupt (ErrorObject (cannotRead rt v key))
  | JObj fields => Normal (default (inherited rt v key) (own fields key))
  | JArr items =>
      Normal
        (match arrayIndex key with
         | Some i => default (inherited rt v key) (items !! i)
         | None =>
             if String.eqb key "length"
             then JNum (Number.whole (Z.of_nat (length items)))
             else inherited rt v key
         end)
  | JStr s =>
      Normal
        (match arrayIndex key with
         | Some i => default (inherited rt v key) (JStr <$> charAt s i)
         | None =>
             if String.eqb key "length"
             then JNum (Number.whole (Z.of_nat (String.length s)))
             else inherited rt v key
         end)
  | JBool _ | JNum _ => Normal (inherited rt v key)
  | JBuiltin b => Normal (builtinProperty rt b key)
  end.

(** [`${v}`]: the conversion of a value to a string.  An array joins the
    strings of its elements with commas, [undefined] and [null] giving the
    empty string there.  A parsed object has no method of its own: with an
    own property toString, which hides the inherited method, the
    conversion throws a TypeError; without, the inherited method gives
    [object Object]. *)
Fixpoint toText (rt : Runtime) (v : Any) : Completion string :=
  match v with
  | JUndefined => Normal "undefined"
  | JNull => Normal "null"
  | JBool b => Normal (if b then "true" else "false")
  | JNum x => Normal (Number.toString x)
  | JStr s => Normal s
  | JArr items =>
      (fix join (xs : list Any) : Completion string :=
         match xs with
         | [] => Normal String.EmptyString
         | x :: rest =>
             let element :=
               if nullish x then Normal String.EmptyString else toText rt x in
             match element, rest with
             | Abrupt e, _ => Abrupt e
             | Normal first, [] => Normal first
             | Normal first, _ :: _ =>
                 match join rest with
                 | Abrupt e => Abrupt e
                 | Normal others => Normal (first +:+ "," +:+ others)
                 end
             end
         end) items
  | JObj fields =>
      match own fields "toString" with
      | Some _ => Abrupt (ErrorObject (cannotConvert rt))
      | None => Normal "[object Object]"
      end
  | JBuiltin b => Normal (builtinText rt b)
  end.

(** [previews[sheet]?.length || 0] *)
Definition previewRows (rt : Runtime) (previews : Any) (sheet : string)
    : Completion Any :=
  rows ← getProperty rt previews sheet;
  length ← (if nullish rows then mret JUndefined
            else getProperty rt rows "length");
  mret (if truthy length then length else JNum (Number.whole 0)).

(** [previewSheets]: [sessionData] is the snapshot read by [get()] when the
    action starts; the cache is looked up and extended in that snapshot.
    [result.previews] is whatever the reply holds under that name,
    [undefined] when it holds nothing: it is stored before the row counts
    are read from it. *)
Definition previewSheets (masterSheet targetSheet : string) : Act unit :=
  s0 ← get;
  let sessionData := sessionData s0 in
  try_finally
    (try_catch
       (set (setLoading true);;
        set (setError None);;
        let cacheKey := cacheKey masterSheet targetSheet in
        if truthy (cacheRead (cache sessionData) cacheKey) then
          set (updateSessionData
                 (patchPreview masterSheet targetSheet
                    (cacheRead (cache sessionData) cacheKey) None));;
          log "Preview loaded from cache (instant!)" (Some Info)
        else
          response ← fetch (PostPreviewSession masterSheet targetSheet)
                        (λ be, preview_session be masterSheet targetSheet);
          if negb (ok response) then
            throw (httpFailure "Preview failed" response)
          else
            result ← json response;
            match result with
            | Succeeded previews =>
                let newCache := <[cacheKey := previews]> (cache sessionData) in
                set (updateSessionData
                       (patchPreview masterSheet targetSheet previews
                          (Some newCache)));;
                masterRows ← eval (λ rt, previewRows rt previews masterSheet);
                targetRows ← eval (λ rt, previewRows rt previews targetSheet);
                masterText ← eval (λ rt, toText rt masterRows);
                targetText ← eval (λ rt, toText rt targetRows);
                log ("Preview ready! " +:+ masterSheet +:+ ": "
                     +:+ masterText +:+ " rows, "
                     +:+ targetSheet +:+ ": "
                     +:+ targetText +:+ " rows")
                  (Some Success)
            | Failed err =>
                throw (ErrorObject (or_else err "Preview failed"))
            end)
       (reportError "Preview failed"))
    (set (setLoading false)).

(** *** Quick actions *)

Definition quickPreview : Act unit :=
  s0 ← get;
  let sessionData := sessionData s0 in
  if negb (truthy_string (fileId sessionData))
     || (length (sheetNames sessionData) <? 2)%nat
  then throw (ErrorObject "Need at least 2 sheets for quick preview")
  else previewSheets (sheetNames sessionData !!! 0%nat)
                     (sheetNames sessionData !!! 1%nat).

(** *** Notions the properties are stated with *)

(** The entry [addLog] builds. *)
Definition entryOf (now msg : string) (lvl : option LogLevel) : LogEntry :=
  {| timestamp := now; message := msg; level := default Info lvl |}.

(** One [addLog] call: the clock reading, the message, the level if given. *)
Abbreviation LogCall := (string * string * option LogLevel)%type.

Definition entryOfCall (c : LogCall) : LogEntry :=
  entryOf c.1.1 c.1.2 c.2.

(** A sequence of [addLog] calls, first call first. *)
Definition addLogs (calls : list LogCall) (s : ETLState) : ETLState :=
  foldl (λ st c, addLog c.1.1 c.1.2 c.2 st) s calls.

(** Which stage outputs the session holds, in pipeline order. *)
Definition stageOutputs (d : SessionData) : list bool :=
  [ truthy_string (fileId d);
    truthy (previewData d);
    truthy_object (cleanResult d);
    truthy_object (columnInsights d);
    truthy_object (lookupResult d);
    truthy_object (lookupInsights d);
    truthy_object (updateResult d) ].

(** Index of the first missing output, the length when none is missing. *)
Fixpoint firstMissing (present : list bool) : nat :=
  match present with
  | true :: rest => S (firstMissing rest)
  | _ => 0
  end.

(** The two stages whose failure is studied. *)
Inductive Stage :=
| Clean
| Lookup (lookupColumn : string).

Definition runStage (st : Stage) : Act unit :=
  match st with
  | Clean => cleanData
  | Lookup column => performLookup column
  end.

Definition stageAnswer (be : Backend) (st : Stage) : Fetched ApiObject :=
  match st with
  | Clean => clean_session be
  | Lookup column => lookup_session be column
  end.

Definition stageRequest (st : Stage) : Request :=
  match st with
  | Clean => PostCleanSession
  | Lookup column => PostLookupSession column
  end.

Definition stageLabel (st : Stage) : string :=
  match st with
  | Clean => "Cleaning failed"
  | Lookup _ => "Lookup failed"
  end.

(** The stage fails: the fetch throws, the response is not ok, the body
    cannot be read, or its [success] flag is not set. *)
Definition stageFailed {P} (f : Fetched P) : bool :=
  match f with
  | FetchThrows _ => true
  | FetchResponse r =>
      if ok r then
        match body r with
        | JsonValue (Succeeded _) => false
        | _ => true
        end
      else true
  end.

(** The message a failed stage reports. *)
Definition failureMessage {P} (label : string) (f : Fetched P) : string :=
  match f with
  | FetchThrows e => messageOf e label
  | FetchResponse r =>
      if ok r then
        match body r with
        | JsonThrows e => messageOf e label
        | JsonValue (Failed err) => or_else err label
        | JsonValue (Succeeded _) => String.EmptyString
        end
      else label +:+ ": " +:+ pretty (status r) +:+ " " +:+ statusText r
  end.

(** The seven stage outputs are the same in both sessions. *)
Definition sameOutputs (d d' : SessionData) : Prop :=
  fileId d' = fileId d
  ∧ previewData d' = previewData d
  ∧ cleanResult d' = cleanResult d
  ∧ columnInsights d' = columnInsights d
  ∧ lookupResult d' = lookupResult d
  ∧ lookupInsights d' = lookupInsights d
  ∧ updateResult d' = updateResult d.

(** Every field of the session but [logs] is the same. *)
Definition sameButLogs (d d' : SessionData) : Prop :=
  sameOutputs d d'
  ∧ filename d' = filename d
  ∧ sheetNames d' = sheetNames d
  ∧ masterSheet d' = masterSheet d
  ∧ targetSheet d' = targetSheet d
  ∧ availableColumns d' = availableColumns d
  ∧ sharepointConfig d' = sharepointConfig d
  ∧ cache d' = cache d.

(** Between two store states, nothing but [error] and the logs differs. *)
Definition onlyErrorAndLogsChange (s s' : ETLState) : Prop :=
  currentStep s' = currentStep s
  ∧ isLoading s' = isLoading s
  ∧ sameButLogs (sessionData s) (sessionData s').

(** A response with status 200 whose body has [success] set. *)
Definition okReply {P} (payload : P) : Fetched P :=
  FetchResponse {| ok := true; status := 200; statusText := "OK";
                   body := JsonValue (Succeeded payload) |}.

(** The store a failed stage leaves: what the [catch] and [finally] blocks
    make of [s] when the error [msg] is reported at clock reading [now]. *)
Definition afterFailure (now msg : string) (s : ETLState) : ETLState :=
  setLoading false
    (addLog now msg (Some Error)
       (setError (Some msg) (setError None (setLoading true s)))).

(** A world that has sent nothing and read no clock yet. *)
Definition freshWorld (s : ETLState) : World :=
  {| store := s; sent := []; ticks := 0 |}.

(** What every object inherits from Object.prototype, each function with
    the number of parameters it declares, its length. *)
Definition objectPrototype : list (string * Any) :=
  [ ("constructor", JNum (Number.whole 1));
    ("hasOwnProperty", JNum (Number.whole 1));
    ("isPrototypeOf", JNum (Number.whole 1));
    ("propertyIsEnumerable", JNum (Number.whole 1));
    ("toLocaleString", JNum (Number.whole 0));
    ("toString", JNum (Number.whole 0));
    ("valueOf", JNum (Number.whole 0));
    ("__defineGetter__", JNum (Number.whole 2));
    ("__defineSetter__", JNum (Number.whole 2));
    ("__lookupGetter__", JNum (Number.whole 1));
    ("__lookupSetter__", JNum (Number.whole 1));
    ("__proto__", JUndefined) ].

(** A runtime whose prototype chains hold what Object.prototype holds, with
    the error messages of V8. *)
Definition v8 : Runtime := {|
  inherited := λ _ key,
    match own objectPrototype key with
    | Some _ => JBuiltin key
    | None => JUndefined
    end;
  builtinProperty := λ b key,
    if String.eqb key "length"
    then default JUndefined (own objectPrototype b)
    else JUndefined;
  builtinText := λ b, "function " +:+ b +:+ "() { [native code] }";
  cannotRead := λ v key,
    "Cannot read properties of "
    +:+ (if v is JNull then "null" else "undefined")
    +:+ " (reading '" +:+ key +:+ "')";
  cannotConvert := "Cannot convert object to primitive value";
|}.

(** A back end that cannot be reached: every fetch rejects. *)
Definition unreachable : Backend := {|
  preview_session := λ _ _, FetchThrows (ErrorObject "Failed to fetch");
  clean_session := FetchThrows (ErrorObject "Failed to fetch");
  column_insights := FetchThrows (ErrorObject "Failed to fetch");
  get_lookup_columns := FetchThrows (ErrorObject "Failed to fetch");
  lookup_session := λ _, FetchThrows (ErrorObject "Failed to fetch");
  lookup_insights := FetchThrows (ErrorObject "Failed to fetch");
  clock := λ _, "12:00:00";
  runtime := v8;
|}.

(** A response that is ok and whose body has [success] set. *)
Definition succeeds {P} (f : Fetched P) (payload : P) : Prop :=
  ∃ code text,
    f = FetchResponse {| ok := true; status := code; statusText := text;
                         body := JsonValue (Succeeded payload) |}.

(** The text of the log entry 'Preview ready!' for the previews of a reply,
    or what reading the row counts and printing them throws. *)
Definition readyMessage (rt : Runtime) (m t : string) (previews : Any)
    : Completion string :=
  masterRows ← previewRows rt previews m;
  targetRows ← previewRows rt previews t;
  masterText ← toText rt masterRows;
  targetText ← toText rt targetRows;
  mret ("Preview ready! " +:+ m +:+ ": " +:+ masterText +:+ " rows, "
        +:+ t +:+ ": " +:+ targetText +:+ " rows").

(** The store after [previewSheets] has stored the previews of a reply:
    the success is logged, or the error thrown on the way to the log entry
    is reported. *)
Definition previewReported (now : string) (r : Completion string)
    (s : ETLState) : ETLState :=
  match r with
  | Normal msg => addLog now msg (Some Success) s
  | Abrupt e =>
      addLog now (messageOf e "Preview failed") (Some Error)
        (setError (Some (messageOf e "Preview failed")) s)
  end.

(** A back end that answers the preview of any two sheets with [previews]. *)
Definition previewing (previews : Any) : Backend := {|
  preview_session := λ _ _, okReply previews;
  clean_session := FetchThrows (ErrorObject "Failed to fetch");
  column_insights := FetchThrows (ErrorObject "Failed to fetch");
  get_lookup_columns := FetchThrows (ErrorObject "Failed to fetch");
  lookup_session := λ _, FetchThrows (ErrorObject "Failed to fetch");
  lookup_insights := FetchThrows (ErrorObject "Failed to fetch");
  clock := λ _, "12:00:00";
  runtime := v8;
|}.

(** A session after an upload that gave the file the identifier [id] and the
    sheets [names]. *)
Definition uploaded (id : string) (names : list string) : ETLState :=
  updateSessionData
    {| p_fileId := Some (Some id); p_filename := Some (Some "bom.xlsx");
       p_sheetNames := Some names;
       p_masterSheet := None; p_targetSheet := None; p_previewData := None;
       p_cleanResult := None; p_columnInsights := None;
       p_availableColumns := None; p_lookupResult := None;
       p_lookupInsights := None; p_updateResult := None;
       p_sharepointConfig := None; p_logs := None; p_cache := None |}
    initialState.

End ETLStore.

Module Engine.

(** The lookup engine and the insights aggregator run in the back-end
    service behind [/lookup-session] and [/lookup-insights]; the repository
    holds their callers only.  Every definition of this module is therefore
    modelled from the spec, and says so. *)

(** *** Data model *)

(** Modelled from the spec: the cell of a sheet, "a scalar value
    (string/number/null)".  The back end that holds the tables is not part
    of the repository's sources. *)
Inductive Scalar :=
| SNull
| SStr (s : string)
| SNum (n : Z).

(** Modelled from the spec: a row, "a mapping from column name to a scalar
    value". *)
Abbreviation Row := (gmap string Scalar).

(** Modelled from the spec: a cleaned table, an ordered sequence of rows
    over one column set.  The completeness ratios and type tags of a
    CleanedTable play no part in the lookup and are left out. *)
Record Table := {
  columns : list string;
  rows : list Row;
}.

(** Modelled from the spec: the status taxonomy
    {D=active, 0=check, X=inactive, NOT_FOUND=unmatched}. *)
Inductive Status := D | Zero | X | NOT_FOUND.

#[global] Instance Status_eq_dec : EqDecision Status.
Proof. solve_decision. Defined.

(** Modelled from the spec: the three statuses of the taxonomy a Master row
    can carry, the statuses of a key "found in Master". *)
Inductive Activation := Active | Check | Inactive.

(** Modelled from the spec: the status a matched Target row takes from its
    Master row. *)
Definition status_of (a : Activation) : Status :=
  match a with
  | Active => D
  | Check => Zero
  | Inactive => X
  end.

(** Modelled from the spec: a LookupResult row, "the original row fields,
    the resolved status, and (if matched) a reference to the matched
    Master row". *)
Record LookupResult := {
  fields : Row;
  status : Status;
  matched : option Row;
}.

(** Modelled from the spec: the non-fatal DuplicateKeyWarning, "recorded
    alongside results". *)
Inductive Warning :=
| DuplicateKeyWarning (key : string).

(** Modelled from the spec: the error of a lookup, "requested key column
    absent from one or both cleaned tables". *)
Inductive EngineError :=
| InvalidColumnError (column : string).

(** Modelled from the spec: the "designated Master status-bearing field"
    and the mapping of its raw values to {D, 0, X}.  The spec leaves the
    mapping open, so the engine takes it as given. *)
Record StatusRule := {
  statusField : string;
  classify : Scalar -> Activation;
}.

(** Modelled from the spec: the mapping the spec assumes, "a direct
    passthrough"; a raw value outside the taxonomy counts as no explicit
    status. *)
Definition passthrough (v : Scalar) : Activation :=
  match v with
  | SStr "0" => Check
  | SNum 0 => Check
  | SStr "X" => Inactive
  | _ => Active
  end.

(** *** Key normalization *)

(** Modelled from the spec: the whitespace trimming removes; the blank, the
    tab and the line and page breaks, strings being sequences of bytes. *)
Definition is_space (c : ascii) : bool :=
  match c with
  | " " | "009" | "010" | "011" | "012" | "013" => true
  | _ => false
  end%char.

(** Modelled from the spec: the letters case folding changes, A to Z. *)
Definition is_upper (c : ascii) : bool :=
  (65 <=? nat_of_ascii c)%nat && (nat_of_ascii c <=? 90)%nat.

(** Modelled from the spec: case folding of one character. *)
Definition to_lower (c : ascii) : ascii :=
  if is_upper c then ascii_of_nat (nat_of_ascii c + 32) else c.

(** Modelled from the spec: trimming at the front. *)
Fixpoint drop_spaces (cs : list ascii) : list ascii :=
  match cs with
  | c :: rest => if is_space c then drop_spaces rest else cs
  | [] => []
  end.

(** Modelled from the spec: trimming at both ends. *)
Definition trim (cs : list ascii) : list ascii :=
  reverse (drop_spaces (reverse (drop_spaces cs))).

(** Modelled from the spec: key values are "normalized: trimmed,
    case-folded". *)
Definition normalize (s : string) : string :=
  String.string_of_list_ascii (map to_lower (trim (String.list_ascii_of_string s))).

(** Modelled from the spec: the text a key cell is compared by, none for
    null.  The spec names text normalization only; a number is taken by its
    decimal form. *)
Definition key_text (v : Scalar) : option string :=
  match v with
  | SNull => None
  | SStr s => Some s
  | SNum n => Some (pretty n)
  end.

(** Modelled from the spec: the normalized key of a cell, none when "the
    key value is null/empty".  Emptiness is taken after trimming, as the
    normalization property of the spec requires: an all-blank key differs
    from the empty one by whitespace only. *)
Definition normalized_key (v : Scalar) : option string :=
  match key_text v with
  | None => None
  | Some s =>
      let k := normalize s in
      if String.eqb k String.EmptyString then None else Some k
  end.

(** Modelled from the spec: the cell of a row under a column; the
    normalizer "fills missing cells with null". *)
Definition cell (column : string) (r : Row) : Scalar :=
  default SNull (r !! column).

(** *** Lookup *)

(** Modelled from the spec: "builds an index from Master's key column
    values (normalized) to Master rows; if multiple Master rows share a
    key, the first occurrence wins and subsequent duplicates are recorded
    as a data-quality warning". *)
Definition index_row (keyColumn : string)
    (acc : gmap string Row * list Warning) (r : Row)
    : gmap string Row * list Warning :=
  match normalized_key (cell keyColumn r) with
  | None => acc
  | Some k =>
      match acc.1 !! k with
      | None => (<[k := r]> acc.1, acc.2)
      | Some _ => (acc.1, (acc.2 ++ [DuplicateKeyWarning k])%list)
      end
  end.

(** Modelled from the spec: the index over all Master rows, in row order. *)
Definition build_index (keyColumn : string) (master : list Row)
    : gmap string Row * list Warning :=
  foldl (index_row keyColumn) (∅, []) master.

(** Modelled from the spec: "status is derived from a designated Master
    status-bearing field (if present) mapped through the fixed taxonomy; if
    the Master row carries no explicit status field, default to D". *)
Definition master_status (rule : StatusRule) (m : Row) : Status :=
  match m !! statusField rule with
  | Some v => status_of (classify rule v)
  | None => D
  end.

(** Modelled from the spec: the classification of one Target row. *)
Definition resolve (rule : StatusRule) (index : gmap string Row)
    (keyColumn : string) (t : Row) : LookupResult :=
  match normalized_key (cell keyColumn t) with
  | None => {| fields := t; status := NOT_FOUND; matched := None |}
  | Some k =>
      match index !! k with
      | None => {| fields := t; status := NOT_FOUND; matched := None |}
      | Some m =>
          {| fields := t; status := master_status rule m;
             matched := Some m |}
      end
  end.

(** Modelled from the spec: [lookup(cleanedMaster, cleanedTarget,
    keyColumn)], failing with InvalidColumnError unless the key column
    "exists in both cleaned tables"; the results follow the order of the
    Target rows. *)
Definition lookup (rule : StatusRule) (master target : Table)
    (keyColumn : string)
    : EngineError + (list LookupResult * list Warning) :=
  if bool_decide (keyColumn ∈ columns master)
     && bool_decide (keyColumn ∈ columns target)
  then
    let (index, warnings) := build_index keyColumn (rows master) in
    inr (resolve rule index keyColumn <$> rows target, warnings)
  else inl (InvalidColumnError keyColumn).

(** *** Insights *)

(** Modelled from the spec: "status in {D, 0, X} (i.e., key found in
    Master)". *)
Definition is_match (st : Status) : bool :=
  match st with
  | D | Zero | X => true
  | NOT_FOUND => false
  end.

(** Modelled from the spec: "status = NOT_FOUND". *)
Definition is_not_found (st : Status) : bool :=
  match st with
  | NOT_FOUND => true
  | _ => false
  end.

(** Modelled from the spec: the "count where status ..." of the summary. *)
Definition count_status (p : Status -> bool) (rs : list LookupResult) : nat :=
  length (filter (λ r, p (status r) = true) rs).

(** Modelled from the spec: the LookupSummary counts. *)
Record LookupSummary := {
  total_records : nat;
  successful_matches : nat;
  failed_matches : nat;
}.

(** Modelled from the spec: [summarize(lookupResults)], "total_records =
    count of LookupResult rows; successful_matches = count where status is
    in {D, 0, X}; failed_matches = count where status = NOT_FOUND". *)
Definition summarize (rs : list LookupResult) : LookupSummary := {|
  total_records := length rs;
  successful_matches := count_status is_match rs;
  failed_matches := count_status is_not_found rs;
|}.

(** Modelled from the spec: "rounded to one decimal", to the nearest tenth,
    a half tenth going up; on exact rationals, the floating-point
    representation of the back end being outside the model. *)
Definition round1 (q : Q) : Q :=
  (Qfloor (q * 10 + (1 # 2)) # 10)%Q.

(** A count as a rational number. *)
Definition Q_of_nat (n : nat) : Q := inject_Z (Z.of_nat n).

(** Modelled from the spec: "match_rate = successful_matches /
    total_records * 100, rounded to one decimal; defined as 0 when
    total_records = 0". *)
Definition match_rate (s : LookupSummary) : Q :=
  if (total_records s =? 0)%nat then 0%Q
  else round1 (Q_of_nat (successful_matches s)
               / Q_of_nat (total_records s) * 100)%Q.

(** *** Keys that differ only by case or surrounding whitespace *)

(** Two characters that are the same up to letter case. *)
Definition same_letter (c d : ascii) : Prop :=
  c = d
  ∨ (is_upper c = true ∧ d = to_lower c)
  ∨ (is_upper d = true ∧ c = to_lower d).

(** A run of whitespace. *)
Definition blank (cs : list ascii) : Prop :=
  forallb is_space cs = true.

(** Two texts made of cores equal up to letter case, each between blanks. *)
Definition text_variant (a b : string) : Prop :=
  ∃ la ca ra lb cb rb : list ascii,
    String.list_ascii_of_string a = (la ++ ca ++ ra)%list
    ∧ String.list_ascii_of_string b = (lb ++ cb ++ rb)%list
    ∧ blank la ∧ blank ra ∧ blank lb ∧ blank rb
    ∧ Forall2 same_letter ca cb.

(** Two key cells that are the same, or texts that are variants. *)
Definition cell_variant (v w : Scalar) : Prop :=
  v = w ∨ ∃ a b, v = SStr a ∧ w = SStr b ∧ text_variant a b.

(** Two Target rows whose keys are variants of each other. *)
Definition target_variant (keyColumn : string) (r1 r2 : Row) : Prop :=
  cell_variant (cell keyColumn r1) (cell keyColumn r2).

(** Two Master rows whose keys are variants and that carry the same
    status. *)
Definition master_variant (rule : StatusRule) (keyColumn : string)
    (r1 r2 : Row) : Prop :=
  cell_variant (cell keyColumn r1) (cell keyColumn r2)
  ∧ r1 !! statusField rule = r2 !! statusField rule.

(** The statuses of a lookup, in the order of the results. *)
Definition statuses (out : EngineError + (list LookupResult * list Warning))
    : option (list Status) :=
  match out with
  | inr (rs, _) => Some (map status rs)
  | inl _ => None
  end.

(** The match rate of a lookup, through its summary. *)
Definition lookup_match_rate
    (out : EngineError + (list LookupResult * list Warning)) : option Q :=
  match out with
  | inr (rs, _) => Some (match_rate (summarize rs))
  | inl _ => None
  end.

(** Two Master rows carry the same status. *)
Definition same_status (rule : StatusRule) (r1 r2 : Row) : Prop :=
  r1 !! statusField rule = r2 !! statusField rule.

(** Two indexes under construction hold the same keys, with rows of the
    same status, and the same warnings. *)
Definition index_related (rule : StatusRule)
    (acc1 acc2 : gmap string Row * list Warning) : Prop :=
  (∀ k, option_Forall2 (same_status rule) (acc1.1 !! k) (acc2.1 !! k))
  ∧ acc1.2 = acc2.2.

(** *** Scenario 1 of the spec *)

(** Modelled from the spec: a Master row of scenario 1, a key and a status;
    the spec names no columns, "part" and "status" stand for them. *)
Definition keyed (key st : string) : Row :=
  {[ "part" := SStr key; "status" := SStr st ]}.

(** Modelled from the spec: the status rule of scenario 1, the passthrough
    of the "status" column. *)
Definition scenario_rule : StatusRule :=
  {| statusField := "status"; classify := passthrough |}.

(** Modelled from the spec: "Master has keys A1, A2 with statuses D, X". *)
Definition scenario_master : Table :=
  {| columns := ["part"; "status"];
     rows := [keyed "A1" "D"; keyed "A2" "X"] |}.

(** Modelled from the spec: the Target of scenario 1, whose keys are a1
    followed by a blank, A2 after a blank, and A3. *)
Definition scenario_target : Table :=
  {| columns := ["part"];
     rows := [ {[ "part" := SStr "a1 " ]};
               {[ "part" := SStr " A2" ]};
               {[ "part" := SStr "A3" ]} ] |}.

(** The Target of scenario 1 with its keys written as the Master has
    them. *)
Definition scenario_target_plain : Table :=
  {| columns := ["part"];
     rows := [ {[ "part" := SStr "A1" ]};
               {[ "part" := SStr "A2" ]};
               {[ "part" := SStr "A3" ]} ] |}.

End Engine.


(** * The rest of the store and the components that call it *)

Module ETLApp.
Import ETLStore.

(** ** Quick process *)

(** [quickProcess].  [sessionData] is the snapshot [get()] returns when the
    action starts: the test for a preview and the choice of the lookup
    column are made on it, whatever the steps in between store. *)
Definition quickProcess : Act unit :=
  s0 ← get;
  let sessionData := sessionData s0 in
  (if negb (truthy (previewData sessionData))
   then quickPreview
   else mret tt);;
  log "Starting auto-process pipeline..." (Some Info);;
  cleanData;;
  (if (0 <? length (availableColumns sessionData))%nat
   then performLookup (availableColumns sessionData !!! 0%nat)
   else mret tt);;
  log "Auto-process completed!" (Some Success).

(** ** The QuickActions component *)

(** [sessionData.fileId && sessionData.sheetNames.length >= 2], as the
    truth value the [disabled] attribute reads. *)
Definition canPreview (d : SessionData) : bool :=
  truthy_string (fileId d) && (2 <=? length (sheetNames d))%nat.

(** [sessionData.previewData || canPreview] *)
Definition canProcess (d : SessionData) : bool :=
  truthy (previewData d) || canPreview d.

(** [sessionData.lookupResult] *)
Definition canDownload (d : SessionData) : bool :=
  truthy_object (lookupResult d).

Definition handleQuickPreview : Act unit :=
  try_catch quickPreview
    (λ e, log (messageOf e "Quick preview failed") (Some Error)).

Definition handleQuickProcess : Act unit :=
  try_catch quickProcess
    (λ e, log (messageOf e "Quick process failed") (Some Error)).

(** ** The SheetPreview component *)

(** [handlePreview], on the two sheet names selected in the component. *)
Definition handlePreview (selectedMaster selectedTarget : string) : Act unit :=
  if negb (truthy_string (Some selectedMaster))
     || negb (truthy_string (Some selectedTarget))
  then log "Please select both Master and Target sheets" (Some Warning)
  else if String.eqb selectedMaster selectedTarget
  then log "Master and Target sheets must be different" (Some Warning)
  else previewSheets selectedMaster selectedTarget.

(** ** Upload, updates, SharePoint and download

    These actions reach three more endpoints and the browser window.  They
    run on a page: the store, the clock readings, and the events the page
    caused, in order; the actions of [ETLStore] run on it unchanged. *)

(** A [File], by its [name]. *)
Record File := {
  name : string;
}.

(** The reply of [/upload] as [uploadFile] reads it. *)
Record UploadResult := {
  file_id : option string;
  sheet_names : list string;
}.

Inductive Event :=
| Fetch (r : Request)
| PostUpload (file : File)
| PostProcessUpdates (file_id master_sheet target_sheet : option string)
    (lookup_column : option Any)
| PostSharePointConfigure (config : Any)
| WindowOpen (url : string).

Record Services := {
  core : Backend;
  upload : File -> Fetched UploadResult;
  process_updates :
    option string -> option string -> option string -> option Any ->
    Fetched ApiObject;
  sharepoint_configure : Any -> Fetched ApiObject;
}.

Record Page := {
  state : ETLState;
  events : list Event;
  readings : nat;
}.

Definition Task (A : Type) : Type := Services -> Page -> Completion A * Page.

#[global] Instance Task_ret : MRet Task := λ A a, λ _ p, (Normal a, p).

#[global] Instance Task_bind : MBind Task := λ A B k m, λ sv p,
  match m sv p with
  | (Normal a, p') => k a sv p'
  | (Abrupt e, p') => (Abrupt e, p')
  end.

(** An action of [ETLStore] on the page: the requests it sends join the
    events. *)
Definition lift {A} (a : Act A) : Task A := λ sv p,
  match a (core sv)
          {| store := state p; sent := []; ticks := readings p |} with
  | (c, w) =>
      (c, {| state := store w;
             events := (events p ++ (Fetch <$> sent w))%list;
             readings := ticks w |})
  end.

(** [await fetch(...)] on one of the three further endpoints. *)
Definition call {P} (ev : Event) (answer : Services -> Fetched P)
    : Task (Response P) := λ sv p,
  let p' := {| state := state p; events := (events p ++ [ev])%list;
               readings := readings p |} in
  match answer sv with
  | FetchThrows e => (Abrupt e, p')
  | FetchResponse r => (Normal r, p')
  end.

(** [window.open(url, '_blank')] *)
Definition windowOpen (url : string) : Task unit := λ _ p,
  (Normal tt,
   {| state := state p; events := (events p ++ [WindowOpen url])%list;
      readings := readings p |}).

(** [try { body } catch (error) { handler }] on a page. *)
Definition try_catch_page {A} (tryBlock : Task A) (handler : Thrown -> Task A)
    : Task A := λ sv p,
  match tryBlock sv p with
  | (Normal a, p') => (Normal a, p')
  | (Abrupt e, p') => handler e sv p'
  end.

(** [try { body } finally { fin }] on a page. *)
Definition try_finally_page {A} (tryBlock : Task A) (fin : Task unit)
    : Task A := λ sv p,
  match tryBlock sv p with
  | (c, p') =>
      match fin sv p' with
      | (Normal _, p'') => (c, p'')
      | (Abrupt e, p'') => (Abrupt e, p'')
      end
  end.

(** [obj?.[name]] on a reply object; of two fields of one name the later
    is the one a parsed object has. *)
Fixpoint field (name : string) (obj : ApiObject) : option Any :=
  match obj with
  | [] => None
  | (k, v) :: rest =>
      match field name rest with
      | Some w => Some w
      | None => if String.eqb k name then Some v else None
      end
  end.

Definition patchUpload (id : option string) (fname : string)
    (names : list string) : SessionPatch := {|
  p_fileId := Some id; p_filename := Some (Some fname);
  p_sheetNames := Some names;
  p_masterSheet := None; p_targetSheet := None; p_previewData := None;
  p_cleanResult := None; p_columnInsights := None;
  p_availableColumns := None; p_lookupResult := None;
  p_lookupInsights := None; p_updateResult := None;
  p_sharepointConfig := None; p_logs := None; p_cache := None;
|}.

Definition patchUpdateResult (r : ApiObject) : SessionPatch := {|
  p_fileId := None; p_filename := None; p_sheetNames := None;
  p_masterSheet := None; p_targetSheet := None; p_previewData := None;
  p_cleanResult := None; p_columnInsights := None;
  p_availableColumns := None; p_lookupResult := None;
  p_lookupInsights := None; p_updateResult := Some (Some r);
  p_sharepointConfig := None; p_logs := None; p_cache := None;
|}.

Definition patchSharepointConfig (r : ApiObject) : SessionPatch := {|
  p_fileId := None; p_filename := None; p_sheetNames := None;
  p_masterSheet := None; p_targetSheet := None; p_previewData := None;
  p_cleanResult := None; p_columnInsights := None;
  p_availableColumns := None; p_lookupResult := None;
  p_lookupInsights := None; p_updateResult := None;
  p_sharepointConfig := Some (Some r); p_logs := None; p_cache := None;
|}.

Definition uploadFile (file : File) : Task unit :=
  try_finally_page
    (try_catch_page
       (lift (set (setLoading true));;
        lift (set (setError None));;
        response ← call (PostUpload file) (λ sv, upload sv file);
        if negb (ok response) then
          lift (throw (httpFailure "Upload failed" response))
        else
          result ← lift (json response);
          match result with
          | Succeeded r =>
              lift (set (updateSessionData
                           (patchUpload (file_id r) (name file)
                              (sheet_names r))));;
              lift (set (setCurrentStep (Number.whole 1)));;
              lift (log ("File uploaded: " +:+ name file +:+ " ("
                         +:+ pretty (length (sheet_names r)) +:+ " sheets)")
                      (Some Success))
          | Failed err =>
              lift (throw (ErrorObject (or_else err "Upload failed")))
          end)
       (λ e, lift (reportError "Upload failed" e)))
    (lift (set (setLoading false))).

Definition processUpdates : Task unit :=
  s0 ← lift get;
  let sessionData := sessionData s0 in
  try_finally_page
    (try_catch_page
       (lift (set (setLoading true));;
        lift (set (setError None));;
        let lookup_column := lookupResult sessionData ≫= field "lookup_column" in
        response ← call (PostProcessUpdates (fileId sessionData)
                           (masterSheet sessionData)
                           (targetSheet sessionData) lookup_column)
                      (λ sv, process_updates sv (fileId sessionData)
                               (masterSheet sessionData)
                               (targetSheet sessionData) lookup_column);
        if negb (ok response) then
          lift (throw (httpFailure "Update failed" response))
        else
          result ← lift (json response);
          match result with
          | Succeeded r =>
              lift (set (updateSessionData (patchUpdateResult r)));;
              lift (set (setCurrentStep (Number.whole 6)));;
              lift (log "Master BOM updates completed successfully!"
                      (Some Success))
          | Failed err =>
              lift (throw (ErrorObject (or_else err "Update failed")))
          end)
       (λ e, lift (reportError "Update failed" e)))
    (lift (set (setLoading false))).

Definition configureSharePoint (config : Any) : Task unit :=
  try_finally_page
    (try_catch_page
       (lift (set (setLoading true));;
        lift (set (setError None));;
        response ← call (PostSharePointConfigure config)
                      (λ sv, sharepoint_configure sv config);
        if negb (ok response) then
          lift (throw (httpFailure "SharePoint configuration failed" response))
        else
          result ← lift (json response);
          match result with
          | Succeeded r =>
              lift (set (updateSessionData (patchSharepointConfig r)));;
              lift (set (setCurrentStep (Number.whole 7)));;
              lift (log "SharePoint configured successfully!" (Some Success))
          | Failed err =>
              lift (throw (ErrorObject
                             (or_else err "SharePoint configuration failed")))
          end)
       (λ e, lift (reportError "SharePoint configuration failed" e)))
    (lift (set (setLoading false))).

(** [`http://localhost:8000/download/${fileId}/${targetSheet}`] *)
Definition downloadUrl (fileId targetSheet : string) : string :=
  "http://localhost:8000/download/" +:+ fileId +:+ "/" +:+ targetSheet.

Definition quickDownload : Task unit :=
  s0 ← lift get;
  let sessionData := sessionData s0 in
  if negb (truthy_object (lookupResult sessionData))
     || negb (truthy_string (fileId sessionData))
     || negb (truthy_string (targetSheet sessionData))
  then lift (throw (ErrorObject "No processed data available for download"))
  else
    windowOpen (downloadUrl (default String.EmptyString (fileId sessionData))
                  (default String.EmptyString (targetSheet sessionData)));;
    lift (log "Download initiated" (Some Info)).

(** [handleQuickDownload] of QuickActions. *)
Definition handleQuickDownload : Task unit :=
  try_catch_page quickDownload
    (λ e, lift (log (messageOf e "Quick download failed") (Some Error))).

(** ** Notions the properties are stated with *)

(** The API actions of [ETLStore], by name. *)
Inductive ApiAction :=
| PreviewSheets (masterSheet targetSheet : string)
| CleanData
| PerformLookup (lookupColumn : string)
| GenerateColumnInsights
| GenerateLookupInsights.

Definition runApi (a : ApiAction) : Act unit :=
  match a with
  | PreviewSheets m t => previewSheets m t
  | CleanData => cleanData
  | PerformLookup column => performLookup column
  | GenerateColumnInsights => generateColumnInsights
  | GenerateLookupInsights => generateLookupInsights
  end.

(** The request an API action sends first, and whose failure fails it. *)
Definition firstRequest (a : ApiAction) : Request :=
  match a with
  | PreviewSheets m t => PostPreviewSession m t
  | CleanData => PostCleanSession
  | PerformLookup column => PostLookupSession column
  | GenerateColumnInsights => PostColumnInsights
  | GenerateLookupInsights => PostLookupInsights
  end.

(** Whether the back end fails the first request of an API action. *)
Definition firstFails (be : Backend) (a : ApiAction) : bool :=
  match a with
  | PreviewSheets m t => stageFailed (preview_session be m t)
  | CleanData => stageFailed (clean_session be)
  | PerformLookup column => stageFailed (lookup_session be column)
  | GenerateColumnInsights => stageFailed (column_insights be)
  | GenerateLookupInsights => stageFailed (lookup_insights be)
  end.

(** The message a failed first request is reported with. *)
Definition firstFailure (be : Backend) (a : ApiAction) : string :=
  match a with
  | PreviewSheets m t =>
      failureMessage "Preview failed" (preview_session be m t)
  | CleanData => failureMessage "Cleaning failed" (clean_session be)
  | PerformLookup column =>
      failureMessage "Lookup failed" (lookup_session be column)
  | GenerateColumnInsights =>
      failureMessage "Column insights failed" (column_insights be)
  | GenerateLookupInsights =>
      failureMessage "Lookup insights failed" (lookup_insights be)
  end.

(** The columns of the lookup requests among [rs], in order. *)
Definition lookupColumns (rs : list Request) : list string :=
  omap (λ r, match r with
             | PostLookupSession column => Some column
             | _ => None
             end) rs.

(** The lookup columns an API action asks for. *)
Definition asked (a : ApiAction) : list string :=
  match a with
  | PerformLookup column => [column]
  | _ => []
  end.

(** The wizard shows a step the session has the outputs for. *)
Definition stepAllowed (s : ETLState) : Prop :=
  Number.leb (currentStep s) (Number.whole (getMaxAllowedStep s)) = true.

(** The cache of the session has nothing to serve the sheets of a preview
    with: no entry, or an entry holding a falsy value; it says nothing of
    the other actions. *)
Definition misses (s : ETLState) (a : ApiAction) : Prop :=
  match a with
  | PreviewSheets m t =>
      truthy (cacheRead (cache (sessionData s)) (cacheKey m t)) = false
  | _ => True
  end.

(** The store after the first stage of an API action succeeded: the patch
    merged, the step set, the success logged at clock reading [now]. *)
Definition afterSuccess (patch : SessionPatch) (step : option Z)
    (now msg : string) (s : ETLState) : ETLState :=
  let s1 := updateSessionData patch (setError None (setLoading true s)) in
  addLog now msg (Some Success)
    (match step with
     | Some n => setCurrentStep (Number.whole n) s1
     | None => s1
     end).

(** The store after [loadLookupColumns]. *)
Definition afterColumns (be : Backend) (s : ETLState) : ETLState :=
  match get_lookup_columns be with
  | FetchResponse r =>
      if ok r then
        match body r with
        | JsonValue (Succeeded columns) =>
            updateSessionData (patchAvailableColumns columns) s
        | _ => s
        end
      else s
  | FetchThrows _ => s
  end.

(** The world in which the first stage of an action has sent its request
    and left the store [s']. *)
Definition staged (w : World) (r : Request) (s' : ETLState) : World :=
  {| store := s'; sent := sent w ++ [r]; ticks := S (ticks w) |}.

(** The world after the [finally] block of an action that ran [w] to
    [w']. *)
Definition settled (w' : World) : World :=
  {| store := setLoading false (store w'); sent := sent w';
     ticks := ticks w' |}.

(** A back end that answers every request with success: previews with
    [previews], column lists with [columns], every other endpoint with the
    reply object [obj]. *)
Definition cooperative (previews : Any) (obj : ApiObject)
    (columns : list string) : Backend := {|
  preview_session := λ _ _, okReply previews;
  clean_session := okReply obj;
  column_insights := okReply obj;
  get_lookup_columns := okReply columns;
  lookup_session := λ _, okReply obj;
  lookup_insights := okReply obj;
  clock := λ _, "12:00:00";
  runtime := v8;
|}.

(** What an API action needs of the session to keep the wizard in order:
    the outputs of the stages before its own. *)
Definition stageReady (s : ETLState) (a : ApiAction) : Prop :=
  match a with
  | PreviewSheets _ _ => True
  | CleanData => (2 <= getMaxAllowedStep s)%Z
  | GenerateColumnInsights => (3 <= getMaxAllowedStep s)%Z
  | PerformLookup _ => (4 <= getMaxAllowedStep s)%Z
  | GenerateLookupInsights => (5 <= getMaxAllowedStep s)%Z
  end.

(** A sheet name without an underscore. *)
Fixpoint underscore_free (name : string) : bool :=
  match name with
  | String.EmptyString => true
  | String.String c rest =>
      negb (Ascii.eqb c "_"%char) && underscore_free rest
  end.

(** The three API actions that run on a page, by name. *)
Inductive PageAction :=
| UploadFile (file : File)
| ProcessUpdates
| ConfigureSharePoint (config : Any).

Definition runPage (a : PageAction) : Task unit :=
  match a with
  | UploadFile file => uploadFile file
  | ProcessUpdates => processUpdates
  | ConfigureSharePoint config => configureSharePoint config
  end.

(** The [lookup_column] that [processUpdates] sends. *)
Definition sentLookupColumn (d : SessionData) : option Any :=
  lookupResult d ≫= field "lookup_column".

(** The request of a page action, as the session [d] makes it. *)
Definition pageRequest (d : SessionData) (a : PageAction) : Event :=
  match a with
  | UploadFile file => PostUpload file
  | ProcessUpdates =>
      PostProcessUpdates (fileId d) (masterSheet d) (targetSheet d)
        (sentLookupColumn d)
  | ConfigureSharePoint config => PostSharePointConfigure config
  end.

(** Whether the services fail the request of a page action. *)
Definition pageFails (sv : Services) (d : SessionData) (a : PageAction) : bool :=
  match a with
  | UploadFile file => stageFailed (upload sv file)
  | ProcessUpdates =>
      stageFailed (process_updates sv (fileId d) (masterSheet d)
                     (targetSheet d) (sentLookupColumn d))
  | ConfigureSharePoint config => stageFailed (sharepoint_configure sv config)
  end.

(** The message a failed page action is reported with. *)
Definition pageFailure (sv : Services) (d : SessionData) (a : PageAction)
    : string :=
  match a with
  | UploadFile file => failureMessage "Upload failed" (upload sv file)
  | ProcessUpdates =>
      failureMessage "Update failed"
        (process_updates sv (fileId d) (masterSheet d) (targetSheet d)
           (sentLookupColumn d))
  | ConfigureSharePoint config =>
      failureMessage "SharePoint configuration failed"
        (sharepoint_configure sv config)
  end.

(** Services that cannot be reached. *)
Definition offline : Services := {|
  core := unreachable;
  upload := λ _, FetchThrows (ErrorObject "Failed to fetch");
  process_updates := λ _ _ _ _, FetchThrows (ErrorObject "Failed to fetch");
  sharepoint_configure := λ _, FetchThrows (ErrorObject "Failed to fetch");
|}.

(** Services that answer every request with success: an upload with the
    identifier [id] and the sheets [names], everything else as
    [cooperative] does. *)
Definition online (id : string) (names : list string) (obj : ApiObject)
    : Services := {|
  core := cooperative (JObj []) obj [];
  upload := λ _, okReply {| file_id := Some id; sheet_names := names |};
  process_updates := λ _ _ _ _, okReply obj;
  sharepoint_configure := λ _, okReply obj;
|}.

(** A page that has caused no event and read no clock yet. *)
Definition freshPage (s : ETLState) : Page :=
  {| state := s; events := []; readings := 0 |}.

(** Whether [quickDownload] finds what it needs: a lookup result, a file
    and a Target sheet. *)
Definition downloadable (d : SessionData) : bool :=
  truthy_object (lookupResult d)
  && truthy_string (fileId d)
  && truthy_string (targetSheet d).

(** The previews are an object holding an array of rows under the sheet
    name, as the declared type of previewData has it. *)
Definition holdsRows (previews : Any) (sheet : string) : Prop :=
  ∃ fields rows, previews = JObj fields ∧ own fields sheet = Some (JArr rows).

(** The back end answers with success every request an API action can
    send, a preview with rows for both sheets. *)
Definition fullySucceeds (be : Backend) (a : ApiAction) : Prop :=
  match a with
  | PreviewSheets m t =>
      ∃ r, succeeds (preview_session be m t) r
           ∧ holdsRows r m ∧ holdsRows r t
  | CleanData =>
      (∃ r, succeeds (clean_session be) r)
      ∧ ∃ r, succeeds (column_insights be) r
  | PerformLookup column =>
      (∃ r, succeeds (lookup_session be column) r)
      ∧ ∃ r, succeeds (lookup_insights be) r
  | GenerateColumnInsights => ∃ r, succeeds (column_insights be) r
  | GenerateLookupInsights => ∃ r, succeeds (lookup_insights be) r
  end.

(** The step a successful API action opens. *)
Definition unlocked (a : ApiAction) : Z :=
  match a with
  | PreviewSheets _ _ => 2
  | CleanData | GenerateColumnInsights => 4
  | PerformLookup _ | GenerateLookupInsights => 6
  end.

End ETLApp.

(** * Properties of the store *)

Module ETLStoreSpec.
Import ETLStore.
Local Close Scope string_scope.

(** ** Logs *)

Lemma slice_last_length {A} n (xs : list A) :
  length (slice_last n xs) = min n (length xs).
Proof. unfold slice_last. rewrite length_drop. lia. Qed.

Lemma slice_last_suffix {A} n (xs : list A) :
  slice_last n xs `suffix_of` xs.
Proof. apply suffix_drop. Qed.

Lemma slice_last_short {A} n (xs : list A) :
  length xs ≤ n → slice_last n xs = xs.
Proof.
  intros H. unfold slice_last.
  replace (length xs - n)%nat with 0%nat by lia. reflexivity.
Qed.

(** Cutting before appending does not change what a later cut keeps. *)
Lemma slice_last_app_inner {A} n (xs ys : list A) :
  ys ≠ [] →
  slice_last n (slice_last n xs ++ ys) = slice_last n (xs ++ ys).
Proof.
  intros Hys. unfold slice_last.
  assert (0 < length ys) by (destruct ys; [done | simpl; lia]).
  rewrite !length_app, length_drop.
  destruct (decide (length xs ≤ n)) as [Hle | Hgt].
  - replace (length xs - n)%nat with 0%nat by lia.
    rewrite drop_0. do 2 f_equal. lia.
  - rewrite !drop_app. rewrite drop_drop, length_drop.
    replace (length xs - n + (length xs - (length xs - n) + length ys - n))%nat
      with (length xs + length ys - n)%nat by lia.
    f_equal. f_equal. lia.
Qed.

Lemma slice_last_snoc_last {A} n (xs : list A) x :
  0 < n → last (slice_last n (xs ++ [x])) = Some x.
Proof.
  intros Hn. unfold slice_last. rewrite length_app. simpl.
  rewrite drop_app_le by lia. apply last_snoc.
Qed.

Lemma addLog_logs now msg lvl s :
  logs (sessionData (addLog now msg lvl s))
  = slice_last 50 (logs (sessionData s) ++ [entryOf now msg lvl]).
Proof. reflexivity. Qed.

Lemma addLogs_snoc calls c s :
  addLogs (calls ++ [c]) s = addLog c.1.1 c.1.2 c.2 (addLogs calls s).
Proof. unfold addLogs. by rewrite foldl_snoc. Qed.

Lemma addLogs_logs c calls s :
  logs (sessionData (addLogs (c :: calls) s))
  = slice_last 50 (logs (sessionData s) ++ map entryOfCall (c :: calls)).
Proof.
  revert c s. induction calls as [| c' calls IH] using rev_ind; intros c s.
  - reflexivity.
  - rewrite app_comm_cons, addLogs_snoc, addLog_logs, IH.
    rewrite slice_last_app_inner by done.
    rewrite <- app_assoc. rewrite map_app. reflexivity.
Qed.

(** C8: [addLog] appends one entry, carrying the message and the level
    (info when none is given), at the end of the logs and keeps the last 50
    entries; it touches nothing else.  Hence after any non-empty sequence
    of calls, and after any sequence at all from the initial state, the
    logs hold at most 50 entries, and they are the most recent ones in the
    order of arrival. *)
Theorem addLog_bounded_append now msg lvl s c calls :
  let before := logs (sessionData s) in
  let s' := addLog now msg lvl s in
  let after := logs (sessionData s') in
  let entry :=
    {| timestamp := now; message := msg;
       level := match lvl with Some l => l | None => Info end |} in
  (after = slice_last 50 (before ++ [entry])
   ∧ after `suffix_of` (before ++ [entry])
   ∧ last after = Some entry
   ∧ length after = min 50 (S (length before))
   ∧ length after ≤ 50)
  ∧ (currentStep s' = currentStep s ∧ isLoading s' = isLoading s
     ∧ error s' = error s ∧ sameButLogs (sessionData s) (sessionData s'))
  ∧ (let final := logs (sessionData (addLogs (c :: calls) s)) in
     final = slice_last 50 (before ++ map entryOfCall (c :: calls))
     ∧ final `suffix_of` (before ++ map entryOfCall (c :: calls))
     ∧ length final ≤ 50)
  ∧ (let final := logs (sessionData (addLogs calls initialState)) in
     final `suffix_of` map entryOfCall calls
     ∧ length final ≤ 50).
Proof.
  intros before s' after entry.
  assert (Hentry : entry = entryOf now msg lvl) by (by destruct lvl).
  assert (Hafter : after = slice_last 50 (before ++ [entry])).
  { subst after s'. rewrite addLog_logs. by rewrite Hentry. }
  split; [| split; [| split]].
  - rewrite Hafter. repeat split.
    + apply slice_last_suffix.
    + apply slice_last_snoc_last. lia.
    + rewrite slice_last_length, length_app. cbn [length]. lia.
    + rewrite slice_last_length. lia.
  - repeat split.
  - cbv zeta. rewrite addLogs_logs. repeat split.
    + apply slice_last_suffix.
    + rewrite slice_last_length. lia.
  - cbv zeta. destruct calls as [| c0 calls0].
    + simpl. split; [done | lia].
    + rewrite addLogs_logs. simpl logs. rewrite app_nil_l. split.
      * apply slice_last_suffix.
      * rewrite slice_last_length. lia.
Qed.

(** ** Reset *)

(** C6: whatever the store holds, [resetSession] leaves the initial state:
    step 0, not loading, no error, and the initial session data, with no
    file, no sheets, no stage output, empty logs and an empty cache. *)
Theorem resetSession_discards_session s :
  let s' := resetSession s in
  s' = initialState
  ∧ currentStep s' = Number.whole 0
  ∧ isLoading s' = false
  ∧ error s' = None
  ∧ sessionData s' = initialSessionData
  ∧ logs (sessionData s') = []
  ∧ cache (sessionData s') = ∅
  ∧ stageOutputs (sessionData s') = replicate 7 false
  ∧ sheetNames (sessionData s') = []
  ∧ resetSession s' = s'.
Proof. repeat split. Qed.

(** ** Numbers *)

(** The order of the numbers is transitive. *)
Lemma leb_trans x y z :
  Number.leb x y = true → Number.leb y z = true → Number.leb x z = true.
Proof.
  unfold Number.leb.
  destruct x as [[] | [] | | [] mx ex], y as [[] | [] | | [] my ey],
    z as [[] | [] | | [] mz ez]; cbn; try done;
    change (Pos.compare_cont Eq) with Pos.compare;
    destruct (Z.compare_spec ex ey), (Z.compare_spec ey ez),
      (Z.compare_spec ex ez); try done; try lia; subst;
    destruct (Pos.compare_spec mx my), (Pos.compare_spec my mz),
      (Pos.compare_spec mx mz); cbn; try done; lia.
Qed.

(** Case analysis on a whole number between 0 and 7. *)
Ltac wizard_step k :=
  let H := fresh in
  assert (H : (k = 0 ∨ k = 1 ∨ k = 2 ∨ k = 3 ∨ k = 4 ∨ k = 5 ∨ k = 6
               ∨ k = 7)%Z) by lia;
  destruct H as [-> | [-> | [-> | [-> | [-> | [-> | [-> | ->]]]]]]].

(** The whole numbers from 0 to 7 compare as the integers they stand
    for. *)
Lemma whole_compare k j :
  (0 <= k <= 7)%Z → (0 <= j <= 7)%Z →
  Number.leb (Number.whole k) (Number.whole j) = (k <=? j)%Z
  ∧ Number.ltb (Number.whole k) (Number.whole j) = (k <? j)%Z
  ∧ Number.geb (Number.whole k) (Number.whole j) = (j <=? k)%Z
  ∧ Number.gtb (Number.whole k) (Number.whole j) = (j <? k)%Z.
Proof.
  intros Hk Hj. wizard_step k; wizard_step j; vm_compute; done.
Qed.

(** From 0 to 7, adding and subtracting 1 is exact. *)
Lemma whole_step k :
  (0 <= k <= 7)%Z →
  Number.add (Number.whole k) (Number.whole 1) = Number.whole (k + 1)
  ∧ Number.sub (Number.whole k) (Number.whole 1) = Number.whole (k - 1).
Proof.
  intros Hk. wizard_step k; vm_compute; done.
Qed.

(** Numbers as the store computes and prints them: whole steps print as
    decimal numerals; a half added to 1 is 1.5; at 10^21 and at -2^54
    adding or subtracting 1 changes nothing, and 10^21 prints with an
    exponent. *)
Lemma number_examples :
  Number.toString (Number.whole 3) = "3"%string
  ∧ Number.toString (Number.add Number.half (Number.whole 1)) = "1.5"%string
  ∧ Number.toString (Number.whole (10 ^ 21)) = "1e+21"%string
  ∧ Number.sub (Number.whole (10 ^ 21)) (Number.whole 1)
    = Number.whole (10 ^ 21)
  ∧ Number.add (Number.whole (- 2 ^ 54)) (Number.whole 1)
    = Number.whole (- 2 ^ 54)
  ∧ Number.toString (Number.whole (- 2 ^ 54)) = "-18014398509481984"%string.
Proof. vm_compute. done. Qed.

(** Navigation far from the wizard's steps: at 10^21 [previousStep]
    subtracts 1 and stays at 10^21, which it logs with an exponent; at -2^54
    [nextStep] adds 1 and stays at -2^54. *)
Lemma navigation_examples :
  let far := setCurrentStep (Number.whole (10 ^ 21)) initialState in
  let low := setCurrentStep (Number.whole (- 2 ^ 54)) initialState in
  currentStep (previousStep "12:00:00" far) = Number.whole (10 ^ 21)
  ∧ message <$> logs (sessionData (previousStep "12:00:00" far))
    = ["Went back to step 1e+21"%string]
  ∧ currentStep (nextStep low) = Number.whole (- 2 ^ 54)
  ∧ message <$> logs (sessionData
                        (goToStep "12:00:00" Number.half
                           (uploaded "f1" ["Master"; "Target"]%string)))
    = ["Navigated to step 1.5"%string].
Proof. vm_compute. done. Qed.

(** ** Step navigation *)

Lemma getMaxAllowedStep_firstMissing s :
  getMaxAllowedStep s = Z.of_nat (firstMissing (stageOutputs (sessionData s))).
Proof.
  unfold getMaxAllowedStep, stageOutputs.
  destruct (truthy_string _); [| reflexivity].
  destruct (truthy _); [| reflexivity].
  repeat (destruct (truthy_object _); [| reflexivity]).
  reflexivity.
Qed.

Lemma firstMissing_le present : firstMissing present ≤ length present.
Proof.
  induction present as [| [] rest IH]; simpl; lia.
Qed.

(** Every position before the one [firstMissing] names holds a present
    output, and that position, when there is one, a missing output. *)
Lemma firstMissing_spec present :
  let i := firstMissing present in
  take i present = replicate i true
  ∧ present !! i = (if decide (i < length present) then Some false else None).
Proof.
  induction present as [| b rest [IH1 IH2]]; simpl.
  - done.
  - destruct b; simpl.
    + split; [by rewrite IH1 |].
      rewrite IH2. repeat case_decide; (done || lia).
    + split; [done |]. case_decide; (done || lia).
Qed.

Lemma getMaxAllowedStep_range s : (0 <= getMaxAllowedStep s <= 7)%Z.
Proof.
  rewrite getMaxAllowedStep_firstMissing.
  pose proof (firstMissing_le (stageOutputs (sessionData s))) as Hle.
  change (length (stageOutputs (sessionData s))) with 7 in Hle. lia.
Qed.

Lemma addLog_getMaxAllowedStep now msg lvl s :
  getMaxAllowedStep (addLog now msg lvl s) = getMaxAllowedStep s.
Proof. reflexivity. Qed.

(** C9, as the code has it: [getMaxAllowedStep] is the index of the first
    stage output the session lacks, in the order fileId, previewData,
    cleanResult, columnInsights, lookupResult, lookupInsights,
    updateResult, and 7 when none is lacking (an output is lacking when its
    field is falsy).  On every number, a fraction or NaN included,
    [goToStep] moves to [step] exactly when step >= 0 and step <=
    getMaxAllowedStep, [nextStep] adds 1 exactly when currentStep <
    getMaxAllowedStep, [previousStep] subtracts 1 exactly when currentStep >
    0; otherwise the step stays, and none of them changes
    getMaxAllowedStep.  [goToStep] never moves the step past
    getMaxAllowedStep.  When currentStep is a whole number from 0 to 7,
    [nextStep] and [previousStep] move it to the next and to the previous
    whole number, [nextStep] never past getMaxAllowedStep, and [goToStep]
    moves it to a whole number from 0 to 7 exactly when that number is at
    most getMaxAllowedStep. *)
Theorem step_navigation_guarded now step s :
  let maxStep := getMaxAllowedStep s in
  let present := stageOutputs (sessionData s) in
  (maxStep = Z.of_nat (firstMissing present)
   ∧ take (firstMissing present) present
     = replicate (firstMissing present) true
   ∧ present !! firstMissing present
     = (if decide (firstMissing present < 7) then Some false else None)
   ∧ (0 <= maxStep <= 7)%Z)
  ∧ (currentStep (goToStep now step s)
     = if Number.geb step (Number.whole 0)
          && Number.leb step (Number.whole maxStep)
       then step else currentStep s)
  ∧ (currentStep (nextStep s)
     = if Number.ltb (currentStep s) (Number.whole maxStep)
       then Number.add (currentStep s) (Number.whole 1) else currentStep s)
  ∧ (currentStep (previousStep now s)
     = if Number.gtb (currentStep s) (Number.whole 0)
       then Number.sub (currentStep s) (Number.whole 1) else currentStep s)
  ∧ (getMaxAllowedStep (goToStep now step s) = maxStep
     ∧ getMaxAllowedStep (nextStep s) = maxStep
     ∧ getMaxAllowedStep (previousStep now s) = maxStep)
  ∧ (currentStep (goToStep now step s) = currentStep s
     ∨ Number.leb (currentStep (goToStep now step s)) (Number.whole maxStep)
       = true)
  ∧ (∀ k, (0 <= k <= 7)%Z → currentStep s = Number.whole k →
     currentStep (nextStep s)
     = Number.whole (if decide (k < maxStep)%Z then k + 1 else k)
     ∧ currentStep (previousStep now s)
       = Number.whole (if decide (0 < k)%Z then k - 1 else k)
     ∧ ((if decide (k < maxStep)%Z then k + 1 else k) <= Z.max k maxStep)%Z
     ∧ ∀ j, (0 <= j <= 7)%Z →
         currentStep (goToStep now (Number.whole j) s)
         = Number.whole (if decide (j <= maxStep)%Z then j else k)).
Proof.
  intros maxStep present.
  assert (Hmax : maxStep = Z.of_nat (firstMissing present))
    by apply getMaxAllowedStep_firstMissing.
  pose proof (getMaxAllowedStep_range s) as Hrange. fold maxStep in Hrange.
  pose proof (firstMissing_spec present) as [Hbefore Hat].
  assert (Hgo : ∀ x,
            currentStep (goToStep now x s)
            = if Number.geb x (Number.whole 0)
                 && Number.leb x (Number.whole maxStep)
              then x else currentStep s).
  { intros x. unfold goToStep. fold maxStep.
    destruct (_ && _); reflexivity. }
  assert (Hnext : currentStep (nextStep s)
                  = if Number.ltb (currentStep s) (Number.whole maxStep)
                    then Number.add (currentStep s) (Number.whole 1)
                    else currentStep s).
  { unfold nextStep. fold maxStep. destruct (Number.ltb _ _); reflexivity. }
  assert (Hprev : currentStep (previousStep now s)
                  = if Number.gtb (currentStep s) (Number.whole 0)
                    then Number.sub (currentStep s) (Number.whole 1)
                    else currentStep s).
  { unfold previousStep. destruct (Number.gtb _ _); reflexivity. }
  split; [| split; [| split; [| split; [| split; [| split]]]]].
  - split; [exact Hmax |]. split; [exact Hbefore |].
    split; [exact Hat | exact Hrange].
  - apply Hgo.
  - exact Hnext.
  - exact Hprev.
  - repeat split.
    + unfold goToStep. destruct (_ && _); reflexivity.
    + unfold nextStep. destruct (Number.ltb _ _); reflexivity.
    + unfold previousStep. destruct (Number.gtb _ _); reflexivity.
  - rewrite Hgo.
    destruct (Number.geb step (Number.whole 0)); [| by left].
    destruct (Number.leb step (Number.whole maxStep)) eqn:Hle; [| by left].
    right. exact Hle.
  - intros k Hk Hcur. rewrite Hnext, Hprev, Hcur.
    destruct (whole_compare k maxStep Hk Hrange) as (_ & Hlt & _ & _).
    destruct (whole_compare k 0 Hk ltac:(lia)) as (_ & _ & _ & Hgt).
    destruct (whole_step k Hk) as [Hadd Hsub].
    rewrite Hlt, Hgt, Hadd, Hsub.
    split; [| split; [| split]].
    + destruct (decide (k < maxStep)%Z) as [Hin | Hout].
      * by replace (k <? maxStep)%Z with true by lia.
      * by replace (k <? maxStep)%Z with false by lia.
    + destruct (decide (0 < k)%Z) as [Hin | Hout].
      * by replace (0 <? k)%Z with true by lia.
      * by replace (0 <? k)%Z with false by lia.
    + destruct (decide (k < maxStep)%Z); lia.
    + intros j Hj. rewrite Hgo, Hcur.
      destruct (whole_compare j 0 Hj ltac:(lia)) as (_ & _ & Hge & _).
      destruct (whole_compare j maxStep Hj Hrange) as (Hle & _).
      rewrite Hge, Hle.
      replace (0 <=? j)%Z with true by lia. cbn [andb].
      destruct (decide (j <= maxStep)%Z) as [Hin | Hout].
      * by replace (j <=? maxStep)%Z with true by lia.
      * by replace (j <=? maxStep)%Z with false by lia.
Qed.

(** The navigation theorem on a fresh upload, where the preview is the
    first stage to do: from step 0 [nextStep] moves to step 1 and no
    further. *)
Lemma step_navigation_guarded_witness :
  let s := uploaded "f1" ["Master"; "Target"]%string in
  currentStep s = Number.whole 0
  ∧ getMaxAllowedStep s = 1%Z
  ∧ currentStep (nextStep s) = Number.whole 1
  ∧ currentStep (nextStep (nextStep s)) = Number.whole 1.
Proof.
  intros s.
  split; [reflexivity |]. split; [reflexivity |].
  destruct (step_navigation_guarded "12:00:00" (Number.whole 0) s)
    as (_ & _ & _ & _ & _ & _ & Hwhole).
  destruct (Hwhole 0%Z ltac:(lia) eq_refl) as (Hnext & _).
  destruct (step_navigation_guarded "12:00:00" (Number.whole 0) (nextStep s))
    as (_ & _ & _ & _ & _ & _ & Hwhole').
  destruct (Hwhole' 1%Z ltac:(lia) Hnext) as (Hnext' & _).
  split; [exact Hnext | exact Hnext'].
Defined.

(** C9, as stated, fails: the step is a number, and [goToStep] accepts a
    fraction.  On a fresh upload, where getMaxAllowedStep is 1,
    [goToStep(0.5)] is accepted, and [nextStep] then moves to step 1.5,
    past getMaxAllowedStep. *)
Lemma fractional_step_passes_maxStep :
  let s := goToStep "12:00:00" Number.half
             (uploaded "f1" ["Master"; "Target"]%string) in
  let s' := nextStep s in
  currentStep s = Number.half
  ∧ getMaxAllowedStep s = 1%Z
  ∧ getMaxAllowedStep s' = 1%Z
  ∧ currentStep s' = Number.add Number.half (Number.whole 1)
  ∧ Number.toString (currentStep s') = "1.5"%string
  ∧ Number.gtb (currentStep s') (Number.whole (getMaxAllowedStep s')) = true
  ∧ Number.leb (currentStep s') (Number.whole (getMaxAllowedStep s')) = false.
Proof. vm_compute. done. Qed.

(** ** Failed stages *)

(** Unfolds an action down to the primitive steps of the monad. *)
Ltac unfold_action :=
  cbv [runStage cleanData performLookup generateColumnInsights
       generateLookupInsights loadLookupColumns previewSheets quickPreview
       try_finally try_catch reportError httpFailure
       mbind mret Act_bind Act_ret get set log fetch json throw].

Ltac run_action :=
  unfold_action;
  cbv [stageAnswer stageRequest stageLabel stageFailed failureMessage
       ok status statusText body store sent ticks fst snd].

(** What a failed stage leaves behind: one request sent, one clock reading,
    and the store of [afterFailure]. *)
Lemma runStage_failed st be w :
  stageFailed (stageAnswer be st) = true →
  runStage st be w
  = (Normal tt,
     {| store := afterFailure (clock be (ticks w))
                   (failureMessage (stageLabel st) (stageAnswer be st))
                   (store w);
        sent := sent w ++ [stageRequest st];
        ticks := S (ticks w) |}).
Proof.
  destruct st as [| column]; run_action.
  - destruct (clean_session be) as [e | [[] code text [e | [r | err]]]];
      intros Hfail; try discriminate Hfail; reflexivity.
  - destruct (lookup_session be column)
      as [e | [[] code text [e | [r | err]]]];
      intros Hfail; try discriminate Hfail; reflexivity.
Qed.

(** C5, as the code has it: when [cleanData] or [performLookup] fails (the
    fetch throws, the response is not ok, its body cannot be read or its
    success flag is not set), the action still completes, having sent its
    one request; every stage output in sessionData, and every other field of
    sessionData but the logs, is as before, and so is currentStep.  What
    changes is [error], which holds the failure message, the logs, which
    gain that message as an error entry, and [isLoading], which is left
    false. *)
Theorem failed_stage_keeps_outputs st be w :
  stageFailed (stageAnswer be st) = true →
  let s := store w in
  let out := runStage st be w in
  let s' := store out.2 in
  let msg := failureMessage (stageLabel st) (stageAnswer be st) in
  out.1 = Normal tt
  ∧ sent out.2 = sent w ++ [stageRequest st]
  ∧ sameOutputs (sessionData s) (sessionData s')
  ∧ sameButLogs (sessionData s) (sessionData s')
  ∧ currentStep s' = currentStep s
  ∧ isLoading s' = false
  ∧ error s' = Some msg
  ∧ logs (sessionData s')
    = slice_last 50
        (logs (sessionData s)
         ++ [{| timestamp := clock be (ticks w); message := msg;
                level := Error |}]).
Proof.
  intros Hfail. cbv zeta. rewrite (runStage_failed st be w Hfail).
  repeat split.
Qed.

(** The failure theorem at a back end that cannot be reached. *)
Lemma failed_stage_keeps_outputs_witness :
  let w := freshWorld (setLoading true initialState) in
  let s' := store (runStage Clean unreachable w).2 in
  stageFailed (stageAnswer unreachable Clean) = true
  ∧ sameOutputs initialSessionData (sessionData s')
  ∧ error s' = Some "Failed to fetch"%string
  ∧ isLoading s' = false.
Proof.
  split; [reflexivity |].
  pose proof (failed_stage_keeps_outputs Clean unreachable
                (freshWorld (setLoading true initialState)) eq_refl) as H.
  cbv zeta in H. destruct H as (_ & _ & Hout & _ & _ & Hload & Herr & _).
  repeat split; assumption.
Defined.

(** C5, as stated, fails: a stage that fails while the store is loading
    leaves [isLoading] changed, from true to false, besides the error and
    the logs. *)
Lemma failed_stage_resets_isLoading :
  let s := setLoading true initialState in
  stageFailed (stageAnswer unreachable Clean) = true
  ∧ ¬ onlyErrorAndLogsChange s
        (store (runStage Clean unreachable (freshWorld s)).2).
Proof.
  split; [reflexivity |].
  intros (_ & Hloading & _). discriminate Hloading.
Qed.

(** ** The preview cache *)

(** A call that the cache can serve: nothing is sent. *)
Lemma previewSheets_hit be w m t :
  truthy (cacheRead (cache (sessionData (store w))) (cacheKey m t)) = true →
  previewSheets m t be w
  = (Normal tt,
     {| store :=
          setLoading false
            (addLog (clock be (ticks w))
               "Preview loaded from cache (instant!)" (Some Info)
               (updateSessionData
                  (patchPreview m t
                     (cacheRead (cache (sessionData (store w))) (cacheKey m t))
                     None)
                  (setError None (setLoading true (store w)))));
        sent := sent w;
        ticks := S (ticks w) |}).
Proof.
  intros Hhit. unfold_action. rewrite Hhit. reflexivity.
Qed.

(** A call that the cache cannot serve and the back end answers with
    success: the previews are stored, then the log entry is made, or the
    error thrown on the way to it reported. *)
Lemma previewSheets_stored be w m t previews :
  truthy (cacheRead (cache (sessionData (store w))) (cacheKey m t)) = false →
  succeeds (preview_session be m t) previews →
  previewSheets m t be w
  = (Normal tt,
     {| store :=
          setLoading false
            (previewReported (clock be (ticks w))
               (readyMessage (runtime be) m t previews)
               (updateSessionData
                  (patchPreview m t previews
                     (Some (<[cacheKey m t := previews]>
                              (cache (sessionData (store w))))))
                  (setError None (setLoading true (store w)))));
        sent := sent w ++ [PostPreviewSession m t];
        ticks := S (ticks w) |}).
Proof.
  intros Hmiss (code & text & Hreply).
  unfold_action. rewrite Hmiss, Hreply.
  cbv [eval readyMessage previewReported mbind mret Completion_bind
       Completion_ret ok body negb store sent ticks].
  destruct (previewRows (runtime be) previews m) as [masterRows | e];
    [| reflexivity].
  destruct (previewRows (runtime be) previews t) as [targetRows | e];
    [| reflexivity].
  destruct (toText (runtime be) masterRows) as [masterText | e];
    [| reflexivity].
  destruct (toText (runtime be) targetRows) as [targetText | e];
    reflexivity.
Qed.

(** A call that the cache cannot serve sends the one request and reads the
    clock once, whatever the back end answers. *)
Lemma previewSheets_miss be w m t :
  truthy (cacheRead (cache (sessionData (store w))) (cacheKey m t)) = false →
  ∃ s',
    previewSheets m t be w
    = (Normal tt,
       {| store := s'; sent := sent w ++ [PostPreviewSession m t];
          ticks := S (ticks w) |}).
Proof.
  intros Hmiss.
  destruct (preview_session be m t)
    as [e | [[] code text [e | [previews | err]]]] eqn:Hreply;
    try (eexists; unfold_action; rewrite Hmiss, Hreply; reflexivity).
  eexists. apply previewSheets_stored; [exact Hmiss |].
  exists code, text. exact Hreply.
Qed.

(** The row count of a sheet whose rows the previews hold is a number. *)
Lemma previewRows_array rt fields sheet rows :
  own fields sheet = Some (JArr rows) →
  ∃ x, previewRows rt (JObj fields) sheet = Normal (JNum x).
Proof.
  intros Hown. unfold previewRows. cbn [getProperty]. rewrite Hown.
  cbn [default from_option id].
  cbn [mbind mret Completion_bind Completion_ret nullish].
  change (getProperty rt (JArr rows) "length")
    with (Normal (A := Any) (JNum (Number.whole (Z.of_nat (length rows))))).
  cbn [mbind mret Completion_bind Completion_ret].
  destruct (truthy _); eexists; reflexivity.
Qed.

(** Previews that hold an array of rows for both sheets give a log
    entry. *)
Lemma readyMessage_rows rt m t fields rows_m rows_t :
  own fields m = Some (JArr rows_m) →
  own fields t = Some (JArr rows_t) →
  ∃ msg, readyMessage rt m t (JObj fields) = Normal msg.
Proof.
  intros Hm Ht. unfold readyMessage.
  destruct (previewRows_array rt fields m rows_m Hm) as [x ->].
  destruct (previewRows_array rt fields t rows_t Ht) as [y ->].
  eexists. reflexivity.
Qed.

(** Row counts as [previewSheets] reads them: the length of the array under
    the sheet name; 0 under a name the previews do not hold; through the
    prototype chain, the length 1 of the function Object under the name
    constructor.  Previews that are [undefined] throw a TypeError, and so
    does printing a row count that is an object with a toString entry. *)
Lemma readyMessage_examples :
  let previews :=
    JObj [("Master"%string, JArr [JNull; JNull]);
          ("Odd"%string, JObj [("length"%string,
                                JObj [("toString"%string, JNull)])])] in
  readyMessage v8 "Master" "Target" previews
  = Normal "Preview ready! Master: 2 rows, Target: 0 rows"%string
  ∧ readyMessage v8 "Master" "constructor" previews
    = Normal "Preview ready! Master: 2 rows, constructor: 1 rows"%string
  ∧ readyMessage v8 "Master" "Target" JUndefined
    = Abrupt (ErrorObject
                "Cannot read properties of undefined (reading 'Master')")
  ∧ readyMessage v8 "Master" "Odd" previews
    = Abrupt (ErrorObject "Cannot convert object to primitive value").
Proof. vm_compute. done. Qed.

(** C7, as the code has it: [previewSheets] caches by the key "preview_" +
    masterSheet + "_" + targetSheet, and the cache serves a call when it
    holds a truthy value under that key.  Then the call sends no request
    and sets masterSheet and targetSheet to its arguments and previewData to
    the cached value, leaving the cache as it is.  When the cache holds
    nothing or a falsy value under the key and the back end answers with
    success, the call sends the one preview request, sets the same three
    fields from the answer and stores the previews in the cache under the
    key, other keys untouched; the error is then empty unless reading
    the row counts of the previews or printing them throws, which is
    reported.  A later call with the same two sheet names, whatever the
    back end would answer then, sends nothing and yields the stored
    previews if they are truthy; if they are falsy it sends the request
    again. *)
Theorem previewSheets_cache be be' w m t :
  let key := cacheKey m t in
  let d := sessionData (store w) in
  let held := cacheRead (cache d) key in
  let out := previewSheets m t be w in
  let d' := sessionData (store out.2) in
  key = ("preview_" +:+ m +:+ "_" +:+ t)%string
  ∧ (truthy held = true →
       out.1 = Normal tt
       ∧ sent out.2 = sent w
       ∧ masterSheet d' = Some m ∧ targetSheet d' = Some t
       ∧ previewData d' = held
       ∧ cache d' = cache d)
  ∧ (∀ previews,
       truthy held = false →
       succeeds (preview_session be m t) previews →
       (out.1 = Normal tt
        ∧ sent out.2 = sent w ++ [PostPreviewSession m t]
        ∧ masterSheet d' = Some m ∧ targetSheet d' = Some t
        ∧ previewData d' = previews
        ∧ cache d' = <[key := previews]> (cache d)
        ∧ error (store out.2)
          = match readyMessage (runtime be) m t previews with
            | Normal _ => None
            | Abrupt e => Some (messageOf e "Preview failed")
            end)
       ∧ let again := previewSheets m t be' out.2 in
         let d'' := sessionData (store again.2) in
         again.1 = Normal tt
         ∧ (truthy previews = true →
            sent again.2 = sent out.2
            ∧ masterSheet d'' = Some m ∧ targetSheet d'' = Some t
            ∧ previewData d'' = previews
            ∧ cache d'' = cache d')
         ∧ (truthy previews = false →
            sent again.2 = sent out.2 ++ [PostPreviewSession m t])).
Proof.
  cbv zeta. split; [reflexivity |]. split.
  - intros Hhit. rewrite (previewSheets_hit be w m t Hhit).
    repeat split.
  - intros previews Hmiss Hreply.
    rewrite (previewSheets_stored be w m t previews Hmiss Hreply).
    cbn [fst snd].
    match goal with
    | |- context [previewSheets m t be' ?x] => set (w1 := x)
    end.
    assert (Hheld : cacheRead (cache (sessionData (store w1))) (cacheKey m t)
                    = previews).
    { subst w1. destruct (readyMessage _ _ _ _); unfold cacheRead;
        cbn [store sessionData setLoading previewReported addLog setError
             updateSessionData mergeSession cache spread patchPreview p_cache];
        by rewrite lookup_insert_eq. }
    split.
    + subst w1. destruct (readyMessage _ _ _ _); repeat split.
    + destruct (truthy previews) eqn:Htruthy.
      * rewrite (previewSheets_hit be' w1 m t) by (by rewrite Hheld).
        rewrite Hheld. split; [reflexivity |].
        split; [| intros Hfalse; discriminate Hfalse].
        intros _. subst w1. destruct (readyMessage _ _ _ _); repeat split.
      * destruct (previewSheets_miss be' w1 m t) as [s' ->];
          [by rewrite Hheld |].
        split; [reflexivity |].
        split; [intros Htrue; discriminate Htrue |].
        intros _. reflexivity.
Qed.

(** The cache theorem on a fresh upload: the first preview of two sheets is
    fetched and cached, the second is served from the cache. *)
Lemma previewSheets_cache_witness :
  let previews :=
    JObj [("Master"%string, JArr [JNull]); ("Target"%string, JArr [])] in
  let be := previewing previews in
  let w := freshWorld (uploaded "f1" ["Master"; "Target"]%string) in
  let out := previewSheets "Master" "Target" be w in
  let again := previewSheets "Master" "Target" unreachable out.2 in
  truthy (cacheRead (cache (sessionData (store w)))
            (cacheKey "Master" "Target")) = false
  ∧ succeeds (preview_session be "Master" "Target") previews
  ∧ truthy previews = true
  ∧ sent out.2 = sent w ++ [PostPreviewSession "Master" "Target"]
  ∧ sent again.2 = sent out.2
  ∧ previewData (sessionData (store again.2)) = previews.
Proof.
  intros previews be w out again.
  assert (Hmiss : truthy (cacheRead (cache (sessionData (store w)))
                            (cacheKey "Master" "Target")) = false)
    by reflexivity.
  assert (Hreply : succeeds (preview_session be "Master" "Target") previews)
    by (exists 200%Z, "OK"%string; reflexivity).
  destruct (previewSheets_cache be unreachable w "Master" "Target")
    as (_ & _ & Hfetch).
  destruct (Hfetch previews Hmiss Hreply)
    as ((_ & Hsent & _) & (_ & Hserved & _)).
  destruct (Hserved eq_refl) as (Hsame & _ & _ & Hdata & _).
  split; [exact Hmiss |]. split; [exact Hreply |].
  split; [reflexivity |].
  split; [exact Hsent |]. split; [exact Hsame | exact Hdata].
Defined.

(** C7, as stated, fails: a key that is present in the cache does not keep
    the call from the back end when the value under it is falsy, and a
    successful call does not make the next one a hit.  A reply with its
    success flag set and no previews leaves [undefined] under the key and,
    the row counts being read from it, a TypeError as the error; the next
    call with the same two sheet names sends the request again. *)
Lemma previewSheets_refetches_falsy_entry :
  let be := previewing JUndefined in
  let w := freshWorld (uploaded "f1" ["Master"; "Target"]%string) in
  let out := previewSheets "Master" "Target" be w in
  let again := previewSheets "Master" "Target" be out.2 in
  succeeds (preview_session be "Master" "Target") JUndefined
  ∧ cache (sessionData (store out.2)) !! cacheKey "Master" "Target"
    = Some JUndefined
  ∧ error (store out.2)
    = Some "Cannot read properties of undefined (reading 'Master')"%string
  ∧ sent out.2 = [PostPreviewSession "Master" "Target"]
  ∧ sent again.2
    = [PostPreviewSession "Master" "Target";
       PostPreviewSession "Master" "Target"].
Proof.
  split; [exists 200%Z, "OK"%string; reflexivity |].
  vm_compute. done.
Qed.

(** ** Quick preview *)

(** C10, as the code has it: when fileId is null or the empty string, or
    fewer than two sheet names are loaded, [quickPreview] throws the error
    'Need at least 2 sheets for quick preview' and leaves the store, and the
    world around it, as they are; otherwise it is the call of
    [previewSheets] on the first and the second sheet name, in that
    order. *)
Theorem quickPreview_guard be w :
  let d := sessionData (store w) in
  (fileId d = None ∨ fileId d = Some String.EmptyString ∨ length (sheetNames d) < 2 →
   quickPreview be w
   = (Abrupt (ErrorObject "Need at least 2 sheets for quick preview"), w))
  ∧ (∀ id, fileId d = Some id → id ≠ String.EmptyString →
     2 ≤ length (sheetNames d) →
     ∃ m t rest,
       sheetNames d = m :: t :: rest
       ∧ quickPreview be w = previewSheets m t be w).
Proof.
  cbv zeta. split.
  - intros Hguard. unfold quickPreview.
    cbv [mbind Act_bind get throw].
    destruct Hguard as [-> | [-> | Hfew]]; try reflexivity.
    replace (length (sheetNames (sessionData (store w))) <? 2) with true
      by (symmetry; apply Nat.ltb_lt; exact Hfew).
    rewrite orb_true_r. reflexivity.
  - intros id Hid Hne Hlen.
    destruct (sheetNames (sessionData (store w))) as [| m [| t rest]] eqn:Hnames;
      simpl in Hlen; try lia.
    exists m, t, rest. split; [reflexivity |].
    unfold quickPreview. cbv [mbind Act_bind get].
    rewrite Hid, Hnames. cbn [truthy_string].
    apply String.eqb_neq in Hne. rewrite Hne. reflexivity.
Qed.

(** The guard theorem on an upload of two sheets. *)
Lemma quickPreview_guard_witness :
  let w := freshWorld (uploaded "f1" ["Master"; "Target"]%string) in
  fileId (sessionData (store w)) = Some "f1"%string
  ∧ 2 ≤ length (sheetNames (sessionData (store w)))
  ∧ ∃ m t rest,
      sheetNames (sessionData (store w)) = m :: t :: rest
      ∧ quickPreview unreachable w = previewSheets m t unreachable w.
Proof.
  intros w.
  split; [reflexivity |]. split; [simpl; lia |].
  apply (proj2 (quickPreview_guard unreachable w) "f1"%string).
  - reflexivity.
  - discriminate.
  - simpl; lia.
Defined.

(** C10, as stated, fails: with an empty-string fileId, which is not null,
    and two sheets loaded, [quickPreview] throws instead of calling
    [previewSheets]. *)
Lemma quickPreview_empty_fileId_throws :
  let w := freshWorld (uploaded String.EmptyString ["Master"; "Target"]%string) in
  fileId (sessionData (store w)) ≠ None
  ∧ ¬ length (sheetNames (sessionData (store w))) < 2
  ∧ quickPreview unreachable w
    = (Abrupt (ErrorObject "Need at least 2 sheets for quick preview"), w)
  ∧ quickPreview unreachable w
    ≠ previewSheets "Master" "Target" unreachable w.
Proof.
  intros w. split; [discriminate |]. split; [simpl; lia |].
  split; [reflexivity |]. vm_compute. discriminate.
Qed.

End ETLStoreSpec.

(** * Properties of the engine *)

Module EngineSpec.
Import Engine.
Local Close Scope string_scope.

(** ** Summary counts *)

Lemma count_status_cons p r rs :
  count_status p (r :: rs)
  = (if p (status r) then 1 else 0) + count_status p rs.
Proof.
  unfold count_status. rewrite filter_cons.
  destruct (p (status r)); case_decide; (done || congruence).
Qed.

Lemma count_status_filter (p : Status → bool) (P : LookupResult → Prop)
    `{!∀ r, Decision (P r)} rs :
  (∀ r, p (status r) = true ↔ P r) →
  count_status p rs = length (filter P rs).
Proof.
  intros Hp. unfold count_status.
  induction rs as [| r rs IH]; [done |].
  rewrite !filter_cons.
  destruct (decide (p (status r) = true)) as [Ht | Hf];
    destruct (decide (P r)) as [HP | HnP]; simpl.
  - by rewrite IH.
  - apply Hp in Ht. contradiction.
  - apply Hp in HP. contradiction.
  - exact IH.
Qed.

Lemma count_partition rs :
  count_status is_match rs + count_status is_not_found rs = length rs.
Proof.
  induction rs as [| r rs IH]; [done |].
  rewrite !count_status_cons. simpl length.
  destruct (status r); simpl; lia.
Qed.

Lemma count_match_le rs : count_status is_match rs ≤ length rs.
Proof. pose proof (count_partition rs). lia. Qed.

(** C1: for every list of LookupResult rows, the summary has
    successful_matches + failed_matches = total_records, where total_records
    is the number of rows, successful_matches the number of rows whose
    status is D, 0 or X, and failed_matches the number of rows whose status
    is NOT_FOUND. *)
Theorem summary_counts_partition rs :
  let s := summarize rs in
  successful_matches s + failed_matches s = total_records s
  ∧ total_records s = length rs
  ∧ successful_matches s
    = length (filter (λ r, status r ∈ [D; Zero; X]) rs)
  ∧ failed_matches s
    = length (filter (λ r, status r = NOT_FOUND) rs).
Proof.
  cbv zeta. cbn [summarize successful_matches failed_matches total_records].
  split; [apply count_partition |]. split; [reflexivity |]. split.
  - apply count_status_filter.
    intros r. rewrite !elem_of_cons, elem_of_nil.
    destruct (status r); simpl; intuition congruence.
  - apply count_status_filter.
    intros r. destruct (status r); simpl; naive_solver.
Qed.

(** ** Match rate *)

Local Open Scope Q_scope.

Lemma round1_tenths q :
  (round1 q == inject_Z (Qfloor (q * 10 + (1 # 2))) / 10)%Q.
Proof. unfold round1. apply Qmake_Qdiv. Qed.

(** Rounding to one decimal moves a number by at most a half tenth. *)
Lemma round1_near q : (Qabs (round1 q - q) <= 1 # 20)%Q.
Proof.
  rewrite round1_tenths.
  pose proof (Qfloor_le (q * 10 + (1 # 2))) as Hlo.
  pose proof (Qlt_floor (q * 10 + (1 # 2))) as Hhi.
  rewrite inject_Z_plus in Hhi.
  set (f := inject_Z (Qfloor (q * 10 + (1 # 2)))) in *.
  change (inject_Z 1) with 1%Q in Hhi.
  apply Qabs_Qle_condition.
  assert (Hdiv : f / 10 == f * (1 # 10)) by (field; discriminate).
  rewrite Hdiv. split; lra.
Qed.

Lemma round1_bounds q : (0 <= q <= 100)%Q → (0 <= round1 q <= 100)%Q.
Proof.
  intros [Hlo Hhi]. rewrite round1_tenths.
  assert (H0 : (0 <= Qfloor (q * 10 + (1 # 2)))%Z).
  { change 0%Z with (Qfloor 0). apply Qfloor_resp_le. lra. }
  assert (H1 : (Qfloor (q * 10 + (1 # 2)) <= 1000)%Z).
  { change 1000%Z with (Qfloor (1000 + (1 # 2))). apply Qfloor_resp_le. lra. }
  set (f := Qfloor (q * 10 + (1 # 2))) in *.
  assert (Hf0 : 0 <= inject_Z f) by (change 0 with (inject_Z 0); by rewrite <- Zle_Qle).
  assert (Hf1 : inject_Z f <= 1000)
    by (change 1000 with (inject_Z 1000); by rewrite <- Zle_Qle).
  assert (Hdiv : inject_Z f / 10 == inject_Z f * (1 # 10))
    by (field; discriminate).
  rewrite Hdiv. split; lra.
Qed.

(** The exact rate of a summary, before rounding. *)
Lemma exact_rate_bounds (m n : nat) :
  (m ≤ n)%nat → (0 < n)%nat →
  (0 <= Q_of_nat m / Q_of_nat n * 100 <= 100)%Q.
Proof.
  intros Hmn Hn. unfold Q_of_nat.
  assert (Hn' : 0 < inject_Z (Z.of_nat n)).
  { change 0 with (inject_Z 0). rewrite <- Zlt_Qlt. lia. }
  assert (Hm' : 0 <= inject_Z (Z.of_nat m)).
  { change 0 with (inject_Z 0). rewrite <- Zle_Qle. lia. }
  assert (Hle : inject_Z (Z.of_nat m) <= inject_Z (Z.of_nat n)).
  { rewrite <- Zle_Qle. lia. }
  assert (H0 : 0 <= inject_Z (Z.of_nat m) / inject_Z (Z.of_nat n)).
  { apply Qle_shift_div_l; [done | lra]. }
  assert (H1 : inject_Z (Z.of_nat m) / inject_Z (Z.of_nat n) <= 1).
  { apply Qle_shift_div_r; [done | lra]. }
  split; lra.
Qed.

Local Close Scope Q_scope.

(** C2: for every list of LookupResult rows the aggregator is given,
    match_rate lies between 0 and 100.  With no record it is 0, by the
    guard that keeps the division from being evaluated; with records it is
    successful_matches / total_records * 100 rounded to one decimal: a
    whole number of tenths, at most a half tenth away from the exact
    quotient. *)
Theorem match_rate_bounds rs :
  let s := summarize rs in
  let exact :=
    (Q_of_nat (successful_matches s) / Q_of_nat (total_records s) * 100)%Q in
  (0 <= match_rate s <= 100)%Q
  ∧ (total_records s = 0 → match_rate s = 0%Q)
  ∧ (0 < total_records s →
     match_rate s = round1 exact
     ∧ (∃ tenths : Z, match_rate s = (tenths # 10)%Q)
     ∧ (Qabs (match_rate s - exact) <= 1 # 20)%Q).
Proof.
  cbv zeta. unfold match_rate. simpl total_records. simpl successful_matches.
  destruct (length rs) as [| n] eqn:Hlen; simpl Nat.eqb; cbv iota.
  - split; [split; lra |]. split; [done | lia].
  - pose proof (count_match_le rs) as Hle. rewrite Hlen in Hle.
    split; [| split; [done |]].
    + apply round1_bounds. apply exact_rate_bounds; lia.
    + intros _. split; [reflexivity |]. split; [by eexists |].
      apply round1_near.
Qed.

(** The match-rate theorem on the three results of a lookup, two of them
    matched. *)
Lemma match_rate_bounds_witness :
  let rs := [ {| fields := ∅; status := D; matched := None |};
              {| fields := ∅; status := X; matched := None |};
              {| fields := ∅; status := NOT_FOUND; matched := None |} ] in
  0 < total_records (summarize rs)
  ∧ match_rate (summarize rs) = (667 # 10)%Q
  ∧ (Qabs (match_rate (summarize rs) - Q_of_nat 2 / Q_of_nat 3 * 100)
     <= 1 # 20)%Q.
Proof.
  intros rs.
  assert (Hpos : 0 < total_records (summarize rs)) by (simpl; lia).
  destruct (match_rate_bounds rs) as (_ & _ & Hrate).
  destruct (Hrate Hpos) as (_ & _ & Hnear).
  split; [exact Hpos |]. split; [reflexivity | exact Hnear].
Defined.

(** ** Null and empty keys *)

Lemma lookup_defined rule master target keyColumn :
  keyColumn ∈ columns master → keyColumn ∈ columns target →
  lookup rule master target keyColumn
  = inr (resolve rule (build_index keyColumn (rows master)).1 keyColumn
           <$> rows target,
         (build_index keyColumn (rows master)).2).
Proof.
  intros Hm Ht. unfold lookup.
  rewrite !bool_decide_eq_true_2 by assumption. simpl.
  by destruct (build_index keyColumn (rows master)).
Qed.

Lemma resolve_no_key rule index keyColumn t :
  normalized_key (cell keyColumn t) = None →
  resolve rule index keyColumn t
  = {| fields := t; status := NOT_FOUND; matched := None |}.
Proof. intros Hkey. unfold resolve. by rewrite Hkey. Qed.

(** C4: when the key column is in both tables, so that the lookup is
    performed, every Target row whose key cell is null or the empty string
    gets the status NOT_FOUND, and no matched row, whatever the Master table
    holds. *)
Theorem null_key_not_found rule master target keyColumn i t :
  keyColumn ∈ columns master →
  keyColumn ∈ columns target →
  rows target !! i = Some t →
  cell keyColumn t = SNull ∨ cell keyColumn t = SStr String.EmptyString →
  ∃ rs ws r,
    lookup rule master target keyColumn = inr (rs, ws)
    ∧ rs !! i = Some r
    ∧ status r = NOT_FOUND
    ∧ matched r = None
    ∧ fields r = t.
Proof.
  intros Hm Ht Hrow Hkey.
  eexists _, _, _. split; [by apply lookup_defined |].
  split.
  - rewrite list_lookup_fmap, Hrow. reflexivity.
  - rewrite resolve_no_key; [done |].
    by destruct Hkey as [-> | ->].
Qed.

(** The null-key theorem on the Master table of scenario 1 and a Target
    table with one row without a key. *)
Lemma null_key_not_found_witness :
  let target := {| columns := ["part"%string];
                   rows := [ {[ "part"%string := SNull ]} ] |} in
  let t : Row := {[ "part"%string := SNull ]} in
  rows target !! 0 = Some t
  ∧ cell "part" t = SNull
  ∧ ∃ rs ws r,
      lookup scenario_rule scenario_master target "part" = inr (rs, ws)
      ∧ rs !! 0 = Some r
      ∧ status r = NOT_FOUND
      ∧ matched r = None
      ∧ fields r = t.
Proof.
  intros target t. split; [reflexivity |]. split; [reflexivity |].
  apply null_key_not_found.
  - constructor.
  - constructor.
  - reflexivity.
  - left. reflexivity.
Defined.

(** ** Key normalization *)

Lemma to_lower_idemp c : to_lower (to_lower c) = to_lower c.
Proof. by destruct c as [[] [] [] [] [] [] [] []]. Qed.

Lemma is_space_to_lower c : is_space (to_lower c) = is_space c.
Proof. by destruct c as [[] [] [] [] [] [] [] []]. Qed.

Lemma same_letter_to_lower c d : same_letter c d → to_lower c = to_lower d.
Proof.
  intros [-> | [[_ ->] | [_ ->]]]; by rewrite ?to_lower_idemp.
Qed.

Lemma same_letter_is_space c d : same_letter c d → is_space c = is_space d.
Proof.
  intros [-> | [[_ ->] | [_ ->]]]; by rewrite ?is_space_to_lower.
Qed.

Lemma same_letters_to_lower cs ds :
  Forall2 same_letter cs ds → map to_lower cs = map to_lower ds.
Proof.
  induction 1 as [| c d cs ds Hcd _ IH]; [done |].
  simpl. by rewrite (same_letter_to_lower c d Hcd), IH.
Qed.

Lemma same_letters_drop_spaces cs ds :
  Forall2 same_letter cs ds →
  Forall2 same_letter (drop_spaces cs) (drop_spaces ds).
Proof.
  induction 1 as [| c d cs ds Hcd Hrest IH]; [constructor |].
  simpl. rewrite <- (same_letter_is_space c d Hcd).
  destruct (is_space c); [exact IH | by constructor].
Qed.

Lemma same_letters_trim cs ds :
  Forall2 same_letter cs ds → Forall2 same_letter (trim cs) (trim ds).
Proof.
  intros H. unfold trim.
  by apply Forall2_reverse, same_letters_drop_spaces, Forall2_reverse,
    same_letters_drop_spaces.
Qed.

Lemma blank_app xs ys : blank xs → blank ys → blank (xs ++ ys).
Proof.
  unfold blank. intros Hx Hy. rewrite forallb_app, Hx, Hy. reflexivity.
Qed.

Lemma blank_reverse xs : blank xs → blank (reverse xs).
Proof.
  induction xs as [| x xs IH]; [done |].
  unfold blank in *. simpl. intros [Hx Hxs]%andb_prop.
  rewrite reverse_cons, forallb_app. simpl. by rewrite IH, Hx.
Qed.

Lemma drop_spaces_blank xs : blank xs → drop_spaces xs = [].
Proof.
  induction xs as [| x xs IH]; [done |].
  unfold blank in *. simpl. intros [-> Hxs]%andb_prop. by apply IH.
Qed.

Lemma drop_spaces_blank_app xs ys :
  blank xs → drop_spaces (xs ++ ys) = drop_spaces ys.
Proof.
  induction xs as [| x xs IH]; [done |].
  unfold blank in *. simpl. intros [-> Hxs]%andb_prop. by apply IH.
Qed.

Lemma drop_spaces_nil_blank xs : drop_spaces xs = [] → blank xs.
Proof.
  induction xs as [| x xs IH]; [done |].
  unfold blank in *. simpl.
  destruct (is_space x); [exact IH | discriminate].
Qed.

Lemma drop_spaces_app_cons xs ys z zs :
  drop_spaces xs = z :: zs → drop_spaces (xs ++ ys) = (z :: zs) ++ ys.
Proof.
  induction xs as [| x xs IH]; [discriminate |].
  simpl. destruct (is_space x); [exact IH |].
  intros [= <- <-]. reflexivity.
Qed.

(** Blanks around a text do not survive trimming. *)
Lemma trim_padding ls cs rs :
  blank ls → blank rs → trim (ls ++ cs ++ rs) = trim cs.
Proof.
  intros Hl Hr. unfold trim. rewrite drop_spaces_blank_app by assumption.
  destruct (drop_spaces cs) as [| z zs] eqn:Hcs.
  - rewrite drop_spaces_blank_app by by apply drop_spaces_nil_blank.
    by rewrite (drop_spaces_blank rs).
  - rewrite (drop_spaces_app_cons cs rs z zs Hcs).
    rewrite reverse_app.
    by rewrite drop_spaces_blank_app by by apply blank_reverse.
Qed.

Lemma text_variant_normalize a b :
  text_variant a b → normalize a = normalize b.
Proof.
  intros (la & ca & ra & lb & cb & rb & Ha & Hb & Hla & Hra & Hlb & Hrb & Hc).
  unfold normalize. rewrite Ha, Hb. f_equal.
  rewrite !trim_padding by assumption.
  by apply same_letters_to_lower, same_letters_trim.
Qed.

Lemma cell_variant_key v w :
  cell_variant v w → normalized_key v = normalized_key w.
Proof.
  intros [-> | (a & b & -> & -> & Hab)]; [done |].
  unfold normalized_key. simpl.
  by rewrite (text_variant_normalize a b Hab).
Qed.

(** ** The index and the lookup under key variants *)

Lemma index_row_related rule keyColumn acc1 acc2 r1 r2 :
  index_related rule acc1 acc2 →
  master_variant rule keyColumn r1 r2 →
  index_related rule (index_row keyColumn acc1 r1)
                     (index_row keyColumn acc2 r2).
Proof.
  intros [Hmaps Hwarn] [Hkey Hstatus]. unfold index_row.
  rewrite (cell_variant_key _ _ Hkey).
  destruct (normalized_key (cell keyColumn r2)) as [k |]; [| by split].
  destruct (Hmaps k) as [m1 m2 Hm |].
  - split; [exact Hmaps | simpl; by rewrite Hwarn].
  - split; [| exact Hwarn]. intros k'. simpl.
    rewrite !lookup_insert. case_decide; [by constructor | apply Hmaps].
Qed.

Lemma foldl_index_related rule keyColumn rows1 rows2 :
  Forall2 (master_variant rule keyColumn) rows1 rows2 →
  ∀ acc1 acc2,
    index_related rule acc1 acc2 →
    index_related rule (foldl (index_row keyColumn) acc1 rows1)
                       (foldl (index_row keyColumn) acc2 rows2).
Proof.
  induction 1 as [| r1 r2 rows1 rows2 Hr _ IH]; intros acc1 acc2 Hacc.
  - exact Hacc.
  - simpl. apply IH. by apply index_row_related.
Qed.

Lemma build_index_related rule keyColumn rows1 rows2 :
  Forall2 (master_variant rule keyColumn) rows1 rows2 →
  index_related rule (build_index keyColumn rows1)
                     (build_index keyColumn rows2).
Proof.
  intros H. apply foldl_index_related; [exact H |].
  split; [| done]. intros k. cbn [fst]. rewrite lookup_empty. constructor.
Qed.

Lemma resolve_related rule keyColumn acc1 acc2 t1 t2 :
  index_related rule acc1 acc2 →
  target_variant keyColumn t1 t2 →
  status (resolve rule acc1.1 keyColumn t1)
  = status (resolve rule acc2.1 keyColumn t2).
Proof.
  intros [Hmaps _] Hkey. unfold resolve.
  rewrite (cell_variant_key _ _ Hkey).
  destruct (normalized_key (cell keyColumn t2)) as [k |]; [| done].
  destruct (Hmaps k) as [m1 m2 Hm |]; [| done].
  simpl. unfold master_status. by rewrite Hm.
Qed.

(** The first row indexed under a key stays. *)
Lemma foldl_index_keeps keyColumn rows acc k r :
  acc.1 !! k = Some r →
  (foldl (index_row keyColumn) acc rows).1 !! k = Some r.
Proof.
  revert acc. induction rows as [| r' rows IH]; intros acc Hacc; [done |].
  simpl. apply IH. unfold index_row.
  destruct (normalized_key (cell keyColumn r')) as [k' |]; [| done].
  destruct (acc.1 !! k') eqn:Hk'; [done |].
  simpl. rewrite lookup_insert_ne; [done |]. congruence.
Qed.

(** A recorded warning stays. *)
Lemma foldl_index_warns keyColumn rows acc w :
  w ∈ acc.2 → w ∈ (foldl (index_row keyColumn) acc rows).2.
Proof.
  revert acc. induction rows as [| r' rows IH]; intros acc Hacc; [done |].
  simpl. apply IH. unfold index_row.
  destruct (normalized_key (cell keyColumn r')) as [k' |]; [| done].
  destruct (acc.1 !! k'); [| done].
  simpl. apply elem_of_app. by left.
Qed.

Lemma duplicate_key_first_wins keyColumn r1 r2 rest k :
  normalized_key (cell keyColumn r1) = Some k →
  cell_variant (cell keyColumn r1) (cell keyColumn r2) →
  (build_index keyColumn (r1 :: r2 :: rest)).1 !! k = Some r1
  ∧ DuplicateKeyWarning k ∈ (build_index keyColumn (r1 :: r2 :: rest)).2.
Proof.
  intros Hk1 Hvar.
  assert (Hk2 : normalized_key (cell keyColumn r2) = Some k)
    by (by rewrite <- (cell_variant_key _ _ Hvar)).
  unfold build_index. simpl foldl.
  assert (Hfirst : index_row keyColumn (∅, []) r1 = ({[ k := r1 ]}, [])).
  { unfold index_row. rewrite Hk1. simpl. by rewrite lookup_empty. }
  assert (Hsecond : index_row keyColumn ({[ k := r1 ]}, []) r2
                    = ({[ k := r1 ]}, [DuplicateKeyWarning k])).
  { unfold index_row. rewrite Hk2. simpl. by rewrite lookup_singleton_eq. }
  rewrite Hfirst, Hsecond. split.
  - apply foldl_index_keeps. simpl. apply lookup_singleton_eq.
  - apply foldl_index_warns. simpl. apply list_elem_of_here.
Qed.

Lemma lookup_statuses_related rule keyColumn master1 master2 target1 target2 :
  columns master1 = columns master2 →
  columns target1 = columns target2 →
  Forall2 (master_variant rule keyColumn) (rows master1) (rows master2) →
  Forall2 (target_variant keyColumn) (rows target1) (rows target2) →
  statuses (lookup rule master1 target1 keyColumn)
  = statuses (lookup rule master2 target2 keyColumn).
Proof.
  intros Hcm Hct Hm Ht. unfold lookup. rewrite Hcm, Hct.
  destruct (_ && _); [| done].
  pose proof (build_index_related rule keyColumn _ _ Hm) as Hrel.
  destruct (build_index keyColumn (rows master1)) as [index1 warn1].
  destruct (build_index keyColumn (rows master2)) as [index2 warn2].
  simpl. f_equal.
  induction Ht as [| t1 t2 ts1 ts2 Hkey _ IH]; [done |].
  simpl. f_equal; [| exact IH].
  exact (resolve_related rule keyColumn (index1, warn1) (index2, warn2)
           t1 t2 Hrel Hkey).
Qed.

(** C3: the lookup does not tell key values apart that differ only by
    leading or trailing whitespace or by letter case.  Such values
    normalize to the same key; replacing key values by such variants, in
    Master rows and in Target rows alike, leaves the statuses of the lookup
    unchanged; and of two Master rows whose keys are such variants, the
    first is the one indexed and the second is recorded as a duplicate.  In
    scenario 1 (Master keys A1, A2 with statuses D, X; Target keys a1 with
    a trailing blank, A2 with a leading blank, and A3) the statuses are D,
    X, NOT_FOUND and the match rate is 66.7. *)
Theorem lookup_key_normalization :
  (∀ a b, text_variant a b → normalize a = normalize b)
  ∧ (∀ rule keyColumn master1 master2 target1 target2,
       columns master1 = columns master2 →
       columns target1 = columns target2 →
       Forall2 (master_variant rule keyColumn) (rows master1) (rows master2) →
       Forall2 (target_variant keyColumn) (rows target1) (rows target2) →
       statuses (lookup rule master1 target1 keyColumn)
       = statuses (lookup rule master2 target2 keyColumn))
  ∧ (∀ keyColumn r1 r2 rest k,
       normalized_key (cell keyColumn r1) = Some k →
       cell_variant (cell keyColumn r1) (cell keyColumn r2) →
       (build_index keyColumn (r1 :: r2 :: rest)).1 !! k = Some r1
       ∧ DuplicateKeyWarning k
         ∈ (build_index keyColumn (r1 :: r2 :: rest)).2)
  ∧ statuses (lookup scenario_rule scenario_master scenario_target "part")
    = Some [D; X; NOT_FOUND]
  ∧ lookup_match_rate
      (lookup scenario_rule scenario_master scenario_target "part")
    = Some (667 # 10)%Q.
Proof.
  split; [exact text_variant_normalize |].
  split; [exact lookup_statuses_related |].
  split; [exact duplicate_key_first_wins |].
  split; reflexivity.
Qed.

Lemma scenario_keys_are_variants :
  Forall2 (target_variant "part")
    (rows scenario_target) (rows scenario_target_plain).
Proof.
  assert (Hlower : same_letter "a" "A") by (right; right; by split).
  assert (Hone : same_letter "1" "1") by by left.
  assert (Htwo : same_letter "2" "2") by by left.
  assert (Hupper : same_letter "A" "A") by by left.
  cbn [rows scenario_target scenario_target_plain].
  constructor; [| constructor; [| constructor; [| constructor]]].
  - right. exists "a1 "%string, "A1"%string.
    split; [reflexivity |]. split; [reflexivity |].
    exists [], ["a"; "1"]%char, [" "]%char, [], ["A"; "1"]%char, [].
    repeat (split; [reflexivity |]).
    constructor; [assumption | constructor; [assumption | constructor]].
  - right. exists " A2"%string, "A2"%string.
    split; [reflexivity |]. split; [reflexivity |].
    exists [" "]%char, ["A"; "2"]%char, [], [], ["A"; "2"]%char, [].
    repeat (split; [reflexivity |]).
    constructor; [assumption | constructor; [assumption | constructor]].
  - by left.
Qed.

(** The normalization theorem on scenario 1: the Target with padded and
    lower-case keys gets the statuses of the Target with plain keys. *)
Lemma lookup_key_normalization_witness :
  Forall2 (target_variant "part")
    (rows scenario_target) (rows scenario_target_plain)
  ∧ statuses (lookup scenario_rule scenario_master scenario_target "part")
    = statuses (lookup scenario_rule scenario_master scenario_target_plain
                  "part").
Proof.
  split; [exact scenario_keys_are_variants |].
  apply (proj1 (proj2 lookup_key_normalization)).
  - reflexivity.
  - reflexivity.
  - apply Forall_Forall2_diag, Forall_forall. intros r _.
    split; [by left | reflexivity].
  - exact scenario_keys_are_variants.
Defined.

End EngineSpec.

(** * Properties of the rest of the store and of its callers *)

Module ETLAppSpec.
Import ETLStore ETLApp.
Local Close Scope string_scope.

(** Unfolds the monad of [ETLStore], leaving the named actions folded. *)
Ltac unfold_monad :=
  cbv [try_finally try_catch reportError httpFailure
       mbind mret Act_bind Act_ret get set log fetch json throw];
  cbn [store sent ticks ok status statusText body negb fst snd].

(** Unfolds the API actions of [ETLStore] to the steps of the monad. *)
Ltac unfold_api :=
  cbv [runApi previewSheets cleanData performLookup generateColumnInsights
       generateLookupInsights loadLookupColumns];
  unfold_monad.

(** Case analysis on what an endpoint answers. *)
Ltac answer_cases f :=
  destruct f as [? | [[] ? ? [? | [? | ?]]]].

(** ** loadLookupColumns *)

(** X1: [loadLookupColumns] keeps its failures to itself.  Whatever the back
    end answers, it completes normally after sending the one request, and
    leaves the step, the loading flag, the error and the logs as they are;
    of the session it changes at most availableColumns, and that only when
    the reply has its success flag set. *)
Theorem loadLookupColumns_quiet be w :
  let out := loadLookupColumns be w in
  let s := store w in
  let s' := store out.2 in
  out.1 = Normal tt
  ∧ sent out.2 = sent w ++ [PostGetLookupColumns]
  ∧ ticks out.2 = ticks w
  ∧ currentStep s' = currentStep s
  ∧ isLoading s' = isLoading s
  ∧ error s' = error s
  ∧ logs (sessionData s') = logs (sessionData s)
  ∧ sameOutputs (sessionData s) (sessionData s')
  ∧ cache (sessionData s') = cache (sessionData s)
  ∧ availableColumns (sessionData s')
    = match get_lookup_columns be with
      | FetchResponse {| ok := true; body := JsonValue (Succeeded columns) |} =>
          columns
      | _ => availableColumns (sessionData s)
      end.
Proof.
  cbv zeta. unfold_api.
  answer_cases (get_lookup_columns be); repeat split.
Qed.

(** ** How the API actions run *)

Lemma stage_outcome {P} (f : Fetched P) :
  stageFailed f = true ∨ ∃ r, succeeds f r.
Proof.
  answer_cases f; try (by left).
  right. eexists. by eexists _, _.
Qed.

Lemma succeeds_not_failed {P} (f : Fetched P) r :
  succeeds f r → stageFailed f = false.
Proof. by intros (code & text & ->). Qed.

Lemma loadLookupColumns_run be w :
  loadLookupColumns be w
  = (Normal tt,
     {| store := afterColumns be (store w);
        sent := sent w ++ [PostGetLookupColumns];
        ticks := ticks w |}).
Proof.
  unfold afterColumns. unfold_api.
  by answer_cases (get_lookup_columns be).
Qed.

(** A failed first request: the catch and finally blocks do the rest. *)
Lemma runApi_failed a be w :
  firstFails be a = true →
  misses (store w) a →
  runApi a be w
  = (Normal tt,
     staged w (firstRequest a)
       (afterFailure (clock be (ticks w)) (firstFailure be a) (store w))).
Proof.
  destruct a as [m t | | column | |];
    cbn [firstFails misses firstFailure firstRequest];
    intros Hfail Hmiss; unfold staged; unfold_api; rewrite ?Hmiss.
  - answer_cases (preview_session be m t); try discriminate Hfail; reflexivity.
  - answer_cases (clean_session be); try discriminate Hfail; reflexivity.
  - answer_cases (lookup_session be column); try discriminate Hfail; reflexivity.
  - answer_cases (column_insights be); try discriminate Hfail; reflexivity.
  - answer_cases (lookup_insights be); try discriminate Hfail; reflexivity.
Qed.

Lemma generateLookupInsights_ok be w r :
  succeeds (lookup_insights be) r →
  generateLookupInsights be w
  = (Normal tt,
     settled (staged w PostLookupInsights
                (afterSuccess (patchLookupInsights r) (Some 6%Z)
                   (clock be (ticks w))
                   "Lookup insights generated successfully!" (store w)))).
Proof.
  intros (code & text & Hreply). unfold_api. by rewrite Hreply.
Qed.

Lemma generateColumnInsights_ok be w r :
  succeeds (column_insights be) r →
  generateColumnInsights be w
  = (Normal tt,
     settled
       {| store :=
            afterColumns be
              (afterSuccess (patchColumnInsights r) (Some 4%Z)
                 (clock be (ticks w))
                 "Column insights generated successfully!" (store w));
          sent := sent w ++ [PostColumnInsights; PostGetLookupColumns];
          ticks := S (ticks w) |}).
Proof.
  intros (code & text & Hreply).
  unfold generateColumnInsights. unfold_monad. rewrite Hreply.
  cbn [ok body negb]. rewrite loadLookupColumns_run.
  unfold settled. cbn [store sent ticks]. by rewrite <- app_assoc.
Qed.

Lemma cleanData_ok be w r :
  succeeds (clean_session be) r →
  cleanData be w
  = (Normal tt,
     settled
       (generateColumnInsights be
          (staged w PostCleanSession
             (afterSuccess (patchCleanResult r) (Some 3%Z)
                (clock be (ticks w))
                "Data cleaning completed successfully!" (store w)))).2).
Proof.
  intros (code & text & Hreply).
  unfold cleanData. unfold_monad. rewrite Hreply.
  unfold staged, afterSuccess.
  cbn [store sent ticks ok status statusText body negb fst snd].
  match goal with
  | |- context [generateColumnInsights be ?x] => set (w1 := x)
  end.
  destruct (stage_outcome (column_insights be)) as [Hfail | (r2 & Hok)].
  - pose proof (runApi_failed GenerateColumnInsights be w1 Hfail I) as Hrun.
    cbn [runApi] in Hrun. rewrite Hrun. reflexivity.
  - rewrite (generateColumnInsights_ok be w1 r2 Hok). reflexivity.
Qed.

Lemma performLookup_ok be w column r :
  succeeds (lookup_session be column) r →
  performLookup column be w
  = (Normal tt,
     settled
       (generateLookupInsights be
          (staged w (PostLookupSession column)
             (afterSuccess (patchLookupResult r) (Some 5%Z)
                (clock be (ticks w))
                ("Lookup completed using column: " +:+ column)
                (store w)))).2).
Proof.
  intros (code & text & Hreply).
  unfold performLookup. unfold_monad. rewrite Hreply.
  unfold staged, afterSuccess.
  cbn [store sent ticks ok status statusText body negb fst snd].
  match goal with
  | |- context [generateLookupInsights be ?x] => set (w1 := x)
  end.
  destruct (stage_outcome (lookup_insights be)) as [Hfail | (r2 & Hok)].
  - pose proof (runApi_failed GenerateLookupInsights be w1 Hfail I) as Hrun.
    cbn [runApi] in Hrun. rewrite Hrun. reflexivity.
  - rewrite (generateLookupInsights_ok be w1 r2 Hok). reflexivity.
Qed.

(** ** Completion and failure of the API actions *)

Ltac show_trace :=
  split; [reflexivity |];
  cbn [fst snd settled staged store sent ticks];
  split; [reflexivity |];
  split; [reflexivity |]; split; [lia | reflexivity].

Lemma insights_trace a be w :
  a = GenerateColumnInsights ∨ a = GenerateLookupInsights →
  ∃ w' new,
    runApi a be w = (Normal tt, w')
    ∧ isLoading (store w') = false
    ∧ sent w' = sent w ++ new
    ∧ ticks w ≤ ticks w'
    ∧ lookupColumns new = asked a.
Proof.
  intros Ha.
  assert (Hcases : firstFails be a = true
                   ∨ (a = GenerateColumnInsights
                      ∧ ∃ r, succeeds (column_insights be) r)
                   ∨ (a = GenerateLookupInsights
                      ∧ ∃ r, succeeds (lookup_insights be) r)).
  { destruct Ha as [-> | ->]; simpl.
    - destruct (stage_outcome (column_insights be)); [by left | right; by left].
    - destruct (stage_outcome (lookup_insights be)); [by left | right; by right]. }
  destruct Hcases as [Hfail | [[-> (r & Hok)] | [-> (r & Hok)]]].
  - rewrite (runApi_failed a be w Hfail) by (by destruct Ha as [-> | ->]).
    eexists _, _. destruct Ha as [-> | ->]; show_trace.
  - cbn [runApi]. rewrite (generateColumnInsights_ok be w r Hok).
    eexists _, _. show_trace.
  - cbn [runApi]. rewrite (generateLookupInsights_ok be w r Hok).
    eexists _, _. show_trace.
Qed.

(** Every API action completes normally, having added its requests to
    those sent before; of lookup requests it adds the one of
    [performLookup] and no other. *)
Lemma runApi_trace a be w :
  ∃ w' new,
    runApi a be w = (Normal tt, w')
    ∧ isLoading (store w') = false
    ∧ sent w' = sent w ++ new
    ∧ ticks w ≤ ticks w'
    ∧ lookupColumns new = asked a.
Proof.
  destruct a as [m t | | column | |].
  - cbn [runApi].
    destruct (truthy (cacheRead (cache (sessionData (store w))) (cacheKey m t)))
      eqn:Hcache.
    + rewrite (ETLStoreSpec.previewSheets_hit be w m t Hcache).
      eexists _, []. split; [reflexivity |].
      cbn [fst snd store sent ticks]. rewrite app_nil_r.
      split; [reflexivity |].
      split; [reflexivity |]. split; [lia | reflexivity].
    + destruct (stage_outcome (preview_session be m t)) as [Hfail | (r & Hok)].
      * pose proof (runApi_failed (PreviewSheets m t) be w Hfail Hcache) as Hrun.
        cbn [runApi] in Hrun. rewrite Hrun. eexists _, _. show_trace.
      * rewrite (ETLStoreSpec.previewSheets_stored be w m t r Hcache Hok).
        eexists _, _. show_trace.
  - destruct (stage_outcome (clean_session be)) as [Hfail | (r & Hok)].
    + rewrite (runApi_failed CleanData be w Hfail I).
      eexists _, _. show_trace.
    + cbn [runApi]. rewrite (cleanData_ok be w r Hok).
      match goal with
      | |- context [generateColumnInsights be ?x] =>
          destruct (insights_trace GenerateColumnInsights be x)
            as (w2 & new & Hrun & _ & Hsent & Hticks & Hasked); [by left |]
      end.
      cbn [runApi] in Hrun. rewrite Hrun.
      cbn [staged sent ticks] in Hsent, Hticks.
      exists (settled w2), (PostCleanSession :: new).
      cbn [fst snd settled store sent ticks].
      split; [reflexivity |]. split; [reflexivity |].
      split; [by rewrite Hsent, <- app_assoc |]. split; [lia | exact Hasked].
  - destruct (stage_outcome (lookup_session be column)) as [Hfail | (r & Hok)].
    + rewrite (runApi_failed (PerformLookup column) be w Hfail I).
      eexists _, _. show_trace.
    + cbn [runApi]. rewrite (performLookup_ok be w column r Hok).
      match goal with
      | |- context [generateLookupInsights be ?x] =>
          destruct (insights_trace GenerateLookupInsights be x)
            as (w2 & new & Hrun & _ & Hsent & Hticks & Hasked); [by right |]
      end.
      cbn [runApi] in Hrun. rewrite Hrun.
      cbn [staged sent ticks] in Hsent, Hticks.
      exists (settled w2), (PostLookupSession column :: new).
      cbn [fst snd settled store sent ticks].
      split; [reflexivity |]. split; [reflexivity |].
      split; [by rewrite Hsent, <- app_assoc |]. split; [lia |].
      unfold lookupColumns in *. cbn in Hasked |- *. by rewrite Hasked.
  - apply insights_trace. by left.
  - apply insights_trace. by right.
Qed.

(** X2: the API actions of the store never throw.  Whatever the back end
    answers at any of their requests (a rejected fetch, a response that is
    not ok, a body that cannot be read, a reply without success), the
    actions [previewSheets], [cleanData], [performLookup],
    [generateColumnInsights] and [generateLookupInsights] complete normally
    and leave isLoading false; the requests they send come after those sent
    before, and the clock is never set back. *)
Theorem api_actions_complete a be w :
  let out := runApi a be w in
  out.1 = Normal tt
  ∧ isLoading (store out.2) = false
  ∧ sent w `prefix_of` sent out.2
  ∧ ticks w ≤ ticks out.2.
Proof.
  cbv zeta.
  destruct (runApi_trace a be w) as (w' & new & -> & Hload & Hsent & Hticks & _).
  cbn [fst snd]. split; [reflexivity |]. split; [exact Hload |].
  split; [| exact Hticks]. rewrite Hsent. by apply prefix_app_r.
Qed.

(** X3: a failed first request leaves the session as it was, for every API
    action.  When the first request of [previewSheets] (on sheets the cache
    has nothing truthy for), [cleanData], [performLookup],
    [generateColumnInsights] or [generateLookupInsights] fails, the action
    has sent that one request; currentStep and every field of sessionData
    but the logs, the selected sheets and the cache among them, are as
    before; error holds the failure message, the logs gain it as an error
    entry, and isLoading is false. *)
Theorem api_failure_atomic a be w :
  firstFails be a = true →
  misses (store w) a →
  let s := store w in
  let out := runApi a be w in
  let s' := store out.2 in
  let msg := firstFailure be a in
  out.1 = Normal tt
  ∧ sent out.2 = sent w ++ [firstRequest a]
  ∧ sameButLogs (sessionData s) (sessionData s')
  ∧ currentStep s' = currentStep s
  ∧ isLoading s' = false
  ∧ error s' = Some msg
  ∧ logs (sessionData s')
    = slice_last 50
        (logs (sessionData s)
         ++ [{| timestamp := clock be (ticks w); message := msg;
                level := Error |}]).
Proof.
  intros Hfail Hmiss. cbv zeta. rewrite (runApi_failed a be w Hfail Hmiss).
  repeat split.
Qed.

(** The failure theorem on a preview while the back end cannot be reached. *)
Lemma api_failure_atomic_witness :
  let w := freshWorld (uploaded "f1" ["Master"; "Target"]%string) in
  let a := PreviewSheets "Master" "Target" in
  let s' := store (runApi a unreachable w).2 in
  firstFails unreachable a = true
  ∧ misses (store w) a
  ∧ previewData (sessionData s') = JNull
  ∧ cache (sessionData s') = ∅
  ∧ error s' = Some "Failed to fetch"%string.
Proof.
  intros w a s'.
  assert (Hfail : firstFails unreachable a = true) by reflexivity.
  assert (Hmiss : misses (store w) a) by reflexivity.
  destruct (api_failure_atomic a unreachable w Hfail Hmiss)
    as (_ & _ & Hsame & _ & _ & Herr & _).
  destruct Hsame as ((_ & Hpreview & _) & _ & _ & _ & _ & _ & _ & Hcache).
  split; [exact Hfail |]. split; [exact Hmiss |].
  split; [exact Hpreview |]. split; [exact Hcache | exact Herr].
Defined.

(** ** The two-stage actions *)

Lemma afterColumns_ok be s columns :
  succeeds (get_lookup_columns be) columns →
  afterColumns be s = updateSessionData (patchAvailableColumns columns) s.
Proof. intros (code & text & Hreply). unfold afterColumns. by rewrite Hreply. Qed.

Lemma afterColumns_failed be s :
  stageFailed (get_lookup_columns be) = true → afterColumns be s = s.
Proof.
  unfold afterColumns.
  answer_cases (get_lookup_columns be); intros Hfail;
    try discriminate Hfail; reflexivity.
Qed.

(** What [afterColumns] keeps: everything but availableColumns. *)
Lemma afterColumns_frame be s :
  currentStep (afterColumns be s) = currentStep s
  ∧ isLoading (afterColumns be s) = isLoading s
  ∧ error (afterColumns be s) = error s
  ∧ sameOutputs (sessionData s) (sessionData (afterColumns be s))
  ∧ cache (sessionData (afterColumns be s)) = cache (sessionData s)
  ∧ logs (sessionData (afterColumns be s)) = logs (sessionData s).
Proof.
  destruct (stage_outcome (get_lookup_columns be)) as [Hfail | (cols & Hok)].
  - rewrite (afterColumns_failed be s Hfail). repeat split.
  - rewrite (afterColumns_ok be s cols Hok). repeat split.
Qed.

(** What a [cleanData] whose first request succeeded keeps and reaches. *)
Lemma cleanData_ok_frame be w r :
  succeeds (clean_session be) r →
  let s' := store (cleanData be w).2 in
  fileId (sessionData s') = fileId (sessionData (store w))
  ∧ cache (sessionData s') = cache (sessionData (store w))
  ∧ Number.leb (Number.whole 3) (currentStep s') = true.
Proof.
  intros Hclean. cbv zeta. rewrite (cleanData_ok be w r Hclean).
  set (w1 := staged w PostCleanSession _).
  destruct (stage_outcome (column_insights be)) as [Hfail | (r2 & Hok)].
  - pose proof (runApi_failed GenerateColumnInsights be w1 Hfail I) as Hrun.
    cbn [runApi] in Hrun. rewrite Hrun. repeat split.
  - rewrite (generateColumnInsights_ok be w1 r2 Hok).
    cbn [snd settled store sent ticks setLoading sessionData currentStep].
    match goal with
    | |- context [afterColumns be ?x] =>
        destruct (afterColumns_frame be x)
          as (-> & _ & _ & (-> & _) & -> & _)
    end.
    repeat split.
Qed.

(** What a [performLookup] whose first request succeeded keeps and
    reaches. *)
Lemma performLookup_ok_frame be w column r :
  succeeds (lookup_session be column) r →
  let s' := store (performLookup column be w).2 in
  fileId (sessionData s') = fileId (sessionData (store w))
  ∧ cache (sessionData s') = cache (sessionData (store w))
  ∧ Number.leb (Number.whole 3) (currentStep s') = true.
Proof.
  intros Hlookup. cbv zeta. rewrite (performLookup_ok be w column r Hlookup).
  set (w1 := staged w (PostLookupSession column) _).
  destruct (stage_outcome (lookup_insights be)) as [Hfail | (r2 & Hok)].
  - pose proof (runApi_failed GenerateLookupInsights be w1 Hfail I) as Hrun.
    cbn [runApi] in Hrun. rewrite Hrun. repeat split.
  - rewrite (generateLookupInsights_ok be w1 r2 Hok). repeat split.
Qed.

(** X4: [cleanData] runs in two stages and keeps what the first achieved.
    Once /clean-session has answered with success, cleanResult holds the
    reply whatever follows, and the file, the preview, the lookup outputs
    and the cache are as before.  If /column-insights then fails, the
    action stops at step 3 with that failure as the error and two requests
    sent; if it succeeds, the action ends at step 4 with no error,
    columnInsights set, and a third request sent for the lookup columns,
    whose reply replaces availableColumns only when it has success set. *)
Theorem cleanData_success_chain be w r :
  succeeds (clean_session be) r →
  let s := store w in
  let out := cleanData be w in
  let s' := store out.2 in
  (cleanResult (sessionData s') = Some r
   ∧ fileId (sessionData s') = fileId (sessionData s)
   ∧ previewData (sessionData s') = previewData (sessionData s)
   ∧ lookupResult (sessionData s') = lookupResult (sessionData s)
   ∧ lookupInsights (sessionData s') = lookupInsights (sessionData s)
   ∧ updateResult (sessionData s') = updateResult (sessionData s)
   ∧ cache (sessionData s') = cache (sessionData s))
  ∧ (stageFailed (column_insights be) = true →
     currentStep s' = Number.whole 3
     ∧ error s'
       = Some (failureMessage "Column insights failed" (column_insights be))
     ∧ columnInsights (sessionData s') = columnInsights (sessionData s)
     ∧ availableColumns (sessionData s') = availableColumns (sessionData s)
     ∧ sent out.2 = sent w ++ [PostCleanSession; PostColumnInsights])
  ∧ (∀ r2, succeeds (column_insights be) r2 →
     currentStep s' = Number.whole 4
     ∧ error s' = None
     ∧ columnInsights (sessionData s') = Some r2
     ∧ sent out.2
       = sent w ++ [PostCleanSession; PostColumnInsights;
                    PostGetLookupColumns]
     ∧ (∀ columns, succeeds (get_lookup_columns be) columns →
        availableColumns (sessionData s') = columns)
     ∧ (stageFailed (get_lookup_columns be) = true →
        availableColumns (sessionData s')
        = availableColumns (sessionData s))).
Proof.
  intros Hclean. cbv zeta. rewrite (cleanData_ok be w r Hclean).
  set (w1 := staged w PostCleanSession _).
  destruct (stage_outcome (column_insights be)) as [Hfail | (r2 & Hok)].
  - pose proof (runApi_failed GenerateColumnInsights be w1 Hfail I) as Hrun.
    cbn [runApi] in Hrun. rewrite Hrun.
    split; [repeat split |]. split.
    + intros _. repeat split. cbn. by rewrite <- app_assoc.
    + intros r2 Hok. apply succeeds_not_failed in Hok. congruence.
  - rewrite (generateColumnInsights_ok be w1 r2 Hok).
    cbn [snd settled store sent ticks].
    match goal with
    | |- context [afterColumns be ?x] =>
        set (s1 := x);
        pose proof (afterColumns_frame be s1)
          as (Hstep & _ & Herr & Hout & Hcache & _)
    end.
    destruct Hout as (Hfile & Hpreview & Hclean' & Hinsights & Hlookup
                      & Hlookup' & Hupdate).
    cbn [setLoading sessionData currentStep error].
    split.
    { rewrite Hclean', Hfile, Hpreview, Hlookup, Hlookup', Hupdate, Hcache.
      repeat split. }
    split.
    { intros Hfail. apply succeeds_not_failed in Hok. congruence. }
    intros r3 Hok3.
    assert (r3 = r2) as ->.
    { destruct Hok as (c1 & t1 & H1), Hok3 as (c3 & t3 & H3). congruence. }
    rewrite Hstep, Herr, Hinsights.
    split; [reflexivity |]. split; [reflexivity |]. split; [reflexivity |].
    split; [unfold w1; cbn; by rewrite <- app_assoc |].
    split.
    + intros cols Hcols. by rewrite (afterColumns_ok be s1 cols Hcols).
    + intros Hcols. by rewrite (afterColumns_failed be s1 Hcols).
Qed.

(** The two-stage theorem of [cleanData] on a back end that answers every
    request with success. *)
Lemma cleanData_success_chain_witness :
  let be := cooperative (JObj []) [("success"%string, JBool true)] ["Part"%string] in
  let w := freshWorld (uploaded "f1" ["Master"; "Target"]%string) in
  let s' := store (cleanData be w).2 in
  succeeds (clean_session be) [("success"%string, JBool true)]
  ∧ cleanResult (sessionData s') = Some [("success"%string, JBool true)]
  ∧ currentStep s' = Number.whole 4
  ∧ availableColumns (sessionData s') = ["Part"%string].
Proof.
  intros be w s'.
  assert (Hclean : succeeds (clean_session be) [("success"%string, JBool true)])
    by (by exists 200%Z, "OK"%string).
  assert (Hinsights : succeeds (column_insights be)
                        [("success"%string, JBool true)])
    by (by exists 200%Z, "OK"%string).
  assert (Hcols : succeeds (get_lookup_columns be) ["Part"%string])
    by (by exists 200%Z, "OK"%string).
  destruct (cleanData_success_chain be w _ Hclean)
    as ((Hresult & _) & _ & Hchain).
  destruct (Hchain _ Hinsights) as (Hstep & _ & _ & _ & Hcolumns & _).
  split; [exact Hclean |]. split; [exact Hresult |].
  split; [exact Hstep | exact (Hcolumns _ Hcols)].
Defined.

(** X5: [performLookup] runs in two stages and keeps what the first
    achieved.  Once /lookup-session has answered with success, lookupResult
    holds the reply whatever follows, and the file, the preview, the
    cleaning outputs, the available columns and the cache are as before.
    If /lookup-insights then fails, the action stops at step 5 with that
    failure as the error; if it succeeds, the action ends at step 6 with no
    error and lookupInsights set.  Either way exactly the two requests are
    sent, the lookup request carrying the column passed in. *)
Theorem performLookup_success_chain be w column r :
  succeeds (lookup_session be column) r →
  let s := store w in
  let out := performLookup column be w in
  let s' := store out.2 in
  (lookupResult (sessionData s') = Some r
   ∧ fileId (sessionData s') = fileId (sessionData s)
   ∧ previewData (sessionData s') = previewData (sessionData s)
   ∧ cleanResult (sessionData s') = cleanResult (sessionData s)
   ∧ columnInsights (sessionData s') = columnInsights (sessionData s)
   ∧ availableColumns (sessionData s') = availableColumns (sessionData s)
   ∧ updateResult (sessionData s') = updateResult (sessionData s)
   ∧ cache (sessionData s') = cache (sessionData s)
   ∧ sent out.2 = sent w ++ [PostLookupSession column; PostLookupInsights])
  ∧ (stageFailed (lookup_insights be) = true →
     currentStep s' = Number.whole 5
     ∧ error s'
       = Some (failureMessage "Lookup insights failed" (lookup_insights be))
     ∧ lookupInsights (sessionData s') = lookupInsights (sessionData s))
  ∧ (∀ r2, succeeds (lookup_insights be) r2 →
     currentStep s' = Number.whole 6
     ∧ error s' = None
     ∧ lookupInsights (sessionData s') = Some r2).
Proof.
  intros Hlookup. cbv zeta. rewrite (performLookup_ok be w column r Hlookup).
  set (w1 := staged w (PostLookupSession column) _).
  destruct (stage_outcome (lookup_insights be)) as [Hfail | (r2 & Hok)].
  - pose proof (runApi_failed GenerateLookupInsights be w1 Hfail I) as Hrun.
    cbn [runApi] in Hrun. rewrite Hrun.
    split; [repeat split; cbn; by rewrite <- app_assoc |]. split.
    + intros _. repeat split.
    + intros r2 Hok. apply succeeds_not_failed in Hok. congruence.
  - rewrite (generateLookupInsights_ok be w1 r2 Hok).
    split; [repeat split; cbn; by rewrite <- app_assoc |]. split.
    + intros Hfail. apply succeeds_not_failed in Hok. congruence.
    + intros r3 Hok3.
      assert (r3 = r2) as ->.
      { destruct Hok as (c1 & t1 & H1), Hok3 as (c3 & t3 & H3). congruence. }
      repeat split.
Qed.

(** The two-stage theorem of [performLookup] on a back end that answers
    every request with success. *)
Lemma performLookup_success_chain_witness :
  let be := cooperative (JObj []) [("success"%string, JBool true)] ["Part"%string] in
  let w := freshWorld (uploaded "f1" ["Master"; "Target"]%string) in
  let out := performLookup "Part" be w in
  succeeds (lookup_session be "Part") [("success"%string, JBool true)]
  ∧ lookupResult (sessionData (store out.2))
    = Some [("success"%string, JBool true)]
  ∧ currentStep (store out.2) = Number.whole 6.
Proof.
  intros be w out.
  assert (Hlookup : succeeds (lookup_session be "Part")
                      [("success"%string, JBool true)])
    by (by exists 200%Z, "OK"%string).
  assert (Hinsights : succeeds (lookup_insights be)
                        [("success"%string, JBool true)])
    by (by exists 200%Z, "OK"%string).
  destruct (performLookup_success_chain be w "Part" _ Hlookup)
    as ((Hresult & _) & _ & Hchain).
  destruct (Hchain _ Hinsights) as (Hstep & _).
  split; [exact Hlookup |]. split; [exact Hresult | exact Hstep].
Defined.

(** ** The order of the wizard *)

Lemma afterColumns_wizard be s :
  getMaxAllowedStep (afterColumns be s) = getMaxAllowedStep s
  ∧ currentStep (afterColumns be s) = currentStep s.
Proof.
  destruct (stage_outcome (get_lookup_columns be)) as [Hfail | (cols & Hok)].
  - by rewrite (afterColumns_failed be s Hfail).
  - by rewrite (afterColumns_ok be s cols Hok).
Qed.

(** A store on the whole step [c] is in order when the session has the
    outputs for it. *)
Lemma stepAllowed_whole s c :
  currentStep s = Number.whole c →
  (0 <= c <= getMaxAllowedStep s)%Z →
  stepAllowed s.
Proof.
  intros Hstep Hle. unfold stepAllowed. rewrite Hstep.
  pose proof (ETLStoreSpec.getMaxAllowedStep_range s) as Hrange.
  destruct (ETLStoreSpec.whole_compare c (getMaxAllowedStep s)) as (-> & _);
    lia.
Qed.

(** A store in order stays in order when the step stays and the session
    loses no output. *)
Lemma stepAllowed_mono s s' :
  currentStep s' = currentStep s →
  (getMaxAllowedStep s <= getMaxAllowedStep s')%Z →
  stepAllowed s → stepAllowed s'.
Proof.
  unfold stepAllowed. intros -> Hle Hstep.
  apply (ETLStoreSpec.leb_trans _ _ _ Hstep).
  pose proof (ETLStoreSpec.getMaxAllowedStep_range s) as Hrange.
  pose proof (ETLStoreSpec.getMaxAllowedStep_range s') as Hrange'.
  destruct (ETLStoreSpec.whole_compare (getMaxAllowedStep s)
              (getMaxAllowedStep s')) as (-> & _); lia.
Qed.

(** A store past the whole step [c] is out of order when the session lacks
    the outputs for it. *)
Lemma stepAllowed_past s c :
  Number.leb (Number.whole c) (currentStep s) = true →
  (getMaxAllowedStep s < c <= 7)%Z →
  ¬ stepAllowed s.
Proof.
  unfold stepAllowed. intros Hpast Hlt Hstep.
  pose proof (ETLStoreSpec.leb_trans _ _ _ Hpast Hstep) as Hle.
  pose proof (ETLStoreSpec.getMaxAllowedStep_range s) as Hrange.
  destruct (ETLStoreSpec.whole_compare c (getMaxAllowedStep s)) as (Heq & _);
    [lia | lia |].
  rewrite Heq in Hle. lia.
Qed.

(** Reduces the allowed step of a store built by the actions to conditions
    on the fields of the store it was built from. *)
Ltac wizard_reduce :=
  cbv [settled staged afterSuccess afterFailure previewReported
       updateSessionData
       mergeSession spread setCurrentStep setLoading setError addLog
       patchCleanResult patchColumnInsights patchLookupResult
       patchLookupInsights patchPreview patchAvailableColumns
       store sent ticks sessionData currentStep fileId previewData
       cleanResult columnInsights lookupResult lookupInsights updateResult
       p_fileId p_previewData p_cleanResult p_columnInsights p_lookupResult
       p_lookupInsights p_updateResult fst snd truthy_object negb] in *.

Ltac wizard_cases :=
  unfold stageReady, getMaxAllowedStep in *;
  wizard_reduce;
  repeat (match goal with
          | |- context [match ?x with Normal _ => _ | Abrupt _ => _ end] =>
              is_var x; destruct x
          | H : truthy ?x = _ |- context [truthy ?x] => rewrite H
          | H : context [if truthy_string ?x then _ else _] |- _ =>
              is_var x; destruct (truthy_string x)
          | |- context [if truthy_string ?x then _ else _] =>
              is_var x; destruct (truthy_string x)
          | H : context [if truthy ?x then _ else _] |- _ =>
              is_var x; destruct (truthy x)
          | |- context [if truthy ?x then _ else _] =>
              is_var x; destruct (truthy x)
          | H : context [match ?x with Some _ => _ | None => _ end] |- _ =>
              is_var x; destruct x
          | |- context [match ?x with Some _ => _ | None => _ end] =>
              is_var x; destruct x
          end;
          wizard_reduce);
  lia.

Lemma insights_keep_wizard_order a be w :
  a = GenerateColumnInsights ∨ a = GenerateLookupInsights →
  stepAllowed (store w) → stageReady (store w) a →
  stepAllowed (store (runApi a be w).2).
Proof.
  intros Ha Hstep Hready.
  destruct (bool_decide (firstFails be a = true)) eqn:Hfails.
  - apply bool_decide_eq_true in Hfails.
    rewrite (runApi_failed a be w Hfails) by (by destruct Ha as [-> | ->]).
    apply (stepAllowed_mono (store w)); [reflexivity | | exact Hstep].
    clear Hstep. destruct w as [[step loading err d] rs n], d.
    destruct Ha as [-> | ->]; wizard_cases.
  - apply bool_decide_eq_false in Hfails. clear Hstep.
    destruct Ha as [-> | ->]; cbn [firstFails runApi] in *.
    + destruct (stage_outcome (column_insights be)) as [Hf | (r & Hok)];
        [done |].
      rewrite (generateColumnInsights_ok be w r Hok).
      cbn [snd settled store].
      apply (stepAllowed_whole _ 4).
      * change (currentStep (setLoading false ?x)) with (currentStep x).
        by destruct (afterColumns_wizard be
                       (afterSuccess (patchColumnInsights r) (Some 4%Z)
                          (clock be (ticks w))
                          "Column insights generated successfully!" (store w)))
          as [_ ->].
      * change (getMaxAllowedStep (setLoading false ?x))
          with (getMaxAllowedStep x).
        destruct (afterColumns_wizard be
                    (afterSuccess (patchColumnInsights r) (Some 4%Z)
                       (clock be (ticks w))
                       "Column insights generated successfully!" (store w)))
          as [-> _].
        destruct w as [[step loading err d] rs n], d. wizard_cases.
    + destruct (stage_outcome (lookup_insights be)) as [Hf | (r & Hok)];
        [done |].
      rewrite (generateLookupInsights_ok be w r Hok).
      apply (stepAllowed_whole _ 6); [reflexivity |].
      destruct w as [[step loading err d] rs n], d. wizard_cases.
Qed.

(** X6: run in the order of the pipeline, the API actions keep the wizard
    on a step it allows, but for a preview answered with success and no
    previews.  If currentStep is at most getMaxAllowedStep and the session
    holds the outputs of the stages before the action's own (a file and a
    preview for [cleanData], also the cleaning result for
    [generateColumnInsights], also the column insights for [performLookup],
    also the lookup result for [generateLookupInsights], nothing for
    [previewSheets]), then after the action currentStep is again at most
    getMaxAllowedStep, whatever the back end answered, unless the action was
    a [previewSheets] that the cache could not serve and the back end
    answered with success and falsy previews, which then replace
    previewData. *)
Theorem stage_keeps_wizard_order a be w :
  stepAllowed (store w) →
  stageReady (store w) a →
  stepAllowed (store (runApi a be w).2)
  ∨ ∃ m t previews,
      a = PreviewSheets m t
      ∧ misses (store w) a
      ∧ succeeds (preview_session be m t) previews
      ∧ truthy previews = false
      ∧ previewData (sessionData (store (runApi a be w).2)) = previews.
Proof.
  intros Hstep Hready. destruct a as [m t | | column | |].
  - cbn [runApi].
    destruct (truthy (cacheRead (cache (sessionData (store w))) (cacheKey m t)))
      eqn:Hcache.
    + left. rewrite (ETLStoreSpec.previewSheets_hit be w m t Hcache).
      apply (stepAllowed_mono (store w)); [reflexivity | | exact Hstep].
      clear Hstep. revert Hcache.
      generalize (cacheRead (cache (sessionData (store w))) (cacheKey m t)).
      intros held Hheld.
      destruct w as [[step loading err d] rs n], d. wizard_cases.
    + destruct (stage_outcome (preview_session be m t)) as [Hfail | (r & Hok)].
      * left.
        pose proof (runApi_failed (PreviewSheets m t) be w Hfail Hcache) as Hrun.
        cbn [runApi] in Hrun. rewrite Hrun.
        apply (stepAllowed_mono (store w)); [reflexivity | | exact Hstep].
        clear Hcache Hrun Hstep. destruct w as [[step loading err d] rs n], d.
        wizard_cases.
      * rewrite (ETLStoreSpec.previewSheets_stored be w m t r Hcache Hok).
        destruct (truthy r) eqn:Htruthy.
        -- left.
           apply (stepAllowed_mono (store w)); [| | exact Hstep].
           ++ by destruct (readyMessage (runtime be) m t r).
           ++ clear Hcache Hstep.
              generalize (readyMessage (runtime be) m t r). intros outcome.
              destruct w as [[step loading err d] rs n], d. wizard_cases.
        -- right. exists m, t, r. split; [reflexivity |].
           split; [exact Hcache |]. split; [exact Hok |].
           split; [exact Htruthy |].
           by destruct (readyMessage (runtime be) m t r).
  - left. destruct (stage_outcome (clean_session be)) as [Hfail | (r & Hok)].
    + rewrite (runApi_failed CleanData be w Hfail I).
      apply (stepAllowed_mono (store w)); [reflexivity | | exact Hstep].
      clear Hstep. destruct w as [[step loading err d] rs n], d. wizard_cases.
    + cbn [runApi]. rewrite (cleanData_ok be w r Hok).
      match goal with
      | |- context [generateColumnInsights be ?x] =>
          pose proof (insights_keep_wizard_order GenerateColumnInsights be x
                        (or_introl eq_refl)) as Hnext
      end.
      cbn [runApi] in Hnext. apply Hnext; clear Hnext Hok Hstep.
      * apply (stepAllowed_whole _ 3); [reflexivity |].
        destruct w as [[step loading err d] rs n], d; wizard_cases.
      * destruct w as [[step loading err d] rs n], d; wizard_cases.
  - left.
    destruct (stage_outcome (lookup_session be column)) as [Hfail | (r & Hok)].
    + rewrite (runApi_failed (PerformLookup column) be w Hfail I).
      apply (stepAllowed_mono (store w)); [reflexivity | | exact Hstep].
      clear Hstep. destruct w as [[step loading err d] rs n], d. wizard_cases.
    + cbn [runApi]. rewrite (performLookup_ok be w column r Hok).
      match goal with
      | |- context [generateLookupInsights be ?x] =>
          pose proof (insights_keep_wizard_order GenerateLookupInsights be x
                        (or_intror eq_refl)) as Hnext
      end.
      cbn [runApi] in Hnext. apply Hnext; clear Hnext Hok Hstep.
      * apply (stepAllowed_whole _ 5); [reflexivity |].
        destruct w as [[step loading err d] rs n], d; wizard_cases.
      * destruct w as [[step loading err d] rs n], d; wizard_cases.
  - left. apply insights_keep_wizard_order; [by left | done | done].
  - left. apply insights_keep_wizard_order; [by right | done | done].
Qed.

(** The wizard-order theorem on a lookup in a session that has its column
    insights, while the back end cannot be reached. *)
Lemma stage_keeps_wizard_order_witness :
  let previews :=
    JObj [("Master"%string, JArr [JNull]); ("Target"%string, JArr [])] in
  let be := cooperative previews [("success"%string, JBool true)]
              ["Part"%string] in
  let w := freshWorld (uploaded "f1" ["Master"; "Target"]%string) in
  let w1 := (previewSheets "Master" "Target" be w).2 in
  let w2 := (cleanData be w1).2 in
  stepAllowed (store w2)
  ∧ stageReady (store w2) (PerformLookup "Part")
  ∧ stepAllowed (store (runApi (PerformLookup "Part") unreachable w2).2).
Proof.
  intros previews be w w1 w2.
  assert (Hstep : stepAllowed (store w2)) by (vm_compute; reflexivity).
  assert (Hready : stageReady (store w2) (PerformLookup "Part"))
    by (vm_compute; discriminate).
  split; [exact Hstep |]. split; [exact Hready |].
  destruct (stage_keeps_wizard_order (PerformLookup "Part") unreachable w2
              Hstep Hready) as [Hkept | (m & t & _ & Hpreview & _)].
  - exact Hkept.
  - discriminate Hpreview.
Defined.

(** X7: the API actions themselves do not check the order of the pipeline.
    In a session without a file, a [cleanData], [performLookup],
    [generateColumnInsights] or [generateLookupInsights] whose first request
    succeeds stores its output and moves the wizard to step 3 or beyond,
    while getMaxAllowedStep stays 0: the wizard shows a step that [goToStep]
    would refuse. *)
Theorem stage_actions_unguarded a be w :
  (∀ m t, a ≠ PreviewSheets m t) →
  firstFails be a = false →
  truthy_string (fileId (sessionData (store w))) = false →
  let s' := store (runApi a be w).2 in
  getMaxAllowedStep s' = 0%Z
  ∧ Number.leb (Number.whole 3) (currentStep s') = true
  ∧ ¬ stepAllowed s'.
Proof.
  intros Hnot Hok Hfile. cbv zeta.
  assert (Hmax : ∀ s, fileId (sessionData s) = fileId (sessionData (store w)) →
                      getMaxAllowedStep s = 0%Z).
  { intros s Heq. unfold getMaxAllowedStep. by rewrite Heq, Hfile. }
  assert (Hgoal : ∀ s', fileId (sessionData s') = fileId (sessionData (store w)) →
                        Number.leb (Number.whole 3) (currentStep s') = true →
                        getMaxAllowedStep s' = 0%Z
                        ∧ Number.leb (Number.whole 3) (currentStep s') = true
                        ∧ ¬ stepAllowed s').
  { intros s' Heq Hstep. split; [exact (Hmax s' Heq) |]. split; [done |].
    apply (stepAllowed_past s' 3 Hstep). rewrite (Hmax s' Heq). lia. }
  destruct a as [m t | | column | |]; cbn [firstFails runApi] in *.
  - by destruct (Hnot m t).
  - destruct (stage_outcome (clean_session be)) as [Hf | (r & Hr)];
      [congruence |].
    destruct (cleanData_ok_frame be w r Hr) as (Hfid & _ & Hreached).
    by apply Hgoal.
  - destruct (stage_outcome (lookup_session be column)) as [Hf | (r & Hr)];
      [congruence |].
    destruct (performLookup_ok_frame be w column r Hr) as (Hfid & _ & Hreached).
    by apply Hgoal.
  - destruct (stage_outcome (column_insights be)) as [Hf | (r & Hr)];
      [congruence |].
    rewrite (generateColumnInsights_ok be w r Hr).
    apply Hgoal.
    + cbn [snd settled store setLoading sessionData].
      by destruct (afterColumns_frame be
                     (afterSuccess (patchColumnInsights r) (Some 4%Z)
                        (clock be (ticks w))
                        "Column insights generated successfully!" (store w)))
        as (_ & _ & _ & (-> & _) & _).
    + cbn [snd settled store setLoading currentStep].
      destruct (afterColumns_wizard be
                  (afterSuccess (patchColumnInsights r) (Some 4%Z)
                     (clock be (ticks w))
                     "Column insights generated successfully!" (store w)))
        as (_ & ->).
      reflexivity.
  - destruct (stage_outcome (lookup_insights be)) as [Hf | (r & Hr)];
      [congruence |].
    rewrite (generateLookupInsights_ok be w r Hr).
    apply Hgoal; reflexivity.
Qed.

(** The unguarded-stage theorem on a cleaning in the initial state. *)
Lemma stage_actions_unguarded_witness :
  let be := cooperative (JObj []) [("success"%string, JBool true)]
              ["Part"%string] in
  let s' := store (runApi CleanData be (freshWorld initialState)).2 in
  firstFails be CleanData = false
  ∧ getMaxAllowedStep s' = 0%Z
  ∧ Number.leb (Number.whole 3) (currentStep s') = true.
Proof.
  intros be s'. split; [reflexivity |].
  destruct (stage_actions_unguarded CleanData be (freshWorld initialState))
    as (Hmax & Hstep & _); [discriminate | reflexivity | reflexivity |].
  split; [exact Hmax | exact Hstep].
Defined.

(** ** The preview cache over time *)

Lemma cache_after a be w :
  let c := cache (sessionData (store w)) in
  let c' := cache (sessionData (store (runApi a be w).2)) in
  c' = c
  ∨ ∃ m t previews,
      a = PreviewSheets m t
      ∧ truthy (cacheRead c (cacheKey m t)) = false
      ∧ succeeds (preview_session be m t) previews
      ∧ c' = <[cacheKey m t := previews]> c.
Proof.
  cbv zeta. destruct a as [m t | | column | |].
  - cbn [runApi].
    destruct (truthy (cacheRead (cache (sessionData (store w))) (cacheKey m t)))
      eqn:Hcache.
    + left. by rewrite (ETLStoreSpec.previewSheets_hit be w m t Hcache).
    + destruct (stage_outcome (preview_session be m t)) as [Hfail | (r & Hok)].
      * left.
        pose proof (runApi_failed (PreviewSheets m t) be w Hfail Hcache) as Hrun.
        cbn [runApi] in Hrun. by rewrite Hrun.
      * right. exists m, t, r.
        rewrite (ETLStoreSpec.previewSheets_stored be w m t r Hcache Hok).
        split; [reflexivity |]. split; [exact Hcache |].
        split; [exact Hok |].
        by destruct (readyMessage (runtime be) m t r).
  - left. destruct (stage_outcome (clean_session be)) as [Hfail | (r & Hok)].
    + by rewrite (runApi_failed CleanData be w Hfail I).
    + cbn [runApi].
      by destruct (cleanData_ok_frame be w r Hok) as (_ & -> & _).
  - left.
    destruct (stage_outcome (lookup_session be column)) as [Hfail | (r & Hok)].
    + by rewrite (runApi_failed (PerformLookup column) be w Hfail I).
    + cbn [runApi].
      by destruct (performLookup_ok_frame be w column r Hok) as (_ & -> & _).
  - left. destruct (stage_outcome (column_insights be)) as [Hfail | (r & Hok)].
    + by rewrite (runApi_failed GenerateColumnInsights be w Hfail I).
    + cbn [runApi]. rewrite (generateColumnInsights_ok be w r Hok).
      cbn [snd settled store setLoading sessionData].
      by destruct (afterColumns_frame be
                     (afterSuccess (patchColumnInsights r) (Some 4%Z)
                        (clock be (ticks w))
                        "Column insights generated successfully!" (store w)))
        as (_ & _ & _ & _ & -> & _).
  - left. destruct (stage_outcome (lookup_insights be)) as [Hfail | (r & Hok)].
    + by rewrite (runApi_failed GenerateLookupInsights be w Hfail I).
    + cbn [runApi]. by rewrite (generateLookupInsights_ok be w r Hok).
Qed.

(** X8: no API action ever evicts or overwrites a preview the cache can
    serve.  After any of the five API actions, whatever the back end
    answered, every entry of the preview cache that held a truthy value is
    still there with the same value; the cache is unchanged altogether
    unless the action was a [previewSheets] on sheets for which the cache
    held nothing or a falsy value and which the back end answered with
    success, in which case exactly the entry of those sheets was set, to the
    previews of the answer. *)
Theorem cache_entries_persist a be w :
  let c := cache (sessionData (store w)) in
  let c' := cache (sessionData (store (runApi a be w).2)) in
  (∀ k v, c !! k = Some v → truthy v = true → c' !! k = Some v)
  ∧ (c' = c
     ∨ ∃ m t previews,
         a = PreviewSheets m t
         ∧ truthy (cacheRead c (cacheKey m t)) = false
         ∧ succeeds (preview_session be m t) previews
         ∧ c' = <[cacheKey m t := previews]> c).
Proof.
  cbv zeta. pose proof (cache_after a be w) as Hafter. cbv zeta in Hafter.
  split; [| exact Hafter].
  intros k v Hk Hv.
  destruct Hafter as [-> | (m & t & previews & _ & Hmiss & _ & ->)]; [done |].
  rewrite lookup_insert_ne; [done |]. intros <-.
  unfold cacheRead in Hmiss. rewrite Hk in Hmiss. cbn in Hmiss. congruence.
Qed.

(** An entry held before a cleaning is held after it. *)
Lemma cache_entries_persist_witness :
  let previews := JObj [("Master"%string, JArr [JNull])] in
  let be := cooperative previews [] [] in
  let w := freshWorld (uploaded "f1" ["Master"; "Target"]%string) in
  let w1 := (previewSheets "Master" "Target" be w).2 in
  cache (sessionData (store w1)) !! cacheKey "Master" "Target" = Some previews
  ∧ truthy previews = true
  ∧ cache (sessionData (store (runApi CleanData unreachable w1).2))
    !! cacheKey "Master" "Target" = Some previews.
Proof.
  intros previews be w w1.
  assert (Hheld : cache (sessionData (store w1)) !! cacheKey "Master" "Target"
                  = Some previews) by reflexivity.
  split; [exact Hheld |]. split; [reflexivity |].
  exact (proj1 (cache_entries_persist CleanData unreachable w1) _ _ Hheld
           eq_refl).
Defined.

(** ** Cache keys *)

Lemma string_app_assoc (a b c : string) :
  ((a +:+ b) +:+ c = a +:+ (b +:+ c))%string.
Proof.
  induction a as [| x a IH]; [done |].
  change (String x ((a +:+ b) +:+ c) = String x (a +:+ (b +:+ c)))%string.
  by f_equal.
Qed.

Lemma underscore_split m t m' t' :
  underscore_free m = true → underscore_free m' = true →
  (m +:+ "_" +:+ t = m' +:+ "_" +:+ t')%string →
  m = m' ∧ t = t'.
Proof.
  revert m'. induction m as [| c m IH]; intros [| c' m'] Hm Hm' Heq.
  - by injection Heq.
  - injection Heq as <- _. simpl in Hm'. discriminate.
  - injection Heq as -> _. simpl in Hm. discriminate.
  - injection Heq as -> Heq. simpl in Hm, Hm'.
    apply andb_prop in Hm as [_ Hm]. apply andb_prop in Hm' as [_ Hm'].
    by destruct (IH m' Hm Hm' Heq) as [-> ->].
Qed.

Lemma app_underscore_ne (a b : string) : (a +:+ "_" +:+ b)%string ≠ a.
Proof.
  induction a as [| x a IH]; intros Heq.
  - discriminate Heq.
  - injection Heq as Heq. by apply IH.
Qed.

(** X9: the cache key tells two pairs of sheets apart whenever the Master
    sheet names contain no underscore: for such names, equal keys mean the
    same Master sheet and the same Target sheet. *)
Theorem cacheKey_injective m t m' t' :
  underscore_free m = true →
  underscore_free m' = true →
  cacheKey m t = cacheKey m' t' →
  m = m' ∧ t = t'.
Proof.
  intros Hm Hm' Hkey. unfold cacheKey in Hkey.
  apply (inj (String.app "preview_")) in Hkey.
  by apply underscore_split.
Qed.

(** Two pairs of sheets with one key are one pair, for plain names. *)
Lemma cacheKey_injective_witness :
  underscore_free "Master" = true
  ∧ cacheKey "Master" "Target_v2" = cacheKey "Master" "Target_v2"
  ∧ ("Master" = "Master" ∧ "Target_v2" = "Target_v2")%string.
Proof.
  split; [reflexivity |]. split; [reflexivity |].
  by apply (cacheKey_injective "Master" "Target_v2" "Master" "Target_v2").
Defined.

(** X10: with an underscore in a Master sheet name the cache confuses pairs
    of sheets.  The sheets a_b and c have the key of the sheets a and b_c;
    so once previews of (a_b, c), truthy as previews are, are cached,
    [previewSheets] on (a, b_c) sends no request and shows the rows cached
    for the other pair, under the names a and b_c. *)
Theorem cacheKey_collision a b c be be' w previews :
  let m := (a +:+ "_" +:+ b)%string in
  let t' := (b +:+ "_" +:+ c)%string in
  truthy (cacheRead (cache (sessionData (store w))) (cacheKey m c)) = false →
  succeeds (preview_session be m c) previews →
  truthy previews = true →
  let w1 := (previewSheets m c be w).2 in
  let out := previewSheets a t' be' w1 in
  cacheKey m c = cacheKey a t'
  ∧ m ≠ a
  ∧ out.1 = Normal tt
  ∧ sent out.2 = sent w1
  ∧ masterSheet (sessionData (store out.2)) = Some a
  ∧ targetSheet (sessionData (store out.2)) = Some t'
  ∧ previewData (sessionData (store out.2)) = previews.
Proof.
  intros m t' Hmiss Hok Htruthy w1 out.
  assert (Hkey : cacheKey m c = cacheKey a t').
  { unfold cacheKey, m, t'. by rewrite !string_app_assoc. }
  assert (Hne : m ≠ a) by apply app_underscore_ne.
  split; [exact Hkey |]. split; [exact Hne |].
  assert (Hheld : cacheRead (cache (sessionData (store w1))) (cacheKey a t')
                  = previews).
  { unfold w1.
    rewrite (ETLStoreSpec.previewSheets_stored be w m c previews Hmiss Hok).
    rewrite <- Hkey. unfold cacheRead.
    destruct (readyMessage (runtime be) m c previews);
      cbn [snd store sessionData setLoading previewReported addLog setError
           updateSessionData mergeSession cache spread patchPreview p_cache];
      by rewrite lookup_insert_eq. }
  unfold out.
  rewrite (ETLStoreSpec.previewSheets_hit be' w1 a t')
    by (by rewrite Hheld).
  rewrite Hheld. repeat split.
Qed.

(** The collision on the sheets BOM_2024 and Parts against BOM and
    2024_Parts. *)
Lemma cacheKey_collision_witness :
  let previews := JObj [("BOM_2024"%string, JArr [JNull])] in
  let be := cooperative previews [] [] in
  let w := freshWorld (uploaded "f1" ["BOM_2024"; "Parts"]%string) in
  let w1 := (previewSheets "BOM_2024" "Parts" be w).2 in
  let out := previewSheets "BOM" "2024_Parts" unreachable w1 in
  truthy (cacheRead (cache (sessionData (store w)))
            (cacheKey "BOM_2024" "Parts")) = false
  ∧ succeeds (preview_session be "BOM_2024" "Parts") previews
  ∧ truthy previews = true
  ∧ sent out.2 = sent w1
  ∧ previewData (sessionData (store out.2)) = previews.
Proof.
  intros previews be w w1 out.
  assert (Hmiss : truthy (cacheRead (cache (sessionData (store w)))
                            (cacheKey "BOM_2024" "Parts")) = false)
    by reflexivity.
  assert (Hok : succeeds (preview_session be "BOM_2024" "Parts") previews)
    by (by exists 200%Z, "OK"%string).
  destruct (cacheKey_collision "BOM" "2024" "Parts" be unreachable w previews
              Hmiss Hok eq_refl) as (_ & _ & _ & Hsent & _ & _ & Hdata).
  split; [exact Hmiss |]. split; [exact Hok |]. split; [reflexivity |].
  split; [exact Hsent | exact Hdata].
Defined.

(** ** Quick preview and quick process *)

Lemma bind_normal {A B} (m : Act A) (k : A → Act B) be w a w' :
  m be w = (Normal a, w') → (m ≫= k) be w = k a be w'.
Proof. intros H. unfold mbind, Act_bind. by rewrite H. Qed.

Lemma bind_abrupt {A B} (m : Act A) (k : A → Act B) be w e w' :
  m be w = (Abrupt e, w') → (m ≫= k) be w = (Abrupt e, w').
Proof. intros H. unfold mbind, Act_bind. by rewrite H. Qed.

Lemma lookupColumns_app rs1 rs2 :
  lookupColumns (rs1 ++ rs2) = lookupColumns rs1 ++ lookupColumns rs2.
Proof. apply omap_app. Qed.

Lemma canPreview_guard d :
  negb (truthy_string (fileId d)) || (length (sheetNames d) <? 2)
  = negb (canPreview d).
Proof.
  unfold canPreview. rewrite Nat.ltb_antisym.
  by destruct (truthy_string (fileId d)), (2 <=? length (sheetNames d)).
Qed.

(** [quickPreview] throws or is a preview that completes. *)
Lemma quickPreview_run be w :
  if canPreview (sessionData (store w)) then
    ∃ w' new,
      quickPreview be w = (Normal tt, w')
      ∧ isLoading (store w') = false
      ∧ sent w' = sent w ++ new
      ∧ lookupColumns new = []
  else
    quickPreview be w
    = (Abrupt (ErrorObject "Need at least 2 sheets for quick preview"), w).
Proof.
  unfold quickPreview.
  rewrite (bind_normal get _ be w (store w) w) by reflexivity.
  cbv zeta. rewrite canPreview_guard.
  destruct (canPreview (sessionData (store w))); cbn [negb]; cbv iota.
  - match goal with
    | |- context [previewSheets ?m ?t be w] =>
        destruct (runApi_trace (PreviewSheets m t) be w)
          as (w' & new & Hrun & Hload & Hsent & _ & Hasked)
    end.
    by exists w', new.
  - reflexivity.
Qed.

(** X11: the Quick Preview button is enabled, loading apart, exactly when
    the action behind it goes through.  [quickPreview] completes normally
    if and only if the component's canPreview holds (a non-empty fileId and
    at least two sheet names); otherwise it throws 'Need at least 2 sheets
    for quick preview' and leaves store, requests and clock untouched. *)
Theorem quickPreview_enabled be w :
  let d := sessionData (store w) in
  ((quickPreview be w).1 = Normal tt ↔ canPreview d = true)
  ∧ (canPreview d = false →
     quickPreview be w
     = (Abrupt (ErrorObject "Need at least 2 sheets for quick preview"), w)).
Proof.
  cbv zeta. pose proof (quickPreview_run be w) as Hrun.
  destruct (canPreview (sessionData (store w))).
  - destruct Hrun as (w' & new & -> & _). by split.
  - rewrite Hrun. split; [| done]. split; discriminate.
Qed.

(** The button theorem on a session without a file. *)
Lemma quickPreview_enabled_witness :
  canPreview (sessionData initialState) = false
  ∧ quickPreview unreachable (freshWorld initialState)
    = (Abrupt (ErrorObject "Need at least 2 sheets for quick preview"),
       freshWorld initialState).
Proof.
  split; [reflexivity |].
  by apply (proj2 (quickPreview_enabled unreachable (freshWorld initialState))).
Defined.

(** How [quickProcess] runs on a session it can process. *)
Lemma quickProcess_run be w :
  canProcess (sessionData (store w)) = true →
  ∃ w' now,
    quickProcess be w = (Normal tt, w')
    ∧ isLoading (store w') = false
    ∧ lookupColumns (sent w')
      = lookupColumns (sent w)
        ++ take 1 (availableColumns (sessionData (store w)))
    ∧ last (logs (sessionData (store w')))
      = Some (entryOf now "Auto-process completed!" (Some Success)).
Proof.
  intros Hcan. unfold quickProcess.
  rewrite (bind_normal get _ be w (store w) w) by reflexivity. cbv zeta.
  assert (Hfirst : ∃ w1 new,
            (if negb (truthy (previewData (sessionData (store w))))
             then quickPreview else mret tt) be w = (Normal tt, w1)
            ∧ sent w1 = sent w ++ new ∧ lookupColumns new = []).
  { unfold canProcess in Hcan.
    destruct (truthy (previewData (sessionData (store w)))); cbn [negb];
      cbv iota.
    - exists w, []. by rewrite app_nil_r.
    - simpl in Hcan. pose proof (quickPreview_run be w) as Hrun.
      rewrite Hcan in Hrun.
      destruct Hrun as (w1 & new & Hrun & _ & Hsent & Hasked).
      by exists w1, new. }
  destruct Hfirst as (w1 & new1 & Hrun1 & Hsent1 & Hasked1).
  rewrite (bind_normal _ _ be w tt w1 Hrun1).
  set (w2 := {| store := addLog (clock be (ticks w1))
                           "Starting auto-process pipeline..." (Some Info)
                           (store w1);
                sent := sent w1; ticks := S (ticks w1) |}).
  rewrite (bind_normal (log _ _) _ be w1 tt w2) by reflexivity.
  destruct (runApi_trace CleanData be w2)
    as (w3 & new3 & Hrun3 & Hload3 & Hsent3 & _ & Hasked3).
  cbn [runApi] in Hrun3. rewrite (bind_normal cleanData _ be w2 tt w3 Hrun3).
  assert (Hfourth : ∃ w4 new,
            (if 0 <? length (availableColumns (sessionData (store w)))
             then performLookup (availableColumns (sessionData (store w)) !!! 0)
             else mret tt) be w3 = (Normal tt, w4)
            ∧ isLoading (store w4) = false
            ∧ sent w4 = sent w3 ++ new
            ∧ lookupColumns new
              = take 1 (availableColumns (sessionData (store w)))).
  { destruct (availableColumns (sessionData (store w))) as [| c cs].
    - exists w3, []. by rewrite app_nil_r.
    - cbn [length Nat.ltb Nat.leb]. cbv iota.
      change ((c :: cs) !!! 0) with c.
      destruct (runApi_trace (PerformLookup c) be w3)
        as (w4 & new & Hrun & Hload & Hsent & _ & Hasked).
      by exists w4, new. }
  destruct Hfourth as (w4 & new4 & Hrun4 & Hload4 & Hsent4 & Hasked4).
  rewrite (bind_normal _ _ be w3 tt w4 Hrun4).
  eexists _, (clock be (ticks w4)). split; [reflexivity |].
  cbn [store sent ticks]. split; [exact Hload4 |]. split.
  - rewrite Hsent4, Hsent3. subst w2. cbn [sent]. rewrite Hsent1.
    rewrite !lookupColumns_app, Hasked1, Hasked3, Hasked4.
    by rewrite !app_nil_r.
  - rewrite ETLStoreSpec.addLog_logs.
    apply ETLStoreSpec.slice_last_snoc_last. lia.
Qed.

(** On a session it cannot process, [quickProcess] throws at once. *)
Lemma quickProcess_refused be w :
  canProcess (sessionData (store w)) = false →
  quickProcess be w
  = (Abrupt (ErrorObject "Need at least 2 sheets for quick preview"), w).
Proof.
  intros Hcan. unfold canProcess in Hcan.
  apply orb_false_elim in Hcan as [Hpd Hprev].
  unfold quickProcess.
  rewrite (bind_normal get _ be w (store w) w) by reflexivity. cbv zeta.
  rewrite Hpd. cbn [negb]. cbv iota.
  pose proof (quickPreview_run be w) as Hrun. rewrite Hprev in Hrun.
  by rewrite (bind_abrupt _ _ be w _ w Hrun).
Qed.

(** X12: the Quick Process button is enabled, loading apart, exactly when
    the action behind it goes through.  [quickProcess] completes normally
    if and only if the component's canProcess holds (a preview is there, or
    canPreview holds); otherwise it throws the error of [quickPreview] and
    leaves store, requests and clock untouched. *)
Theorem quickProcess_enabled be w :
  let d := sessionData (store w) in
  ((quickProcess be w).1 = Normal tt ↔ canProcess d = true)
  ∧ (canProcess d = false →
     quickProcess be w
     = (Abrupt (ErrorObject "Need at least 2 sheets for quick preview"), w)).
Proof.
  cbv zeta.
  destruct (canProcess (sessionData (store w))) eqn:Hcan.
  - destruct (quickProcess_run be w Hcan) as (w' & now & -> & _). by split.
  - rewrite (quickProcess_refused be w Hcan).
    split; [| done]. split; discriminate.
Qed.

(** The button theorem on a session without a file. *)
Lemma quickProcess_enabled_witness :
  canProcess (sessionData initialState) = false
  ∧ quickProcess unreachable (freshWorld initialState)
    = (Abrupt (ErrorObject "Need at least 2 sheets for quick preview"),
       freshWorld initialState).
Proof.
  split; [reflexivity |].
  by apply (proj2 (quickProcess_enabled unreachable (freshWorld initialState))).
Defined.

(** X13: [quickProcess] chooses its lookup column from the session as it was
    when the action started.  On a session it can process, whatever the
    back end answers, it ends with isLoading false and 'Auto-process
    completed!' as the last log entry, and the lookup requests it sent are:
    one, for the first of the columns that were available at the start, or
    none if there were none then, even if its own cleaning step has loaded
    columns in the meantime. *)
Theorem quickProcess_uses_snapshot be w :
  canProcess (sessionData (store w)) = true →
  let out := quickProcess be w in
  out.1 = Normal tt
  ∧ isLoading (store out.2) = false
  ∧ lookupColumns (sent out.2)
    = lookupColumns (sent w)
      ++ take 1 (availableColumns (sessionData (store w)))
  ∧ ∃ now,
      last (logs (sessionData (store out.2)))
      = Some {| timestamp := now; message := "Auto-process completed!";
                level := Success |}.
Proof.
  intros Hcan. cbv zeta.
  destruct (quickProcess_run be w Hcan) as (w' & now & -> & Hload & Hcols & Hlast).
  split; [reflexivity |]. split; [exact Hload |]. split; [exact Hcols |].
  by exists now.
Qed.

(** The snapshot theorem on a fresh upload and a back end that answers
    every request with success: the cleaning step loads a column, and no
    lookup is requested. *)
Lemma quickProcess_uses_snapshot_witness :
  let be := cooperative (JObj []) [("success"%string, JBool true)] ["Part"%string] in
  let w := freshWorld (uploaded "f1" ["Master"; "Target"]%string) in
  let out := quickProcess be w in
  canProcess (sessionData (store w)) = true
  ∧ availableColumns (sessionData (store out.2)) = ["Part"%string]
  ∧ lookupColumns (sent out.2) = [].
Proof.
  intros be w out.
  assert (Hcan : canProcess (sessionData (store w)) = true) by reflexivity.
  destruct (quickProcess_uses_snapshot be w Hcan) as (_ & _ & Hcols & _).
  split; [exact Hcan |]. split; [reflexivity | exact Hcols].
Defined.

(** ** The handlers of the components *)

(** X14: the handlers of the QuickActions buttons never throw.
    [handleQuickPreview] and [handleQuickProcess] complete normally on every
    session and back end; when the action behind them refuses the session
    (canPreview, respectively canProcess, does not hold), all they do is log
    'Need at least 2 sheets for quick preview' as an error: no request is
    sent and nothing else in the store changes. *)
Theorem quick_handlers_never_throw be w :
  let d := sessionData (store w) in
  let refused :=
    (Normal tt,
     {| store := addLog (clock be (ticks w))
                   "Need at least 2 sheets for quick preview" (Some Error)
                   (store w);
        sent := sent w; ticks := S (ticks w) |}) in
  (handleQuickPreview be w).1 = Normal tt
  ∧ (handleQuickProcess be w).1 = Normal tt
  ∧ (canPreview d = false → handleQuickPreview be w = refused)
  ∧ (canProcess d = false → handleQuickProcess be w = refused).
Proof.
  cbv zeta. unfold handleQuickPreview, handleQuickProcess, try_catch.
  pose proof (quickPreview_run be w) as Hprev.
  destruct (canPreview (sessionData (store w))) eqn:Hcp;
    destruct (canProcess (sessionData (store w))) eqn:Hcq.
  - destruct Hprev as (w1 & new & -> & _).
    destruct (quickProcess_run be w Hcq) as (w2 & now & -> & _).
    repeat split; discriminate.
  - unfold canProcess in Hcq. rewrite Hcp, orb_true_r in Hcq. discriminate.
  - rewrite Hprev.
    destruct (quickProcess_run be w Hcq) as (w2 & now & -> & _).
    repeat split; discriminate.
  - rewrite Hprev, (quickProcess_refused be w Hcq). repeat split.
Qed.

(** The handler theorem on a session without a file. *)
Lemma quick_handlers_never_throw_witness :
  let w := freshWorld initialState in
  canPreview (sessionData (store w)) = false
  ∧ (handleQuickPreview unreachable w).1 = Normal tt
  ∧ sent (handleQuickPreview unreachable w).2 = [].
Proof.
  intros w.
  destruct (quick_handlers_never_throw unreachable w)
    as (Hdone & _ & Hrefused & _).
  split; [reflexivity |]. split; [exact Hdone |].
  by rewrite (Hrefused eq_refl).
Defined.

Lemma previewSheets_requests m t be w :
  ∃ w',
    previewSheets m t be w = (Normal tt, w')
    ∧ (sent w' = sent w ∨ sent w' = sent w ++ [PostPreviewSession m t]).
Proof.
  destruct (truthy (cacheRead (cache (sessionData (store w))) (cacheKey m t)))
    eqn:Hcache.
  - rewrite (ETLStoreSpec.previewSheets_hit be w m t Hcache).
    eexists. split; [reflexivity |]. by left.
  - destruct (ETLStoreSpec.previewSheets_miss be w m t Hcache) as [s' ->].
    eexists. split; [reflexivity |]. by right.
Qed.

(** X15: the Preview button of SheetPreview never previews a sheet against
    itself, nor without both sheets chosen.  [handlePreview] completes
    normally; it sends at most one request, and when it sends one, it is
    the preview of the two selected sheets, which are then both non-empty
    and different.  When a selection is empty or both are the same sheet,
    it only logs a warning. *)
Theorem handlePreview_guarded selectedMaster selectedTarget be w :
  let out := handlePreview selectedMaster selectedTarget be w in
  let chosen :=
    selectedMaster ≠ String.EmptyString
    ∧ selectedTarget ≠ String.EmptyString
    ∧ selectedMaster ≠ selectedTarget in
  out.1 = Normal tt
  ∧ (sent out.2 = sent w
     ∨ (sent out.2 = sent w ++ [PostPreviewSession selectedMaster selectedTarget]
        ∧ chosen))
  ∧ (¬ chosen →
     ∃ msg,
       store out.2 = addLog (clock be (ticks w)) msg (Some Warning) (store w)).
Proof.
  cbv zeta. unfold handlePreview. cbn [truthy_string].
  destruct (String.eqb_spec selectedMaster String.EmptyString) as [-> | HM];
    cbn [negb orb]; cbv iota.
  { split; [reflexivity |]. split; [by left |]. intros _. by eexists. }
  destruct (String.eqb_spec selectedTarget String.EmptyString) as [-> | HT];
    cbn [negb orb]; cbv iota.
  { split; [reflexivity |]. split; [by left |]. intros _. by eexists. }
  destruct (String.eqb_spec selectedMaster selectedTarget) as [-> | HMT].
  { split; [reflexivity |]. split; [by left |]. intros _. by eexists. }
  destruct (previewSheets_requests selectedMaster selectedTarget be w)
    as (w' & -> & Hsent).
  split; [reflexivity |]. split.
  - destruct Hsent as [Hsent | Hsent]; [by left | by right].
  - intros Hnot. destruct Hnot. done.
Qed.

(** The guard theorem on a sheet selected as Master and as Target. *)
Lemma handlePreview_guarded_witness :
  let w := freshWorld (uploaded "f1" ["Master"; "Target"]%string) in
  let out := handlePreview "Master" "Master" unreachable w in
  sent out.2 = []
  ∧ ∃ msg, store out.2 = addLog "12:00:00" msg (Some Warning) (store w).
Proof.
  intros w out.
  destruct (handlePreview_guarded "Master" "Master" unreachable w)
    as (_ & _ & Hwarn).
  split; [reflexivity |].
  apply Hwarn. by intros (_ & _ & Hne).
Defined.

(** ** The actions that run on a page *)

Ltac unfold_page :=
  cbv [runPage uploadFile processUpdates configureSharePoint quickDownload
       handleQuickDownload try_finally_page try_catch_page lift call
       windowOpen mbind mret Task_bind Task_ret Act_bind Act_ret
       reportError httpFailure get set log json throw
       pageRequest pageFails pageFailure sentLookupColumn];
  cbn [state events readings store sent ticks ok status statusText body
       negb fst snd fmap list_fmap app].

(** A failed request on a page: the catch and finally blocks do the rest. *)
Lemma runPage_failed a sv p :
  pageFails sv (sessionData (state p)) a = true →
  runPage a sv p
  = (Normal tt,
     {| state := afterFailure (clock (core sv) (readings p))
                   (pageFailure sv (sessionData (state p)) a) (state p);
        events := events p ++ [pageRequest (sessionData (state p)) a];
        readings := S (readings p) |}).
Proof.
  destruct a as [file | | config]; unfold_page; rewrite ?app_nil_r.
  - answer_cases (upload sv file); intros Hfail;
      try discriminate Hfail; unfold_page;
      rewrite ?app_nil_r; reflexivity.
  - match goal with
    | |- context [stageFailed ?f] => answer_cases f
    end;
      intros Hfail; try discriminate Hfail; unfold_page;
      rewrite ?app_nil_r; reflexivity.
  - answer_cases (sharepoint_configure sv config); intros Hfail;
      try discriminate Hfail; unfold_page;
      rewrite ?app_nil_r; reflexivity.
Qed.

(** The page after a page action whose request succeeded. *)
Lemma runPage_ok a sv p :
  pageFails sv (sessionData (state p)) a = false →
  ∃ patch step msg,
    runPage a sv p
    = (Normal tt,
       {| state := setLoading false
                     (afterSuccess patch (Some step)
                        (clock (core sv) (readings p)) msg (state p));
          events := events p ++ [pageRequest (sessionData (state p)) a];
          readings := S (readings p) |})
    ∧ match a with
      | UploadFile file =>
          ∃ r, succeeds (upload sv file) r
               ∧ patch = patchUpload (file_id r) (name file) (sheet_names r)
               ∧ step = 1%Z
      | ProcessUpdates =>
          ∃ r, succeeds (process_updates sv (fileId (sessionData (state p)))
                           (masterSheet (sessionData (state p)))
                           (targetSheet (sessionData (state p)))
                           (sentLookupColumn (sessionData (state p)))) r
               ∧ patch = patchUpdateResult r ∧ step = 6%Z
      | ConfigureSharePoint config =>
          ∃ r, succeeds (sharepoint_configure sv config) r
               ∧ patch = patchSharepointConfig r ∧ step = 7%Z
      end.
Proof.
  destruct a as [file | | config]; unfold_page; rewrite ?app_nil_r.
  - answer_cases (upload sv file); intros Hok; try discriminate Hok.
    eexists _, _, _. unfold_page. rewrite ?app_nil_r.
    split; [reflexivity |].
    eexists. split; [by eexists _, _ | by split].
  - unfold afterSuccess.
    match goal with
    | |- context [stageFailed ?f] => answer_cases f
    end;
      intros Hok; try discriminate Hok.
    eexists _, _, _. unfold_page. rewrite ?app_nil_r.
    split; [reflexivity |].
    eexists. split; [by eexists _, _ | by split].
  - answer_cases (sharepoint_configure sv config); intros Hok;
      try discriminate Hok.
    eexists _, _, _. unfold_page. rewrite ?app_nil_r.
    split; [reflexivity |].
    eexists. split; [by eexists _, _ | by split].
Qed.

(** X16: [uploadFile], [processUpdates] and [configureSharePoint] never
    throw and always send exactly one request.  Whatever the services
    answer, each completes normally with isLoading false, having added its
    one request to the events of the page and read the clock once;
    [processUpdates] sends the fileId, masterSheet and targetSheet of the
    session and the lookup_column field of its lookupResult. *)
Theorem page_actions_complete a sv p :
  let out := runPage a sv p in
  out.1 = Normal tt
  ∧ isLoading (state out.2) = false
  ∧ events out.2 = events p ++ [pageRequest (sessionData (state p)) a]
  ∧ readings out.2 = S (readings p)
  ∧ pageRequest (sessionData (state p)) ProcessUpdates
    = PostProcessUpdates (fileId (sessionData (state p)))
        (masterSheet (sessionData (state p)))
        (targetSheet (sessionData (state p)))
        (match lookupResult (sessionData (state p)) with
         | Some result => field "lookup_column" result
         | None => None
         end).
Proof.
  cbv zeta.
  destruct (pageFails sv (sessionData (state p)) a) eqn:Hfails.
  - rewrite (runPage_failed a sv p Hfails). repeat split.
  - destruct (runPage_ok a sv p Hfails) as (patch & step & msg & -> & _).
    repeat split.
Qed.

(** X17: a failed request leaves the session as it was, for the page actions
    too.  When the one request of [uploadFile], [processUpdates] or
    [configureSharePoint] fails, currentStep and every field of sessionData
    but the logs are as before; error holds the failure message, the logs
    gain it as an error entry, and isLoading is false. *)
Theorem page_failure_atomic a sv p :
  pageFails sv (sessionData (state p)) a = true →
  let s := state p in
  let out := runPage a sv p in
  let s' := state out.2 in
  let msg := pageFailure sv (sessionData s) a in
  out.1 = Normal tt
  ∧ sameButLogs (sessionData s) (sessionData s')
  ∧ currentStep s' = currentStep s
  ∧ isLoading s' = false
  ∧ error s' = Some msg
  ∧ logs (sessionData s')
    = slice_last 50
        (logs (sessionData s)
         ++ [{| timestamp := clock (core sv) (readings p); message := msg;
                level := Error |}]).
Proof.
  intros Hfail. cbv zeta. rewrite (runPage_failed a sv p Hfail).
  repeat split.
Qed.

(** The failure theorem on an upload while the services are offline. *)
Lemma page_failure_atomic_witness :
  let p := freshPage (uploaded "f1" ["Master"; "Target"]%string) in
  let a := UploadFile {| name := "new.xlsx" |} in
  let s' := state (runPage a offline p).2 in
  pageFails offline (sessionData (state p)) a = true
  ∧ fileId (sessionData s') = Some "f1"%string
  ∧ error s' = Some "Failed to fetch"%string.
Proof.
  intros p a s'.
  assert (Hfail : pageFails offline (sessionData (state p)) a = true)
    by reflexivity.
  destruct (page_failure_atomic a offline p Hfail)
    as (_ & ((Hfile & _) & _) & _ & _ & Herr & _).
  split; [exact Hfail |]. split; [exact Hfile | exact Herr].
Defined.



(** X19: a successful [processUpdates] completes the pipeline.  When
    /process-updates answers with success, updateResult holds the reply and
    the wizard is on step 6, every other output being as before; and if the
    session held all six earlier outputs (getMaxAllowedStep at least 6),
    getMaxAllowedStep is now 7. *)
Theorem processUpdates_unlocks sv p r :
  let d := sessionData (state p) in
  succeeds (process_updates sv (fileId d) (masterSheet d) (targetSheet d)
              (sentLookupColumn d)) r →
  let out := processUpdates sv p in
  let s' := state out.2 in
  updateResult (sessionData s') = Some r
  ∧ currentStep s' = Number.whole 6
  ∧ error s' = None
  ∧ (fileId (sessionData s') = fileId d
     ∧ previewData (sessionData s') = previewData d
     ∧ cleanResult (sessionData s') = cleanResult d
     ∧ columnInsights (sessionData s') = columnInsights d
     ∧ lookupResult (sessionData s') = lookupResult d
     ∧ lookupInsights (sessionData s') = lookupInsights d)
  ∧ ((6 <= getMaxAllowedStep (state p))%Z → getMaxAllowedStep s' = 7%Z).
Proof.
  cbv zeta. intros Hok.
  pose proof (succeeds_not_failed _ _ Hok) as Hnot.
  destruct (runPage_ok ProcessUpdates sv p Hnot)
    as (patch & step & msg & Hrun & r' & Hok' & -> & ->).
  cbn [runPage] in Hrun. rewrite Hrun.
  assert (r' = r) as ->.
  { destruct Hok as (c1 & t1 & H1), Hok' as (c2 & t2 & H2). congruence. }
  split; [reflexivity |]. split; [reflexivity |]. split; [reflexivity |].
  split; [repeat split |].
  intros Hmax. clear Hrun Hok Hok' Hnot.
  destruct p as [[step loading err d] evs n], d.
  unfold getMaxAllowedStep in *.
  cbv [afterSuccess updateSessionData mergeSession spread setCurrentStep
       setLoading setError addLog patchUpdateResult state sessionData
       fileId previewData cleanResult columnInsights lookupResult
       lookupInsights updateResult p_fileId p_previewData p_cleanResult
       p_columnInsights p_lookupResult p_lookupInsights p_updateResult
       fst snd truthy_object negb] in *.
  repeat match goal with
         | H : context [truthy_string ?x] |- _ =>
             is_var x; destruct (truthy_string x)
         | H : context [if truthy ?x then _ else _] |- _ =>
             is_var x; destruct (truthy x)
         | H : context [match ?x with Some _ => _ | None => _ end] |- _ =>
             is_var x; destruct x
         end; (reflexivity || lia).
Qed.

(** The updates theorem at the end of a pipeline run against services that
    answer every request with success. *)
Lemma processUpdates_unlocks_witness :
  let obj : ApiObject := [("lookup_column"%string, JStr "Part")] in
  let sv := online "f1" ["Master"; "Target"]%string obj in
  let w0 := freshWorld (uploaded "f1" ["Master"; "Target"]%string) in
  let w1 := (previewSheets "Master" "Target" (core sv) w0).2 in
  let w2 := (cleanData (core sv) w1).2 in
  let w3 := (performLookup "Part" (core sv) w2).2 in
  let out := processUpdates sv (freshPage (store w3)) in
  (6 <= getMaxAllowedStep (store w3))%Z
  ∧ events out.2
    = [PostProcessUpdates (Some "f1") (Some "Master") (Some "Target")
         (Some (JStr "Part"))]%string
  ∧ getMaxAllowedStep (state out.2) = 7%Z.
Proof.
  intros obj sv w0 w1 w2 w3 out.
  assert (Hmax : (6 <= getMaxAllowedStep (store w3))%Z)
    by (vm_compute; discriminate).
  assert (Hok : succeeds
                  (process_updates sv
                     (fileId (sessionData (state (freshPage (store w3)))))
                     (masterSheet (sessionData (state (freshPage (store w3)))))
                     (targetSheet (sessionData (state (freshPage (store w3)))))
                     (sentLookupColumn
                        (sessionData (state (freshPage (store w3)))))) obj)
    by (by exists 200%Z, "OK"%string).
  destruct (processUpdates_unlocks sv (freshPage (store w3)) obj Hok)
    as (_ & _ & _ & _ & Hunlock).
  split; [exact Hmax |]. split; [reflexivity | exact (Hunlock Hmax)].
Defined.

(** X20: [configureSharePoint] opens step 7 without the updates.  When
    /sharepoint/configure answers with success, sharepointConfig holds the
    reply and the wizard is on step 7, while no stage output changes and
    getMaxAllowedStep stays what it was: unless the session already held
    every output, the wizard is then on a step [goToStep] would refuse. *)
Theorem configureSharePoint_unguarded config sv p r :
  succeeds (sharepoint_configure sv config) r →
  let out := configureSharePoint config sv p in
  let s' := state out.2 in
  sharepointConfig (sessionData s') = Some r
  ∧ currentStep s' = Number.whole 7
  ∧ sameOutputs (sessionData (state p)) (sessionData s')
  ∧ getMaxAllowedStep s' = getMaxAllowedStep (state p)
  ∧ (stepAllowed s' ↔ getMaxAllowedStep (state p) = 7%Z).
Proof.
  intros Hok. cbv zeta.
  pose proof (succeeds_not_failed _ _ Hok) as Hnot.
  destruct (runPage_ok (ConfigureSharePoint config) sv p Hnot)
    as (patch & step & msg & Hrun & r' & Hok' & -> & ->).
  cbn [runPage] in Hrun. rewrite Hrun.
  assert (r' = r) as ->.
  { destruct Hok as (c1 & t1 & H1), Hok' as (c2 & t2 & H2). congruence. }
  split; [reflexivity |]. split; [reflexivity |]. split; [repeat split |].
  assert (Hmax : getMaxAllowedStep
                   (setLoading false
                      (afterSuccess (patchSharepointConfig r) (Some 7%Z)
                         (clock (core sv) (readings p)) msg (state p)))
                 = getMaxAllowedStep (state p)) by reflexivity.
  split; [exact Hmax |].
  unfold stepAllowed. cbn [snd state]. rewrite Hmax.
  change (currentStep (setLoading false (afterSuccess _ (Some 7%Z) _ _ _)))
    with (Number.whole 7).
  pose proof (ETLStoreSpec.getMaxAllowedStep_range (state p)) as Hrange.
  destruct (ETLStoreSpec.whole_compare 7 (getMaxAllowedStep (state p)))
    as (-> & _); [lia | exact Hrange |].
  rewrite Z.leb_le. lia.
Qed.

(** The SharePoint theorem on a session that has only its file. *)
Lemma configureSharePoint_unguarded_witness :
  let sv := online "f1" ["Master"; "Target"]%string [] in
  let p := freshPage (uploaded "f1" ["Master"; "Target"]%string) in
  let s' := state (configureSharePoint JNull sv p).2 in
  succeeds (sharepoint_configure sv JNull) []
  ∧ currentStep s' = Number.whole 7
  ∧ getMaxAllowedStep s' = 1%Z.
Proof.
  intros sv p s'.
  assert (Hok : succeeds (sharepoint_configure sv JNull) [])
    by (by exists 200%Z, "OK"%string).
  destruct (configureSharePoint_unguarded JNull sv p [] Hok)
    as (_ & Hstep & _ & Hmax & _).
  split; [exact Hok |]. split; [exact Hstep |].
  unfold s'. rewrite Hmax. reflexivity.
Defined.

(** ** Download *)

(** X21: [quickDownload] needs a lookup result, a non-empty fileId and a
    non-empty targetSheet.  With all three it opens one window on
    http://localhost:8000/download/<fileId>/<targetSheet>, logs 'Download
    initiated' and sends no request; with any of them missing it throws 'No
    processed data available for download' and changes nothing, so the
    component's canDownload, which looks at the lookup result only, does
    not rule the throw out.  [handleQuickDownload] catches it: it never
    throws. *)
Theorem quickDownload_guarded sv p :
  let d := sessionData (state p) in
  (downloadable d = false →
   quickDownload sv p
   = (Abrupt (ErrorObject "No processed data available for download"), p))
  ∧ (∀ id sheet,
       downloadable d = true →
       fileId d = Some id → targetSheet d = Some sheet →
       quickDownload sv p
       = (Normal tt,
          {| state := addLog (clock (core sv) (readings p))
                        "Download initiated" (Some Info) (state p);
             events := events p
                       ++ [WindowOpen ("http://localhost:8000/download/"
                                       +:+ id +:+ "/" +:+ sheet)];
             readings := S (readings p) |}))
  ∧ (canDownload d = true → targetSheet d = None →
     (quickDownload sv p).1
     = Abrupt (ErrorObject "No processed data available for download"))
  ∧ (handleQuickDownload sv p).1 = Normal tt.
Proof.
  cbv zeta.
  assert (Hrefuse : downloadable (sessionData (state p)) = false →
            quickDownload sv p
            = (Abrupt (ErrorObject "No processed data available for download"),
               p)).
  { unfold downloadable. intros Hnot. unfold_page.
    destruct (truthy_object (lookupResult (sessionData (state p))));
      destruct (truthy_string (fileId (sessionData (state p))));
      destruct (truthy_string (targetSheet (sessionData (state p))));
      try discriminate Hnot; cbn [negb orb]; cbv iota;
      rewrite ?app_nil_r; by destruct p. }
  assert (Haccept : downloadable (sessionData (state p)) = true →
            ∃ p', quickDownload sv p = (Normal tt, p')).
  { unfold downloadable. intros Hyes. unfold_page.
    destruct (truthy_object (lookupResult (sessionData (state p))));
      destruct (truthy_string (fileId (sessionData (state p))));
      destruct (truthy_string (targetSheet (sessionData (state p))));
      try discriminate Hyes; cbn [negb orb]; cbv iota. by eexists. }
  split; [exact Hrefuse |]. split; [| split].
  - intros id sheet Hyes Hid Hsheet. unfold downloadable in Hyes.
    unfold_page. rewrite Hid, Hsheet in *.
    destruct (truthy_object (lookupResult (sessionData (state p))));
      destruct (truthy_string (Some id));
      destruct (truthy_string (Some sheet));
      try discriminate Hyes; cbn [negb orb default]; cbv iota.
    unfold downloadUrl. by rewrite ?app_nil_r.
  - intros _ Hsheet. rewrite Hrefuse; [done |].
    unfold downloadable. rewrite Hsheet. cbn. by rewrite andb_false_r.
  - unfold handleQuickDownload, try_catch_page.
    destruct (downloadable (sessionData (state p))) eqn:Hd.
    + by destruct (Haccept eq_refl) as [p' ->].
    + by rewrite (Hrefuse eq_refl).
Qed.

(** The download theorem on a session whose lookup result came without a
    preview, hence without a Target sheet. *)
Lemma quickDownload_guarded_witness :
  let be := cooperative (JObj []) [] [] in
  let w := (performLookup "Part" be
              (freshWorld (uploaded "f1" ["Master"; "Target"]%string))).2 in
  let p := freshPage (store w) in
  canDownload (sessionData (state p)) = true
  ∧ targetSheet (sessionData (state p)) = None
  ∧ (quickDownload offline p).1
    = Abrupt (ErrorObject "No processed data available for download").
Proof.
  intros be w p.
  assert (Hcan : canDownload (sessionData (state p)) = true) by reflexivity.
  assert (Hsheet : targetSheet (sessionData (state p)) = None) by reflexivity.
  destruct (quickDownload_guarded offline p) as (_ & _ & Hthrow & _).
  split; [exact Hcan |]. split; [exact Hsheet | exact (Hthrow Hcan Hsheet)].
Defined.

(** ** Progress through the pipeline *)

Lemma setLoading_frame b s :
  getMaxAllowedStep (setLoading b s) = getMaxAllowedStep s.
Proof. reflexivity. Qed.

(** X22: each API action that succeeds opens the next stage.  In a session
    with a file and the outputs of the stages before the action's own, an
    action all of whose requests the back end answers with success, a
    preview with an object that holds an array of rows for each of the two
    sheets, ends without error and with getMaxAllowedStep at least 2 after
    [previewSheets], at least 4 after [cleanData] or
    [generateColumnInsights], at least 6 after [performLookup] or
    [generateLookupInsights]; the latter four leave the wizard on that
    step, [previewSheets] leaves it where it was. *)
Theorem stage_unlocks_next a be w :
  (1 <= getMaxAllowedStep (store w))%Z →
  stageReady (store w) a →
  fullySucceeds be a →
  let s' := store (runApi a be w).2 in
  (unlocked a <= getMaxAllowedStep s')%Z
  ∧ error s' = None
  ∧ currentStep s'
    = match a with
      | PreviewSheets _ _ => currentStep (store w)
      | _ => Number.whole (unlocked a)
      end.
Proof.
  intros Hfile Hready Hall. cbv zeta.
  destruct a as [m t | | column | |]; cbn [runApi fullySucceeds unlocked] in *.
  - destruct Hall as (r & Hok & (fields & rows_m & -> & Hm)
                      & (fields' & rows_t & Heq & Ht)).
    injection Heq as <-.
    destruct (truthy (cacheRead (cache (sessionData (store w))) (cacheKey m t)))
      eqn:Hcache.
    + rewrite (ETLStoreSpec.previewSheets_hit be w m t Hcache).
      revert Hcache.
      generalize (cacheRead (cache (sessionData (store w))) (cacheKey m t)).
      intros held Hheld. clear Hok.
      destruct w as [[step loading err d] rs n], d.
      split; [wizard_cases |]. by split.
    + rewrite (ETLStoreSpec.previewSheets_stored be w m t _ Hcache Hok).
      destruct (ETLStoreSpec.readyMessage_rows (runtime be) m t fields
                  rows_m rows_t Hm Ht) as [msg ->].
      assert (Htruthy : truthy (JObj fields) = true) by reflexivity.
      revert Htruthy. generalize (JObj fields). intros previews Htruthy.
      clear Hcache Hok. destruct w as [[step loading err d] rs n], d.
      split; [wizard_cases |]. by split.
  - destruct Hall as ((r & Hok) & (r2 & Hok2)).
    rewrite (cleanData_ok be w r Hok).
    match goal with
    | |- context [generateColumnInsights be ?x] =>
        rewrite (generateColumnInsights_ok be x r2 Hok2)
    end.
    cbn [snd settled store]. rewrite !setLoading_frame.
    cbn [setLoading currentStep error].
    match goal with
    | |- context [afterColumns be ?x] =>
        destruct (afterColumns_wizard be x) as (-> & ->);
        destruct (afterColumns_frame be x) as (_ & _ & -> & _)
    end.
    clear Hok Hok2. destruct w as [[step loading err d] rs n], d.
    split; [wizard_cases |]. by split.
  - destruct Hall as ((r & Hok) & (r2 & Hok2)).
    rewrite (performLookup_ok be w column r Hok).
    match goal with
    | |- context [generateLookupInsights be ?x] =>
        rewrite (generateLookupInsights_ok be x r2 Hok2)
    end.
    clear Hok Hok2. destruct w as [[step loading err d] rs n], d.
    split; [wizard_cases |]. by split.
  - destruct Hall as (r & Hok).
    rewrite (generateColumnInsights_ok be w r Hok).
    cbn [snd settled store]. rewrite !setLoading_frame.
    cbn [setLoading currentStep error].
    match goal with
    | |- context [afterColumns be ?x] =>
        destruct (afterColumns_wizard be x) as (-> & ->);
        destruct (afterColumns_frame be x) as (_ & _ & -> & _)
    end.
    clear Hok. destruct w as [[step loading err d] rs n], d.
    split; [wizard_cases |]. by split.
  - destruct Hall as (r & Hok).
    rewrite (generateLookupInsights_ok be w r Hok).
    clear Hok. destruct w as [[step loading err d] rs n], d.
    split; [wizard_cases |]. by split.
Qed.

(** The progress theorem on a cleaning after a preview. *)
Lemma stage_unlocks_next_witness :
  let be := cooperative (JObj []) [] ["Part"%string] in
  let w := (previewSheets "Master" "Target" be
              (freshWorld (uploaded "f1" ["Master"; "Target"]%string))).2 in
  let s' := store (runApi CleanData be w).2 in
  stageReady (store w) CleanData
  ∧ fullySucceeds be CleanData
  ∧ (4 <= getMaxAllowedStep s')%Z
  ∧ currentStep s' = Number.whole 4.
Proof.
  intros be w s'.
  assert (Hfile : (1 <= getMaxAllowedStep (store w))%Z)
    by (vm_compute; discriminate).
  assert (Hready : stageReady (store w) CleanData)
    by (vm_compute; discriminate).
  assert (Hall : fullySucceeds be CleanData).
  { split; exists []; by exists 200%Z, "OK"%string. }
  destruct (stage_unlocks_next CleanData be w Hfile Hready Hall)
    as (Hmax & _ & Hstep).
  split; [exact Hready |]. split; [exact Hall |].
  split; [exact Hmax | exact Hstep].
Defined.

(** ** A reply without previews *)

(** X23: a preview reply with its success flag set and no previews is
    stored before it fails.  When the cache cannot serve the two sheets and
    /preview-session answers with success and previews that are [undefined]
    or [null], [previewSheets] has set masterSheet and targetSheet, replaced
    previewData by them and put them in the cache under the key when the
    TypeError of reading the row counts is caught: the action ends with
    that error, the step unchanged, and, in a session with a file,
    getMaxAllowedStep at 1, whatever it was before. *)
Theorem previewSheets_stores_before_failing m t be w previews :
  truthy (cacheRead (cache (sessionData (store w))) (cacheKey m t)) = false →
  succeeds (preview_session be m t) previews →
  nullish previews = true →
  let out := previewSheets m t be w in
  let s' := store out.2 in
  let msg := cannotRead (runtime be) previews m in
  out.1 = Normal tt
  ∧ masterSheet (sessionData s') = Some m
  ∧ targetSheet (sessionData s') = Some t
  ∧ previewData (sessionData s') = previews
  ∧ cache (sessionData s')
    = <[cacheKey m t := previews]> (cache (sessionData (store w)))
  ∧ error s' = Some msg
  ∧ logs (sessionData s')
    = slice_last 50
        (logs (sessionData (store w))
         ++ [{| timestamp := clock be (ticks w); message := msg;
                level := Error |}])
  ∧ currentStep s' = currentStep (store w)
  ∧ isLoading s' = false
  ∧ (truthy_string (fileId (sessionData (store w))) = true →
     getMaxAllowedStep s' = 1%Z).
Proof.
  intros Hmiss Hok Hnull. cbv zeta.
  rewrite (ETLStoreSpec.previewSheets_stored be w m t previews Hmiss Hok).
  assert (Hthrown : readyMessage (runtime be) m t previews
                    = Abrupt (ErrorObject (cannotRead (runtime be) previews m)))
    by (by destruct previews).
  rewrite Hthrown.
  assert (Hfalsy : truthy previews = false) by (by destruct previews).
  repeat (split; [reflexivity |]).
  intros Hfile. unfold getMaxAllowedStep.
  cbn [snd store sessionData setLoading previewReported addLog setError
       updateSessionData mergeSession fileId previewData spread patchPreview
       p_fileId p_previewData].
  by rewrite Hfile, Hfalsy.
Qed.

(** The theorem on a session that had its preview: the reply without
    previews takes the preview stage back. *)
Lemma previewSheets_stores_before_failing_witness :
  let previews :=
    JObj [("Master"%string, JArr [JNull]); ("Target"%string, JArr [])] in
  let w := (previewSheets "Master" "Target" (previewing previews)
              (freshWorld (uploaded "f1" ["Master"; "Target"; "Old"]%string))).2 in
  let out := previewSheets "Master" "Old" (previewing JUndefined) w in
  getMaxAllowedStep (store w) = 2%Z
  ∧ succeeds (preview_session (previewing JUndefined) "Master" "Old")
      JUndefined
  ∧ previewData (sessionData (store out.2)) = JUndefined
  ∧ error (store out.2)
    = Some "Cannot read properties of undefined (reading 'Master')"%string
  ∧ getMaxAllowedStep (store out.2) = 1%Z.
Proof.
  intros previews w out.
  assert (Hmiss : truthy (cacheRead (cache (sessionData (store w)))
                            (cacheKey "Master" "Old")) = false)
    by reflexivity.
  assert (Hok : succeeds (preview_session (previewing JUndefined)
                            "Master" "Old") JUndefined)
    by (by exists 200%Z, "OK"%string).
  destruct (previewSheets_stores_before_failing "Master" "Old"
              (previewing JUndefined) w JUndefined Hmiss Hok eq_refl)
    as (_ & _ & _ & Hdata & _ & Herr & _ & _ & _ & Hmax).
  split; [reflexivity |]. split; [exact Hok |]. split; [exact Hdata |].
  split; [exact Herr |]. exact (Hmax eq_refl).
Defined.

End ETLAppSpec.
